(** * Murmuration: the agent core (Entity, EntityManager)

    A shallow embedding of [src/entities/Entity.ts] and
    [src/entities/EntityManager.ts], followed by the movement functions,
    the camera controller, the terrain generator and the simulation that
    drives them.

    JavaScript numbers are read as exact real numbers ([R]): rounding,
    signed zeros and non-finite values of IEEE-754 are outside this model.
    The integrator is read a second time with rounded operations and in
    binary64 itself, where a bound on a length depends on the rounding.
    The methods of three.js's [Vector3] and [Quaternion] that the source
    calls are written out after the library's definitions. *)

From Stdlib Require Floats.
From Stdlib Require Import Reals Lra Lia List Sorted Permutation.
From stdpp Require Import gmap strings list fin_maps sorting.

Open Scope R_scope.

(** ** three.js [Vector3] *)

Module Vector3.

Record t : Type := mk { x : R; y : R; z : R }.

Definition add (a b : t) : t := mk (x a + x b) (y a + y b) (z a + z b).

Definition multiplyScalar (a : t) (s : R) : t := mk (x a * s) (y a * s) (z a * s).

Definition divideScalar (a : t) (s : R) : t := multiplyScalar a (1 / s).

Definition dot (a b : t) : R := x a * x b + y a * y b + z a * z b.

Definition lengthSq (a : t) : R := x a * x a + y a * y a + z a * z a.

Definition length (a : t) : R := sqrt (lengthSq a).

(** [this.divideScalar(this.length() || 1)]: a zero length is replaced by 1. *)
Definition normalize (a : t) : t :=
  divideScalar a (if Req_dec_T (length a) 0 then 1 else length a).

Definition distanceToSquared (a b : t) : R :=
  let dx := x a - x b in
  let dy := y a - y b in
  let dz := z a - z b in
  dx * dx + dy * dy + dz * dz.

Definition distanceTo (a b : t) : R := sqrt (distanceToSquared a b).

Definition sub (a b : t) : t := mk (x a - x b) (y a - y b) (z a - z b).

Definition crossVectors (a b : t) : t :=
  mk (y a * z b - z a * y b) (z a * x b - x a * z b) (x a * y b - y a * x b).

(** [setFromSphericalCoords(radius, phi, theta)] *)
Definition setFromSphericalCoords (radius phi theta : R) : t :=
  let sinPhiRadius := sin phi * radius in
  mk (sinPhiRadius * sin theta) (cos phi * radius) (sinPhiRadius * cos theta).

End Vector3.

Abbreviation Vector3 := Vector3.t.

(** ** three.js [Quaternion] *)

Module Quaternion.

Record t : Type := mk { x : R; y : R; z : R; w : R }.

Definition identity : t := mk 0 0 0 1.

Definition length (q : t) : R :=
  sqrt (x q * x q + y q * y q + z q * z q + w q * w q).

Definition normalize (q : t) : t :=
  let l := length q in
  if Req_dec_T l 0 then mk 0 0 0 1
  else let l := 1 / l in mk (x q * l) (y q * l) (z q * l) (w q * l).

(** [Number.EPSILON], 2^-52, the threshold of [setFromUnitVectors]. *)
Definition EPSILON : R := / 2 ^ 52.

(** [setFromUnitVectors(vFrom, vTo)]: the rotation taking the unit vector
    [vFrom] to the unit vector [vTo]. *)
Definition setFromUnitVectors (vFrom vTo : Vector3) : t :=
  let r := Vector3.dot vFrom vTo + 1 in
  if Rlt_dec r EPSILON then
    if Rgt_dec (Rabs (Vector3.x vFrom)) (Rabs (Vector3.z vFrom)) then
      normalize (mk (- Vector3.y vFrom) (Vector3.x vFrom) 0 0)
    else
      normalize (mk 0 (- Vector3.z vFrom) (Vector3.y vFrom) 0)
  else
    normalize
      (mk (Vector3.y vFrom * Vector3.z vTo - Vector3.z vFrom * Vector3.y vTo)
          (Vector3.z vFrom * Vector3.x vTo - Vector3.x vFrom * Vector3.z vTo)
          (Vector3.x vFrom * Vector3.y vTo - Vector3.y vFrom * Vector3.x vTo)
          r).

End Quaternion.

Abbreviation Quaternion := Quaternion.t.

(** ** [src/types/index.ts] *)

Module EntityState.
Record t : Type := mk {
  position : Vector3;
  velocity : Vector3;
  randomVariables : gmap string R
}.
End EntityState.

Module NearbyEntity.
Record t : Type := mk {
  position : Vector3;
  velocity : Vector3;
  distance : R
}.
End NearbyEntity.

Inductive SurfaceType : Type := field | lake | hedgerow | tree.

Module TerrainInfo.
Record t : Type := mk {
  height : R;
  type : SurfaceType;
  normal : Vector3
}.
End TerrainInfo.

Module MovementInput.
Record t : Type := mk {
  currentState : EntityState.t;
  nearbyEntities : list NearbyEntity.t;
  terrainAhead : list TerrainInfo.t;
  deltaTime : R
}.
End MovementInput.

Module MovementOutput.
Record t : Type := mk {
  acceleration : Vector3;
  shouldUpdateRandomVariables : option (gmap string R)
}.
End MovementOutput.

(** ** [src/entities/Entity.ts] *)

Module Mesh.
Record t : Type := mk {
  position : Vector3;
  quaternion : Quaternion
}.
End Mesh.

Module Entity.

Record t : Type := mk {
  position : Vector3;
  velocity : Vector3;
  randomVariables : gmap string R;
  mesh : Mesh.t
}.

(** [new Entity(position, initialVelocity?)] *)
Definition new (position : Vector3) (initialVelocity : option Vector3) : t :=
  mk position
     (match initialVelocity with
      | Some v => v
      | None => Vector3.mk 0 0 0
      end)
     ∅
     (Mesh.mk position Quaternion.identity).

Definition getState (e : t) : EntityState.t :=
  EntityState.mk (position e) (velocity e) (randomVariables e).

Definition getPosition (e : t) : Vector3 := position e.

Definition getVelocity (e : t) : Vector3 := velocity e.

Definition maxSpeed : R := 50.

Definition up : Vector3 := Vector3.mk 0 1 0.

Definition update (e : t) (acceleration : Vector3) (deltaTime : R) : t :=
  let velocity :=
    Vector3.add (velocity e) (Vector3.multiplyScalar acceleration deltaTime) in
  let velocity :=
    if Rgt_dec (Vector3.length velocity) maxSpeed
    then Vector3.multiplyScalar (Vector3.normalize velocity) maxSpeed
    else velocity in
  let position :=
    Vector3.add (position e) (Vector3.multiplyScalar velocity deltaTime) in
  let quaternion :=
    if Rgt_dec (Vector3.length velocity) 0.1
    then Quaternion.setFromUnitVectors up (Vector3.normalize velocity)
    else Mesh.quaternion (mesh e) in
  mk position velocity (randomVariables e) (Mesh.mk position quaternion).

(** [newVariables.forEach((value, key) => this.randomVariables.set(key, value))] *)
Definition updateRandomVariables (e : t) (newVariables : gmap string R) : t :=
  mk (position e) (velocity e)
     (map_fold (fun key value vars => <[key := value]> vars)
               (randomVariables e) newVariables)
     (mesh e).

Definition getRandomVariable (e : t) (key : string) : option R :=
  randomVariables e !! key.

Definition setRandomVariable (e : t) (key : string) (value : R) : t :=
  mk (position e) (velocity e) (<[key := value]> (randomVariables e)) (mesh e).

Definition setPosition (e : t) (position : Vector3) : t :=
  mk position (velocity e) (randomVariables e) (mesh e).

Definition setVelocity (e : t) (velocity : Vector3) : t :=
  mk (position e) velocity (randomVariables e) (mesh e).

End Entity.

(** ** [src/entities/EntityManager.ts] *)

(** The result of [matrix.compose(position, quaternion, scale)]. *)
Module Matrix4.
Record t : Type := compose {
  position : Vector3;
  quaternion : Quaternion;
  scale : Vector3
}.
End Matrix4.

(** [Array.prototype.forEach], for a callback that may replace elements of
    the array it walks: the indices [0 .. length - 1] are visited in order,
    and each call sees the array as the earlier calls left it. *)
Definition forEachIndex {A : Type} (callback : list A -> nat -> list A)
    (array : list A) : list A :=
  foldl callback array (seq 0 (length array)).

Module EntityManager.

Definition MovementFunction : Type := MovementInput.t -> MovementOutput.t.

(** [instancedMesh] holds one matrix per instance; a slot that was never
    written by [setMatrixAt] is [None], and [setMatrixAt] beyond the last
    instance writes nothing.  [maxEntityPerception] is a number of entries,
    a natural number. *)
Record t : Type := mk {
  entities : list Entity.t;
  movementFunction : MovementFunction;
  perceptionRadius : R;
  instancedMesh : option (list (option Matrix4.t));
  terrainSize : R;
  maxEntityPerception : nat
}.

Definition new (movementFunction : MovementFunction) (perceptionRadius : R)
    (maxEntityPerception : nat) (terrainSize : R) : t :=
  mk [] movementFunction perceptionRadius None terrainSize maxEntityPerception.

(** The body of the [forEach] callback of [updateInstancedMesh]. *)
Definition instanceMatrix (entity : Entity.t) : Matrix4.t :=
  let position := Entity.getPosition entity in
  let velocity := Entity.getVelocity entity in
  let quaternion :=
    if Rgt_dec (Vector3.length velocity) 0.1
    then Quaternion.setFromUnitVectors (Vector3.mk 0 1 0) (Vector3.normalize velocity)
    else Quaternion.identity in
  Matrix4.compose position quaternion (Vector3.mk 1 1 1).

Fixpoint setMatrices (index : nat) (entities : list Entity.t)
    (matrices : list (option Matrix4.t)) : list (option Matrix4.t) :=
  match entities with
  | [] => matrices
  | entity :: rest =>
      setMatrices (S index) rest (<[index := Some (instanceMatrix entity)]> matrices)
  end.

Definition updateInstancedMesh (m : t) : t :=
  match instancedMesh m with
  | None => m
  | Some matrices =>
      mk (entities m) (movementFunction m) (perceptionRadius m)
         (Some (setMatrices 0 (entities m) matrices))
         (terrainSize m) (maxEntityPerception m)
  end.

Definition createInstancedMesh (m : t) : t :=
  match entities m with
  | [] => m
  | _ :: _ =>
      updateInstancedMesh
        (mk (entities m) (movementFunction m) (perceptionRadius m)
            (Some (replicate (length (entities m)) None))
            (terrainSize m) (maxEntityPerception m))
  end.

(** [Math.random()] is an explicit source.  [random n] is the result of
    the [n]-th of the calls that the code embedded here makes itself, and
    the number of those calls is threaded through.  three.js calls
    [Math.random()] as well, for the identifier of every geometry,
    material and object it constructs; those calls are not counted, so the
    total number of calls is not what [n] tells. *)
Fixpoint createLoop (terrainSize : R) (random : nat -> R) (count : nat)
    (n : nat) (entities : list Entity.t) : list Entity.t * nat :=
  match count with
  | O => (entities, n)
  | S count =>
      let position :=
        Vector3.mk ((random n - 0.5) * terrainSize * 0.8)
                   (20 + random (n + 1)%nat * 80)
                   ((random (n + 2)%nat - 0.5) * terrainSize * 0.8) in
      let velocity :=
        Vector3.mk ((random (n + 3)%nat - 0.5) * 10)
                   ((random (n + 4)%nat - 0.5) * 5)
                   ((random (n + 5)%nat - 0.5) * 10) in
      let entity := Entity.new position (Some velocity) in
      createLoop terrainSize random count (n + 6)%nat (entities ++ [entity])
  end.

Definition createEntities (m : t) (count : nat) (random : nat -> R) (n : nat)
    : t * nat :=
  let '(entities, n) := createLoop (terrainSize m) random count n (entities m) in
  (createInstancedMesh
     (mk entities (movementFunction m) (perceptionRadius m) (instancedMesh m)
         (terrainSize m) (maxEntityPerception m)),
   n).

Definition closeRange : R := 20.

(** The [for] loop of [findNearbyEntities], from index [i] on. *)
Fixpoint scan (position : Vector3) (excludeIndex : nat) (perceptionRadius : R)
    (i : nat) (entities : list Entity.t)
    (closeNeighbors distantBirds : list NearbyEntity.t)
    : list NearbyEntity.t * list NearbyEntity.t :=
  match entities with
  | [] => (closeNeighbors, distantBirds)
  | otherEntity :: rest =>
      if decide (i = excludeIndex) then
        scan position excludeIndex perceptionRadius (S i) rest
             closeNeighbors distantBirds
      else
        let otherPosition := Entity.getPosition otherEntity in
        let distance := Vector3.distanceTo position otherPosition in
        if Rle_dec distance perceptionRadius then
          let nearbyEntity :=
            NearbyEntity.mk otherPosition (Entity.getVelocity otherEntity) distance in
          if Rle_dec distance closeRange then
            scan position excludeIndex perceptionRadius (S i) rest
                 (closeNeighbors ++ [nearbyEntity]) distantBirds
          else
            scan position excludeIndex perceptionRadius (S i) rest
                 closeNeighbors (distantBirds ++ [nearbyEntity])
        else
          scan position excludeIndex perceptionRadius (S i) rest
               closeNeighbors distantBirds
  end.

(** The comparator [(a, b) => a.distance - b.distance]. *)
Definition compareDistance (a b : NearbyEntity.t) : R :=
  NearbyEntity.distance a - NearbyEntity.distance b.

(** [Array.prototype.sort] is stable: elements that compare equal keep
    their order.  Insertion sort with the same comparator is the model. *)
Fixpoint insertBy {A : Type} (compare : A -> A -> R) (a : A) (sorted : list A)
    : list A :=
  match sorted with
  | [] => [a]
  | b :: rest =>
      if Rle_dec (compare a b) 0 then a :: b :: rest
      else b :: insertBy compare a rest
  end.

Fixpoint sort {A : Type} (compare : A -> A -> R) (array : list A) : list A :=
  match array with
  | [] => []
  | a :: rest => insertBy compare a (sort compare rest)
  end.

(** [array.slice(0, end)] for a non-negative integer [end]. *)
Definition slice0 {A : Type} (array : list A) (end_ : nat) : list A :=
  take end_ array.

Definition findNearbyEntities (m : t) (position : Vector3) (excludeIndex : nat)
    : list NearbyEntity.t :=
  let '(closeNeighbors, distantBirds) :=
    scan position excludeIndex (perceptionRadius m) 0 (entities m) [] [] in
  let closeNeighbors := sort compareDistance closeNeighbors in
  let distantBirds := sort compareDistance distantBirds in
  let maxCloseNeighbors := Nat.min (maxEntityPerception m) 7 in
  let allNearby := slice0 closeNeighbors maxCloseNeighbors in
  let remainingSlots := (maxEntityPerception m - length allNearby)%nat in
  if decide (0 < remainingSlots)%nat
  then allNearby ++ slice0 distantBirds remainingSlots
  else allNearby.

Definition getTerrainAhead (_position _velocity : Vector3) : list TerrainInfo.t :=
  let sampleCount := 5%nat in
  map (fun _ => TerrainInfo.mk 0 field (Vector3.mk 0 1 0)) (seq 1 sampleCount).

Definition withEntities (m : t) (entities : list Entity.t) : t :=
  mk entities (movementFunction m) (perceptionRadius m) (instancedMesh m)
     (terrainSize m) (maxEntityPerception m).

(** The callback of [this.entities.forEach] in [update]: it reads the
    entities as they are now, and replaces the entity at [index]. *)
Definition updateEntity (m : t) (deltaTime : R) (entities : list Entity.t)
    (index : nat) : list Entity.t :=
  match entities !! index with
  | None => entities
  | Some entity =>
      let state := Entity.getState entity in
      let nearbyEntities :=
        findNearbyEntities (withEntities m entities)
                           (EntityState.position state) index in
      let terrainAhead :=
        getTerrainAhead (EntityState.position state) (EntityState.velocity state) in
      let input := MovementInput.mk state nearbyEntities terrainAhead deltaTime in
      let output := movementFunction m input in
      let entity := Entity.update entity (MovementOutput.acceleration output) deltaTime in
      let entity :=
        match MovementOutput.shouldUpdateRandomVariables output with
        | Some newVariables => Entity.updateRandomVariables entity newVariables
        | None => entity
        end in
      <[index := entity]> entities
  end.

Definition update (m : t) (deltaTime : R) : t :=
  updateInstancedMesh
    (withEntities m (forEachIndex (updateEntity m deltaTime) (entities m))).

Definition getEntities (m : t) : list Entity.t := entities m.

Definition getEntityCount (m : t) : nat := length (entities m).

End EntityManager.

(** ** Definitions used to state the properties *)

#[local] Instance Rle_decision : RelDecision Rle := Rle_dec.
#[local] Instance Rlt_decision : RelDecision Rlt := Rlt_dec.

(** The entities as the [forEach] callback of index [i] finds them during
    [update]: the callbacks of the indices below [i] have run. *)
Definition entitiesBefore (m : EntityManager.t) (deltaTime : R) (i : nat)
    : list Entity.t :=
  foldl (EntityManager.updateEntity m deltaTime) (EntityManager.entities m) (seq 0 i).

(** The Integrator in the words of the specification (section 4.3): the new
    velocity and the new position. *)
Definition spec_integrate (v p a : Vector3) (deltaTime : R) : Vector3 * Vector3 :=
  let v' := Vector3.add v (Vector3.multiplyScalar a deltaTime) in
  let v' :=
    if Rgt_dec (Vector3.length v') Entity.maxSpeed
    then Vector3.multiplyScalar v' (Entity.maxSpeed / Vector3.length v')
    else v' in
  (v', Vector3.add p (Vector3.multiplyScalar v' deltaTime)).

(** The agents of a population with their indices. *)
Definition indexed (entities : list Entity.t) : list (nat * Entity.t) :=
  zip (seq 0 (length entities)) entities.

(** What an observer at [position] records of another agent. *)
Definition perceive (position : Vector3) (other : nat * Entity.t) : NearbyEntity.t :=
  NearbyEntity.mk (Entity.position other.2) (Entity.velocity other.2)
                  (Vector3.distanceTo position (Entity.position other.2)).

Definition distanceFrom (position : Vector3) (other : nat * Entity.t) : R :=
  Vector3.distanceTo position (Entity.position other.2).

(** The two tiers in the words of the specification (section 4.1): every
    other agent within the perception radius, at most [closeRange] away
    (close tier) or farther (outer tier). *)
Definition closeTier (m : EntityManager.t) (position : Vector3)
    (excludeIndex : nat) : list (nat * Entity.t) :=
  filter (fun other =>
            other.1 <> excludeIndex /\
            distanceFrom position other <= EntityManager.perceptionRadius m /\
            distanceFrom position other <= EntityManager.closeRange)
         (indexed (EntityManager.entities m)).

Definition outerTier (m : EntityManager.t) (position : Vector3)
    (excludeIndex : nat) : list (nat * Entity.t) :=
  filter (fun other =>
            other.1 <> excludeIndex /\
            distanceFrom position other <= EntityManager.perceptionRadius m /\
            EntityManager.closeRange < distanceFrom position other)
         (indexed (EntityManager.entities m)).

(** Ascending by distance from [position]. *)
Definition ascending (position : Vector3) (l : list (nat * Entity.t)) : Prop :=
  Sorted (fun a b => distanceFrom position a <= distanceFrom position b) l.

(** The orientation that [updateInstancedMesh] writes for an entity. *)
Definition renderedOrientation (entity : Entity.t) : Quaternion :=
  Matrix4.quaternion (EntityManager.instanceMatrix entity).

(** Modelled from the spec: [EntityManager.randomizeEntities], which
    [src/main.ts] calls for the randomize button, is not among the sources.
    Section 4.5: it re-applies the randomization of [createEntities] to the
    existing population, without changing the number of agents or any
    per-agent variable map.  [Entity.setPosition] and [Entity.setVelocity]
    are the setters the source provides for it. *)
Fixpoint randomizeLoop (terrainSize : R) (random : nat -> R) (n : nat)
    (entities : list Entity.t) : list Entity.t * nat :=
  match entities with
  | [] => ([], n)
  | entity :: rest =>
      let position :=
        Vector3.mk ((random n - 0.5) * terrainSize * 0.8)
                   (20 + random (n + 1)%nat * 80)
                   ((random (n + 2)%nat - 0.5) * terrainSize * 0.8) in
      let velocity :=
        Vector3.mk ((random (n + 3)%nat - 0.5) * 10)
                   ((random (n + 4)%nat - 0.5) * 5)
                   ((random (n + 5)%nat - 0.5) * 10) in
      let entity := Entity.setVelocity (Entity.setPosition entity position) velocity in
      let '(rest, n) := randomizeLoop terrainSize random (n + 6)%nat rest in
      (entity :: rest, n)
  end.

Definition randomizeEntities (m : EntityManager.t) (random : nat -> R) (n : nat)
    : EntityManager.t * nat :=
  let '(entities, n) :=
    randomizeLoop (EntityManager.terrainSize m) random n (EntityManager.entities m) in
  (EntityManager.updateInstancedMesh (EntityManager.withEntities m entities), n).

(** The ranges of section 4.5. *)
Definition withinSpawnArea (terrainSize : R) (e : Entity.t) : Prop :=
  - 0.4 * terrainSize <= Vector3.x (Entity.position e) <= 0.4 * terrainSize /\
  20 <= Vector3.y (Entity.position e) <= 100 /\
  - 0.4 * terrainSize <= Vector3.z (Entity.position e) <= 0.4 * terrainSize.

Definition withinSpawnVelocity (e : Entity.t) : Prop :=
  - 5 <= Vector3.x (Entity.velocity e) <= 5 /\
  - 2.5 <= Vector3.y (Entity.velocity e) <= 2.5 /\
  - 5 <= Vector3.z (Entity.velocity e) <= 5.

(** A policy that ignores its input. *)
Definition constantPolicy (a : Vector3) : EntityManager.MovementFunction :=
  fun _ => MovementOutput.mk a None.

(** An entity constructed with a speed of 100, as the constructor and
    [setVelocity] allow, in the array of a manager. *)
Definition fastEntity : Entity.t :=
  Entity.new (Vector3.mk 0 50 0) (Some (Vector3.mk 100 0 0)).

Definition fastManager : EntityManager.t :=
  EntityManager.mk [fastEntity] (constantPolicy (Vector3.mk 0 0 (-5))) 50 None 1000 7.

(** An entity flying at speed 1 whose policy brakes it to rest in one
    second, in a population whose instanced mesh has been created:
    [createEntities] returns this manager when [Math.random()] returns the
    numbers of [brakingRandom]. *)
Definition brakingEntity : Entity.t :=
  Entity.new (Vector3.mk 0 50 0) (Some (Vector3.mk 1 0 0)).

Definition brakingManager : EntityManager.t :=
  EntityManager.createInstancedMesh
    (EntityManager.mk [brakingEntity] (constantPolicy (Vector3.mk (-1) 0 0))
                      50 None 1000 7).

(** ** Object identity

    The definitions above treat vectors and maps as values.  In the source
    they are mutable objects, and what the movement function receives are
    references.  This module repeats the construction of a [MovementInput]
    over a store of objects, so that sharing between the input and the
    entities can be stated: an entity holds references to its position,
    velocity and variable map, [clone()] and [new Map(...)] allocate. *)

Module Heap.

Abbreviation ref := positive.

Inductive object : Type :=
  | Vector3Object (v : Vector3)
  | MapObject (variables : gmap string R).

Abbreviation heap := (gmap ref object).

Definition alloc (o : object) (h : heap) : ref * heap :=
  let r := fresh (dom h) in (r, <[r := o]> h).

Definition vectorAt (h : heap) (r : ref) : Vector3 :=
  match h !! r with
  | Some (Vector3Object v) => v
  | _ => Vector3.mk 0 0 0
  end.

Definition mapAt (h : heap) (r : ref) : gmap string R :=
  match h !! r with
  | Some (MapObject variables) => variables
  | _ => ∅
  end.

(** [v.clone()] *)
Definition clone (r : ref) (h : heap) : ref * heap :=
  alloc (Vector3Object (vectorAt h r)) h.

(** [new Map(m)] *)
Definition newMap (r : ref) (h : heap) : ref * heap :=
  alloc (MapObject (mapAt h r)) h.

(** The fields of an [Entity] that hold state (the mesh is left out). *)
Module Entity.
Record t : Type := mk {
  position : ref;
  velocity : ref;
  randomVariables : ref
}.
End Entity.

Module EntityState.
Record t : Type := mk {
  position : ref;
  velocity : ref;
  randomVariables : ref
}.
End EntityState.

Module NearbyEntity.
Record t : Type := mk {
  position : ref;
  velocity : ref;
  distance : R
}.
End NearbyEntity.

Module TerrainInfo.
Record t : Type := mk {
  height : R;
  type : SurfaceType;
  normal : ref
}.
End TerrainInfo.

Module MovementInput.
Record t : Type := mk {
  currentState : EntityState.t;
  nearbyEntities : list NearbyEntity.t;
  terrainAhead : list TerrainInfo.t;
  deltaTime : R
}.
End MovementInput.

Definition getState (e : Entity.t) (h : heap) : EntityState.t * heap :=
  let '(position, h) := clone (Entity.position e) h in
  let '(velocity, h) := clone (Entity.velocity e) h in
  let '(randomVariables, h) := newMap (Entity.randomVariables e) h in
  (EntityState.mk position velocity randomVariables, h).

Definition getPosition (e : Entity.t) (h : heap) : ref * heap :=
  clone (Entity.position e) h.

Definition getVelocity (e : Entity.t) (h : heap) : ref * heap :=
  clone (Entity.velocity e) h.

Fixpoint scan (position : ref) (excludeIndex : nat) (perceptionRadius : R)
    (i : nat) (entities : list Entity.t)
    (closeNeighbors distantBirds : list NearbyEntity.t) (h : heap)
    : list NearbyEntity.t * list NearbyEntity.t * heap :=
  match entities with
  | [] => (closeNeighbors, distantBirds, h)
  | otherEntity :: rest =>
      if decide (i = excludeIndex) then
        scan position excludeIndex perceptionRadius (S i) rest
             closeNeighbors distantBirds h
      else
        let '(otherPosition, h) := getPosition otherEntity h in
        let distance :=
          Vector3.distanceTo (vectorAt h position) (vectorAt h otherPosition) in
        if Rle_dec distance perceptionRadius then
          let '(otherVelocity, h) := getVelocity otherEntity h in
          let nearbyEntity := NearbyEntity.mk otherPosition otherVelocity distance in
          if Rle_dec distance EntityManager.closeRange then
            scan position excludeIndex perceptionRadius (S i) rest
                 (closeNeighbors ++ [nearbyEntity]) distantBirds h
          else
            scan position excludeIndex perceptionRadius (S i) rest
                 closeNeighbors (distantBirds ++ [nearbyEntity]) h
        else
          scan position excludeIndex perceptionRadius (S i) rest
               closeNeighbors distantBirds h
  end.

Definition compareDistance (a b : NearbyEntity.t) : R :=
  NearbyEntity.distance a - NearbyEntity.distance b.

Definition findNearbyEntities (entities : list Entity.t) (perceptionRadius : R)
    (maxEntityPerception : nat) (position : ref) (excludeIndex : nat) (h : heap)
    : list NearbyEntity.t * heap :=
  let '(closeNeighbors, distantBirds, h) :=
    scan position excludeIndex perceptionRadius 0 entities [] [] h in
  let closeNeighbors := EntityManager.sort compareDistance closeNeighbors in
  let distantBirds := EntityManager.sort compareDistance distantBirds in
  let maxCloseNeighbors := Nat.min maxEntityPerception 7 in
  let allNearby := EntityManager.slice0 closeNeighbors maxCloseNeighbors in
  let remainingSlots := (maxEntityPerception - length allNearby)%nat in
  (if decide (0 < remainingSlots)%nat
   then allNearby ++ EntityManager.slice0 distantBirds remainingSlots
   else allNearby,
   h).

Fixpoint terrainSamples (sampleCount : nat) (h : heap) : list TerrainInfo.t * heap :=
  match sampleCount with
  | O => ([], h)
  | S sampleCount =>
      let '(normal, h) := alloc (Vector3Object (Vector3.mk 0 1 0)) h in
      let '(rest, h) := terrainSamples sampleCount h in
      (TerrainInfo.mk 0 field normal :: rest, h)
  end.

Definition getTerrainAhead (_position _velocity : ref) (h : heap)
    : list TerrainInfo.t * heap :=
  terrainSamples 5 h.

(** The [MovementInput] that [EntityManager.update] builds for the entity
    at [index]. *)
Definition movementInput (entities : list Entity.t) (perceptionRadius : R)
    (maxEntityPerception : nat) (entity : Entity.t) (index : nat)
    (deltaTime : R) (h : heap) : MovementInput.t * heap :=
  let '(state, h) := getState entity h in
  let '(nearbyEntities, h) :=
    findNearbyEntities entities perceptionRadius maxEntityPerception
                       (EntityState.position state) index h in
  let '(terrainAhead, h) :=
    getTerrainAhead (EntityState.position state) (EntityState.velocity state) h in
  (MovementInput.mk state nearbyEntities terrainAhead deltaTime, h).

(** Every object that can be reached from a [MovementInput]. *)
Definition reachable (input : MovementInput.t) : list ref :=
  let state := MovementInput.currentState input in
  [EntityState.position state; EntityState.velocity state;
   EntityState.randomVariables state]
  ++ (MovementInput.nearbyEntities input ≫=
        fun nearby => [NearbyEntity.position nearby; NearbyEntity.velocity nearby])
  ++ (TerrainInfo.normal <$> MovementInput.terrainAhead input).

(** The stored state of an entity: the contents of its three objects. *)
Definition stored (h : heap) (e : Entity.t)
    : Vector3 * Vector3 * gmap string R :=
  (vectorAt h (Entity.position e), vectorAt h (Entity.velocity e),
   mapAt h (Entity.randomVariables e)).

(** The entity's objects exist in [h]. *)
Definition allocated (h : heap) (e : Entity.t) : Prop :=
  Entity.position e ∈ dom h /\ Entity.velocity e ∈ dom h /\
  Entity.randomVariables e ∈ dom h.

(** What a callee that was handed [input] in the store [h] may have done:
    it can have changed the objects reachable from [input] and allocated
    new ones; every other object of [h] is as it was. *)
Definition mutatedThrough (input : MovementInput.t) (h h' : heap) : Prop :=
  forall r : ref, r ∈ dom h -> r ∉ reachable input -> h' !! r = h !! r.

End Heap.

(** The values that references stand for in a store: how the definitions of
    [Heap] are read back into the value-level types. *)
Definition represents (h : Heap.heap) (r : Heap.Entity.t) (e : Entity.t) : Prop :=
  Heap.allocated h r /\
  Entity.position e = Heap.vectorAt h (Heap.Entity.position r) /\
  Entity.velocity e = Heap.vectorAt h (Heap.Entity.velocity r) /\
  Entity.randomVariables e = Heap.mapAt h (Heap.Entity.randomVariables r).

Definition stateValue (h : Heap.heap) (s : Heap.EntityState.t) : EntityState.t :=
  EntityState.mk (Heap.vectorAt h (Heap.EntityState.position s))
                 (Heap.vectorAt h (Heap.EntityState.velocity s))
                 (Heap.mapAt h (Heap.EntityState.randomVariables s)).

Definition nearbyValue (h : Heap.heap) (n : Heap.NearbyEntity.t) : NearbyEntity.t :=
  NearbyEntity.mk (Heap.vectorAt h (Heap.NearbyEntity.position n))
                  (Heap.vectorAt h (Heap.NearbyEntity.velocity n))
                  (Heap.NearbyEntity.distance n).

Definition terrainValue (h : Heap.heap) (t : Heap.TerrainInfo.t) : TerrainInfo.t :=
  TerrainInfo.mk (Heap.TerrainInfo.height t) (Heap.TerrainInfo.type t)
                 (Heap.vectorAt h (Heap.TerrainInfo.normal t)).

Definition inputValue (h : Heap.heap) (input : Heap.MovementInput.t) : MovementInput.t :=
  MovementInput.mk
    (stateValue h (Heap.MovementInput.currentState input))
    (nearbyValue h <$> Heap.MovementInput.nearbyEntities input)
    (terrainValue h <$> Heap.MovementInput.terrainAhead input)
    (Heap.MovementInput.deltaTime input).

(** The references of a [NearbyEntity] are not objects of [h], or are. *)
Definition freshNearby (h : Heap.heap) (n : Heap.NearbyEntity.t) : Prop :=
  (Heap.NearbyEntity.position n ∉ dom h) /\ (Heap.NearbyEntity.velocity n ∉ dom h).

Definition nearbyAllocated (h : Heap.heap) (n : Heap.NearbyEntity.t) : Prop :=
  (Heap.NearbyEntity.position n ∈ dom h) /\ (Heap.NearbyEntity.velocity n ∈ dom h).

Definition brakingRandom (n : nat) : R :=
  match n with
  | 1%nat => 0.375
  | 3%nat => 0.6
  | _ => 0.5
  end.

(** [brakingEntity] as three objects of a store. *)
Definition brakingRef : Heap.Entity.t := Heap.Entity.mk 1 2 3.

Definition brakingHeap : Heap.heap :=
  {[ 1%positive := Heap.Vector3Object (Vector3.mk 0 50 0);
     2%positive := Heap.Vector3Object (Vector3.mk 1 0 0);
     3%positive := Heap.MapObject ∅ ]}.

(** A manager without entities on the terrain of [src/main.ts], and a
    random source that always returns one half. *)
Definition emptyManager : EntityManager.t :=
  EntityManager.new (constantPolicy (Vector3.mk 0 0 0)) 50 7 1000.

Definition halfRandom : nat -> R := fun _ => 0.5.

(** Five agents at rest on the x axis, at 3, 1, 0, 25 and 60 in this order,
    perceived within a radius of 50 with a cap of [K]. *)
Definition lineEntity (c : R) : Entity.t := Entity.new (Vector3.mk c 0 0) None.

Definition lineManager (K : nat) : EntityManager.t :=
  EntityManager.mk
    [lineEntity 3; lineEntity 1; lineEntity 0; lineEntity 25; lineEntity 60]
    (constantPolicy (Vector3.mk 0 0 0)) 50 None 1000 K.

Definition lineNearby (c : R) : NearbyEntity.t :=
  NearbyEntity.mk (Vector3.mk c 0 0) (Vector3.mk 0 0 0) c.

(** ** [src/entities/movementFunction.ts]

    The template that the project ships for the movement function. *)

Module MovementFunction.

Definition calculateMovement (_input : MovementInput.t) : MovementOutput.t :=
  let acceleration := Vector3.mk 0 0 0 in
  MovementOutput.mk acceleration None.

End MovementFunction.

(** ** Further definitions used to state properties *)

(** The instanced mesh holds, for every entity, the matrix computed from
    it. *)
Definition meshInSync (m : EntityManager.t) : Prop :=
  EntityManager.instancedMesh m =
  Some ((fun e => Some (EntityManager.instanceMatrix e)) <$> EntityManager.entities m).

(** Non-decreasing distances in a result of [findNearbyEntities]. *)
Definition nearestFirst (l : list NearbyEntity.t) : Prop :=
  Sorted (fun a b => NearbyEntity.distance a <= NearbyEntity.distance b) l.

(** ** [src/entities/movementFunction.example.ts]

    The flocking movement function that [src/main.ts] hands to the
    simulation.  [flockingParams] is a mutable object that the sliders
    write to, so the function takes the parameters as they are when it is
    called.  The function accumulates into [acceleration] block by block;
    every block is a definition that takes the acceleration so far. *)

Module FlockingParams.
Record t : Type := mk {
  perceptionRadius : R;
  maxEntityPerception : nat;
  separationDistance : R;
  separationStrength : R;
  alignmentStrength : R;
  cohesionStrength : R;
  longRangeStrength : R;
  minHeight : R;
  maxHeight : R;
  targetHeight : R;
  forwardSpeed : R;
  boundaryTurnStrength : R
}.
End FlockingParams.

Module MovementFunctionExample.

Definition flockingParams : FlockingParams.t :=
  FlockingParams.mk 100 30 3 15 1.5 1.2 5 0 100 50 5 20.

(** Separation: avoid nearby entities. *)
Definition separationForce (params : FlockingParams.t) (position : Vector3)
    (nearbyEntities : list NearbyEntity.t) : Vector3 :=
  foldl (fun separationForce nearby =>
           if Rlt_dec (NearbyEntity.distance nearby)
                      (FlockingParams.separationDistance params)
           then
             if Rgt_dec (NearbyEntity.distance nearby) 0 then
               let away := Vector3.sub position (NearbyEntity.position nearby) in
               let away := Vector3.normalize away in
               let away := Vector3.divideScalar away (NearbyEntity.distance nearby) in
               Vector3.add separationForce away
             else separationForce
           else separationForce)
        (Vector3.mk 0 0 0) nearbyEntities.

Definition addSeparation (params : FlockingParams.t) (position : Vector3)
    (nearbyEntities : list NearbyEntity.t) (acceleration : Vector3) : Vector3 :=
  let separationForce := separationForce params position nearbyEntities in
  if Rgt_dec (Vector3.length separationForce) 0 then
    Vector3.add acceleration
      (Vector3.multiplyScalar (Vector3.normalize separationForce)
                              (FlockingParams.separationStrength params))
  else acceleration.

(** The two weighted sums of the alignment and the cohesion block: [pick]
    is the velocity or the position of a neighbour. *)
Definition weightedSum (pick : NearbyEntity.t -> Vector3)
    (nearbyEntities : list NearbyEntity.t) : Vector3 * R :=
  foldl (fun '(sum, totalWeight) nearby =>
           let weight := 1 / (NearbyEntity.distance nearby + 1) in
           (Vector3.add sum (Vector3.multiplyScalar (pick nearby) weight),
            totalWeight + weight))
        (Vector3.mk 0 0 0, 0) nearbyEntities.

(** Alignment: match velocity with neighbours, weighted by distance. *)
Definition addAlignment (params : FlockingParams.t) (velocity : Vector3)
    (nearbyEntities : list NearbyEntity.t) (acceleration : Vector3) : Vector3 :=
  if decide (0 < length nearbyEntities)%nat then
    let '(averageVelocity, totalWeight) :=
      weightedSum NearbyEntity.velocity nearbyEntities in
    if Rgt_dec totalWeight 0 then
      let averageVelocity := Vector3.divideScalar averageVelocity totalWeight in
      let alignmentForce :=
        Vector3.multiplyScalar (Vector3.sub averageVelocity velocity)
                               (FlockingParams.alignmentStrength params) in
      Vector3.add acceleration alignmentForce
    else acceleration
  else acceleration.

(** Cohesion: move towards the centre of the neighbours, weighted by
    distance. *)
Definition addCohesion (params : FlockingParams.t) (position : Vector3)
    (nearbyEntities : list NearbyEntity.t) (acceleration : Vector3) : Vector3 :=
  if decide (0 < length nearbyEntities)%nat then
    let '(centerOfMass, totalWeight) :=
      weightedSum NearbyEntity.position nearbyEntities in
    if Rgt_dec totalWeight 0 then
      let centerOfMass := Vector3.divideScalar centerOfMass totalWeight in
      let cohesionForce :=
        Vector3.multiplyScalar (Vector3.sub centerOfMass position)
                               (FlockingParams.cohesionStrength params) in
      Vector3.add acceleration cohesionForce
    else acceleration
  else acceleration.

(** Long-range attraction: pull towards birds between 20 and 80 away. *)
Definition longRangeForce (params : FlockingParams.t) (position : Vector3)
    (nearbyEntities : list NearbyEntity.t) : Vector3 :=
  foldl (fun longRangeForce nearby =>
           if Rgt_dec (NearbyEntity.distance nearby) 20 then
             if Rlt_dec (NearbyEntity.distance nearby) 80 then
               let attraction := Vector3.sub (NearbyEntity.position nearby) position in
               let strength := (80 - NearbyEntity.distance nearby) / 60 in
               let attraction :=
                 Vector3.multiplyScalar (Vector3.normalize attraction)
                   (strength * FlockingParams.longRangeStrength params) in
               Vector3.add longRangeForce attraction
             else longRangeForce
           else longRangeForce)
        (Vector3.mk 0 0 0) nearbyEntities.

Definition addLongRange (params : FlockingParams.t) (position : Vector3)
    (nearbyEntities : list NearbyEntity.t) (acceleration : Vector3) : Vector3 :=
  if decide (0 < length nearbyEntities)%nat then
    Vector3.add acceleration (longRangeForce params position nearbyEntities)
  else acceleration.

(** Height maintenance. *)
Definition addHeight (params : FlockingParams.t) (position velocity : Vector3)
    (acceleration : Vector3) : Vector3 :=
  let groundBuffer := 5 in
  if Rlt_dec (Vector3.y position) (FlockingParams.minHeight params + groundBuffer) then
    let distanceFromMin := Vector3.y position - FlockingParams.minHeight params in
    let urgency := Rmax 0 (1 - distanceFromMin / groundBuffer) in
    let strongUpwardForce := 50 + urgency * 100 in
    let acceleration :=
      Vector3.add acceleration (Vector3.mk 0 strongUpwardForce 0) in
    if Rlt_dec (Vector3.y velocity) 0 then
      Vector3.add acceleration (Vector3.mk 0 (- Vector3.y velocity * 5) 0)
    else acceleration
  else if Rgt_dec (Vector3.y position) (FlockingParams.maxHeight params) then
    Vector3.add acceleration (Vector3.mk 0 (-10) 0)
  else if Rgt_dec (Rabs (Vector3.y position - FlockingParams.targetHeight params)) 5 then
    let heightCorrection :=
      (FlockingParams.targetHeight params - Vector3.y position) * 0.5 in
    Vector3.add acceleration (Vector3.mk 0 heightCorrection 0)
  else acceleration.

(** Forward movement: maintain some forward speed. *)
Definition addForward (params : FlockingParams.t) (velocity : Vector3)
    (acceleration : Vector3) : Vector3 :=
  if Rlt_dec (Vector3.length velocity) 10 then
    let currentDirection :=
      if Rgt_dec (Vector3.length velocity) 0
      then Vector3.normalize velocity
      else Vector3.mk 1 0 0 in
    Vector3.add acceleration
      (Vector3.multiplyScalar currentDirection (FlockingParams.forwardSpeed params))
  else acceleration.

(** Boundary avoidance: turn away from the terrain edges. *)
Definition addBoundary (params : FlockingParams.t) (position : Vector3)
    (acceleration : Vector3) : Vector3 :=
  let boundaryDistance := 100 in
  let terrainSize := 1000 in
  let halfSize := terrainSize / 2 in
  let distanceFromEdgeX := halfSize - Rabs (Vector3.x position) in
  let distanceFromEdgeZ := halfSize - Rabs (Vector3.z position) in
  let acceleration :=
    if Rlt_dec distanceFromEdgeX boundaryDistance then
      let urgency := 1 - distanceFromEdgeX / boundaryDistance in
      let turnForce :=
        (if Rgt_dec (Vector3.x position) 0 then -1 else 1) * urgency *
        FlockingParams.boundaryTurnStrength params in
      Vector3.add acceleration (Vector3.mk turnForce 0 0)
    else acceleration in
  if Rlt_dec distanceFromEdgeZ boundaryDistance then
    let urgency := 1 - distanceFromEdgeZ / boundaryDistance in
    let turnForce :=
      (if Rgt_dec (Vector3.z position) 0 then -1 else 1) * urgency *
      FlockingParams.boundaryTurnStrength params in
    Vector3.add acceleration (Vector3.mk 0 0 turnForce)
  else acceleration.

(** The optional update of the random variables; [random] and [n] are the
    source of [Math.random()] and the number of calls made so far. *)
Definition randomVariablesUpdate (random : nat -> R) (n : nat)
    : option (gmap string R) * nat :=
  if Rlt_dec (random n) 0.01 then
    (Some {[ "randomTurn"%string := (random (n + 1)%nat - 0.5) * 2;
             "randomSpeed"%string := random (n + 2)%nat ]},
     (n + 3)%nat)
  else (None, (n + 1)%nat).

Definition calculateMovement (params : FlockingParams.t) (random : nat -> R)
    (n : nat) (input : MovementInput.t) : MovementOutput.t * nat :=
  let acceleration := Vector3.mk 0 0 0 in
  let currentState := MovementInput.currentState input in
  let nearbyEntities := MovementInput.nearbyEntities input in
  let position := EntityState.position currentState in
  let velocity := EntityState.velocity currentState in
  let acceleration := addSeparation params position nearbyEntities acceleration in
  let acceleration := addAlignment params velocity nearbyEntities acceleration in
  let acceleration := addCohesion params position nearbyEntities acceleration in
  let acceleration := addLongRange params position nearbyEntities acceleration in
  let acceleration := addHeight params position velocity acceleration in
  let acceleration := addForward params velocity acceleration in
  let acceleration := addBoundary params position acceleration in
  let '(shouldUpdateRandomVariables, n) := randomVariablesUpdate random n in
  (MovementOutput.mk acceleration shouldUpdateRandomVariables, n).

End MovementFunctionExample.


(** ** [src/camera/CameraController.ts]

    The controller keeps the camera on a sphere around a target.  The
    camera's position is part of the model; its orientation, which
    [lookAt] sets and [getWorldDirection] reads back, is not: the world
    direction is an input of the pan. *)

Module Spherical.
Record t : Type := mk { radius : R; phi : R; theta : R }.
End Spherical.

Module MouseEvent.
Record t : Type := mk { button : Z; clientX : R; clientY : R }.
End MouseEvent.

Module WheelEvent.
Record t : Type := mk { deltaY : R }.
End WheelEvent.

Module CameraController.

Record t : Type := mk {
  cameraPosition : Vector3;
  isRightMouseDown : bool;
  isMiddleMouseDown : bool;
  lastMouseX : R;
  lastMouseY : R;
  spherical : Spherical.t;
  target : Vector3
}.

Definition rotationSpeed : R := 0.005.
Definition panSpeed : R := 0.5.
Definition zoomSpeed : R := 50.
Definition minDistance : R := 50.
Definition maxDistance : R := 1500.

(** [camera.up]: three.js's default, which nothing in the repository
    changes. *)
Definition cameraUp : Vector3 := Vector3.mk 0 1 0.

(** [new THREE.Vector3().setFromSpherical(s)] *)
Definition setFromSpherical (s : Spherical.t) : Vector3 :=
  Vector3.setFromSphericalCoords (Spherical.radius s) (Spherical.phi s)
                                 (Spherical.theta s).

Definition updateCameraPosition (c : t) : t :=
  let position := setFromSpherical (spherical c) in
  let position := Vector3.add position (target c) in
  mk position (isRightMouseDown c) (isMiddleMouseDown c)
     (lastMouseX c) (lastMouseY c) (spherical c) (target c).

(** The constructor; [camera] is the position of the camera it is given. *)
Definition new (camera : Vector3) : t :=
  updateCameraPosition
    (mk camera false false 0 0 (Spherical.mk 500 (PI / 3) 0) (Vector3.mk 0 0 0)).

Definition onMouseDown (event : MouseEvent.t) (c : t) : t :=
  let isRightMouseDown :=
    if (MouseEvent.button event =? 2)%Z then true else isRightMouseDown c in
  let isMiddleMouseDown :=
    if (MouseEvent.button event =? 2)%Z then isMiddleMouseDown c
    else if (MouseEvent.button event =? 1)%Z then true
    else isMiddleMouseDown c in
  mk (cameraPosition c) isRightMouseDown isMiddleMouseDown
     (MouseEvent.clientX event) (MouseEvent.clientY event)
     (spherical c) (target c).

Definition rotate (deltaX deltaY : R) (c : t) : t :=
  let theta := Spherical.theta (spherical c) - deltaX * rotationSpeed in
  let phi := Spherical.phi (spherical c) - deltaY * rotationSpeed in
  let phi := Rmax 0.1 (Rmin (PI - 0.1) phi) in
  updateCameraPosition
    (mk (cameraPosition c) (isRightMouseDown c) (isMiddleMouseDown c)
        (lastMouseX c) (lastMouseY c)
        (Spherical.mk (Spherical.radius (spherical c)) phi theta)
        (target c)).

(** [direction] is what [camera.getWorldDirection] reports. *)
Definition pan (direction : Vector3) (deltaX deltaY : R) (c : t) : t :=
  let right := Vector3.normalize (Vector3.crossVectors direction cameraUp) in
  let up := Vector3.mk 0 1 0 in
  let distance := Spherical.radius (spherical c) in
  let panFactor := panSpeed * distance * 0.001 in
  let target :=
    Vector3.add (target c) (Vector3.multiplyScalar right (- deltaX * panFactor)) in
  let target :=
    Vector3.add target (Vector3.multiplyScalar up (deltaY * panFactor)) in
  updateCameraPosition
    (mk (cameraPosition c) (isRightMouseDown c) (isMiddleMouseDown c)
        (lastMouseX c) (lastMouseY c) (spherical c) target).

Definition zoom (delta : R) (c : t) : t :=
  let radius := Spherical.radius (spherical c) + delta * zoomSpeed * 0.01 in
  let radius := Rmax minDistance (Rmin maxDistance radius) in
  updateCameraPosition
    (mk (cameraPosition c) (isRightMouseDown c) (isMiddleMouseDown c)
        (lastMouseX c) (lastMouseY c)
        (Spherical.mk radius (Spherical.phi (spherical c))
                      (Spherical.theta (spherical c)))
        (target c)).

Definition onMouseMove (direction : Vector3) (event : MouseEvent.t) (c : t) : t :=
  let deltaX := MouseEvent.clientX event - lastMouseX c in
  let deltaY := MouseEvent.clientY event - lastMouseY c in
  let c :=
    if isRightMouseDown c then rotate deltaX deltaY c
    else if isMiddleMouseDown c then pan direction deltaX deltaY c
    else c in
  mk (cameraPosition c) (isRightMouseDown c) (isMiddleMouseDown c)
     (MouseEvent.clientX event) (MouseEvent.clientY event)
     (spherical c) (target c).

Definition onMouseUp (event : MouseEvent.t) (c : t) : t :=
  let isRightMouseDown :=
    if (MouseEvent.button event =? 2)%Z then false else isRightMouseDown c in
  let isMiddleMouseDown :=
    if (MouseEvent.button event =? 2)%Z then isMiddleMouseDown c
    else if (MouseEvent.button event =? 1)%Z then false
    else isMiddleMouseDown c in
  mk (cameraPosition c) isRightMouseDown isMiddleMouseDown
     (lastMouseX c) (lastMouseY c) (spherical c) (target c).

Definition onWheel (event : WheelEvent.t) (c : t) : t :=
  let delta := WheelEvent.deltaY event in
  zoom delta c.

Definition setTarget (target : Vector3) (c : t) : t :=
  updateCameraPosition
    (mk (cameraPosition c) (isRightMouseDown c) (isMiddleMouseDown c)
        (lastMouseX c) (lastMouseY c) (spherical c) target).

Definition getTarget (c : t) : Vector3 := target c.

(** What reaches the controller after its constructor: the four events
    that [setupEventListeners] subscribes to, and calls of [setTarget].  A
    mouse move comes with the camera's world direction at that time. *)
Inductive Event : Type :=
| MouseDown (event : MouseEvent.t)
| MouseMove (direction : Vector3) (event : MouseEvent.t)
| MouseUp (event : MouseEvent.t)
| Wheel (event : WheelEvent.t)
| SetTarget (target : Vector3).

Definition handle (c : t) (e : Event) : t :=
  match e with
  | MouseDown event => onMouseDown event c
  | MouseMove direction event => onMouseMove direction event c
  | MouseUp event => onMouseUp event c
  | Wheel event => onWheel event c
  | SetTarget target => setTarget target c
  end.

Definition run (events : list Event) (c : t) : t := foldl handle c events.

(** *** Listeners

    The listeners of the DOM element, each an event type and the identity
    of its callback, and the number [n] of function objects created so
    far.  [Function.prototype.bind] and an arrow function expression create
    a new function object each time they are evaluated. *)

Definition bind (n : nat) : nat * nat := (n, S n).

Definition addEventListener (type : string) (callback : nat)
    (listeners : list (string * nat)) : list (string * nat) :=
  if decide ((type, callback) ∈ listeners) then listeners
  else listeners ++ [(type, callback)].

Definition removeEventListener (type : string) (callback : nat)
    (listeners : list (string * nat)) : list (string * nat) :=
  filter (fun l => l <> (type, callback)) listeners.

Definition setupEventListeners (listeners : list (string * nat)) (n : nat)
    : list (string * nat) * nat :=
  let '(onMouseDown, n) := bind n in
  let listeners := addEventListener "mousedown" onMouseDown listeners in
  let '(onMouseMove, n) := bind n in
  let listeners := addEventListener "mousemove" onMouseMove listeners in
  let '(onMouseUp, n) := bind n in
  let listeners := addEventListener "mouseup" onMouseUp listeners in
  let '(onWheel, n) := bind n in
  let listeners := addEventListener "wheel" onWheel listeners in
  let '(preventDefault, n) := (n, S n) in
  let listeners := addEventListener "contextmenu" preventDefault listeners in
  (listeners, n).

Definition dispose (listeners : list (string * nat)) (n : nat)
    : list (string * nat) * nat :=
  let '(onMouseDown, n) := bind n in
  let listeners := removeEventListener "mousedown" onMouseDown listeners in
  let '(onMouseMove, n) := bind n in
  let listeners := removeEventListener "mousemove" onMouseMove listeners in
  let '(onMouseUp, n) := bind n in
  let listeners := removeEventListener "mouseup" onMouseUp listeners in
  let '(onWheel, n) := bind n in
  let listeners := removeEventListener "wheel" onWheel listeners in
  (listeners, n).

End CameraController.

(** The camera sits on the sphere that [spherical] describes around the
    target, within the limits of the controller. *)
Definition cameraInRange (c : CameraController.t) : Prop :=
  CameraController.minDistance <=
    Spherical.radius (CameraController.spherical c) <=
    CameraController.maxDistance /\
  0.1 <= Spherical.phi (CameraController.spherical c) <= PI - 0.1 /\
  CameraController.cameraPosition c =
  Vector3.add (CameraController.setFromSpherical (CameraController.spherical c))
              (CameraController.target c).

(** An event that no handler of the controller reacts to, other than by
    recording the mouse position: a move, a release, or a press of a button
    other than the middle (1) and the right (2) one. *)
Definition idleEvent (e : CameraController.Event) : Prop :=
  match e with
  | CameraController.MouseDown event =>
      MouseEvent.button event <> 1%Z /\ MouseEvent.button event <> 2%Z
  | CameraController.MouseMove _ _ | CameraController.MouseUp _ => True
  | CameraController.Wheel _ | CameraController.SetTarget _ => False
  end.

(** Every registered callback was created before the [n]-th function
    object. *)
Definition createdBefore (n : nat) (listeners : list (string * nat)) : Prop :=
  Forall (fun l => (l.2 < n)%nat) listeners.

(** ** [src/terrain/TerrainGenerator.ts]

    Of a mesh the model keeps its geometry's size and where it is put; of
    an instanced mesh the position written into each instance's matrix,
    with [None] for an instance that was never written.  As for the
    entities, [random n] is the [n]-th result of [Math.random()] among the
    calls of the generator itself; the calls that the three.js
    constructors make in between are not counted. *)

Module TerrainMesh.
Inductive t : Type :=
| Plane (size : R) (hue : R) (position : Vector3)
| Circle (radius : R) (position : Vector3)
| Instanced (positions : list (option Vector3)).
End TerrainMesh.

Module TerrainFeature.
Record t : Type := mk {
  type : SurfaceType;
  position : Vector3;
  mesh : TerrainMesh.t
}.
End TerrainFeature.

Module TerrainGenerator.

Record t : Type := mk {
  terrainSize : R;
  features : list TerrainFeature.t
}.

Definition new (terrainSize : R) : t := mk terrainSize [].

Fixpoint fieldsLoop (terrainSize : R) (random : nat -> R) (count : nat)
    (n : nat) (features : list TerrainFeature.t)
    : list TerrainFeature.t * nat :=
  match count with
  | O => (features, n)
  | S count =>
      let size := 50 + random n * 100 in
      let x := (random (n + 1)%nat - 0.5) * (terrainSize - size) in
      let z := (random (n + 2)%nat - 0.5) * (terrainSize - size) in
      let hue := 0.15 + random (n + 3)%nat * 0.1 in
      let mesh := TerrainMesh.Plane size hue (Vector3.mk x 0.1 z) in
      fieldsLoop terrainSize random count (n + 4)%nat
        (features ++ [TerrainFeature.mk field (Vector3.mk x 0 z) mesh])
  end.

Definition generateFields (g : t) (random : nat -> R) (n : nat) : t * nat :=
  let fieldCount := 15%nat in
  let '(features, n) :=
    fieldsLoop (terrainSize g) random fieldCount n (features g) in
  (mk (terrainSize g) features, n).

Fixpoint lakesLoop (terrainSize : R) (random : nat -> R) (count : nat)
    (n : nat) (features : list TerrainFeature.t)
    : list TerrainFeature.t * nat :=
  match count with
  | O => (features, n)
  | S count =>
      let radius := 20 + random n * 30 in
      let x := (random (n + 1)%nat - 0.5) * (terrainSize - radius * 2) in
      let z := (random (n + 2)%nat - 0.5) * (terrainSize - radius * 2) in
      let mesh := TerrainMesh.Circle radius (Vector3.mk x 0.2 z) in
      lakesLoop terrainSize random count (n + 3)%nat
        (features ++ [TerrainFeature.mk lake (Vector3.mk x 0 z) mesh])
  end.

Definition generateLakes (g : t) (random : nat -> R) (n : nat) : t * nat :=
  let lakeCount := 5%nat in
  let '(features, n) :=
    lakesLoop (terrainSize g) random lakeCount n (features g) in
  (mk (terrainSize g) features, n).

(** The inner loop of [generateHedgerows]: [count] segments are still to
    be written, [j] is the loop variable, [index] the running instance
    index. *)
Fixpoint segmentsLoop (segmentsPerHedgerow : nat) (startX startZ angle length : R)
    (count j index : nat) (positions : list (option Vector3))
    : list (option Vector3) * nat :=
  match count with
  | O => (positions, index)
  | S count =>
      let t := INR j / INR segmentsPerHedgerow in
      let x := startX + cos angle * length * t in
      let z := startZ + sin angle * length * t in
      segmentsLoop segmentsPerHedgerow startX startZ angle length count (S j)
        (S index) (<[index := Some (Vector3.mk x 1.5 z)]> positions)
  end.

Fixpoint hedgerowsLoop (terrainSize : R) (random : nat -> R)
    (segmentsPerHedgerow : nat) (count : nat) (n index : nat)
    (positions : list (option Vector3)) : list (option Vector3) * nat * nat :=
  match count with
  | O => (positions, index, n)
  | S count =>
      let startX := (random n - 0.5) * terrainSize * 0.8 in
      let startZ := (random (n + 1)%nat - 0.5) * terrainSize * 0.8 in
      let angle := random (n + 2)%nat * PI * 2 in
      let length := 50 + random (n + 3)%nat * 100 in
      let '(positions, index) :=
        segmentsLoop segmentsPerHedgerow startX startZ angle length
                     segmentsPerHedgerow 0 index positions in
      hedgerowsLoop terrainSize random segmentsPerHedgerow count (n + 4)%nat
                    index positions
  end.

Definition generateHedgerows (g : t) (random : nat -> R) (n : nat) : t * nat :=
  let hedgerowCount := 10%nat in
  let segmentsPerHedgerow := 20%nat in
  let instancedMesh := replicate (hedgerowCount * segmentsPerHedgerow) None in
  let index := 0%nat in
  let '(instancedMesh, _, n) :=
    hedgerowsLoop (terrainSize g) random segmentsPerHedgerow hedgerowCount n
                  index instancedMesh in
  (mk (terrainSize g)
      (features g ++
       [TerrainFeature.mk hedgerow (Vector3.mk 0 0 0)
                          (TerrainMesh.Instanced instancedMesh)]),
   n).

Fixpoint treesLoop (terrainSize : R) (random : nat -> R) (count : nat)
    (i n : nat) (trunks foliage : list (option Vector3))
    : list (option Vector3) * list (option Vector3) * nat :=
  match count with
  | O => (trunks, foliage, n)
  | S count =>
      let x := (random n - 0.5) * terrainSize * 0.9 in
      let z := (random (n + 1)%nat - 0.5) * terrainSize * 0.9 in
      treesLoop terrainSize random count (S i) (n + 2)%nat
        (<[i := Some (Vector3.mk x 2 z)]> trunks)
        (<[i := Some (Vector3.mk x 5 z)]> foliage)
  end.

Definition generateTrees (g : t) (random : nat -> R) (n : nat) : t * nat :=
  let treeCount := 200%nat in
  let trunks := replicate treeCount None in
  let foliage := replicate treeCount None in
  let '(trunks, foliage, n) :=
    treesLoop (terrainSize g) random treeCount 0 n trunks foliage in
  (mk (terrainSize g)
      ((features g ++
        [TerrainFeature.mk tree (Vector3.mk 0 0 0) (TerrainMesh.Instanced trunks)]) ++
       [TerrainFeature.mk tree (Vector3.mk 0 0 0) (TerrainMesh.Instanced foliage)]),
   n).

Definition generate (g : t) (random : nat -> R) (n : nat) : t * nat :=
  let '(g, n) := generateFields g random n in
  let '(g, n) := generateLakes g random n in
  let '(g, n) := generateHedgerows g random n in
  generateTrees g random n.

End TerrainGenerator.

(** A feature lies on the ground square of side [terrainSize] around the
    origin: a field with its whole square, a lake with its whole disc, the
    instances of an instanced mesh with the point they are put at. *)
Definition onGround (terrainSize : R) (feature : TerrainFeature.t) : Prop :=
  match TerrainFeature.mesh feature with
  | TerrainMesh.Plane size _ position =>
      Rabs (Vector3.x position) + size / 2 <= terrainSize / 2 /\
      Rabs (Vector3.z position) + size / 2 <= terrainSize / 2
  | TerrainMesh.Circle radius position =>
      Rabs (Vector3.x position) + radius <= terrainSize / 2 /\
      Rabs (Vector3.z position) + radius <= terrainSize / 2
  | TerrainMesh.Instanced positions =>
      Forall (fun slot =>
                exists position, slot = Some position /\
                  Rabs (Vector3.x position) <= terrainSize / 2 /\
                  Rabs (Vector3.z position) <= terrainSize / 2)
             positions
  end.

(** ** [src/scene/Simulation.ts]

    The scene, the renderer, the lights and the frame rate statistic are
    display only and left out; the model keeps the camera controller, the
    terrain, the entity manager and [stats.entityCount]. *)

Module SimulationConfig.
Record t : Type := mk {
  terrainSize : R;
  entityCount : nat;
  entityPerceptionRadius : R;
  maxEntityPerception : nat
}.
End SimulationConfig.

Module Simulation.

Record t : Type := mk {
  cameraController : CameraController.t;
  terrainGenerator : TerrainGenerator.t;
  entityManager : EntityManager.t;
  statsEntityCount : nat
}.

(** [createCamera]: the position of the new camera. *)
Definition createCamera : Vector3 := Vector3.mk 0 300 500.

Definition initialize (config : SimulationConfig.t) (s : t) (random : nat -> R)
    (n : nat) : t * nat :=
  let '(terrainGenerator, n) :=
    TerrainGenerator.generate (terrainGenerator s) random n in
  let '(entityManager, n) :=
    EntityManager.createEntities (entityManager s)
                                 (SimulationConfig.entityCount config) random n in
  (mk (cameraController s) terrainGenerator entityManager
      (EntityManager.getEntityCount entityManager),
   n).

Definition new (config : SimulationConfig.t)
    (movementFunction : EntityManager.MovementFunction) (random : nat -> R)
    (n : nat) : t * nat :=
  let camera := createCamera in
  let cameraController := CameraController.new camera in
  let terrainGenerator :=
    TerrainGenerator.new (SimulationConfig.terrainSize config) in
  let entityManager :=
    EntityManager.new movementFunction
                      (SimulationConfig.entityPerceptionRadius config)
                      (SimulationConfig.maxEntityPerception config)
                      (SimulationConfig.terrainSize config) in
  initialize config (mk cameraController terrainGenerator entityManager 0%nat)
             random n.

(** One frame; [deltaTime] is what [clock.getDelta()] returns. *)
Definition animate (deltaTime : R) (s : t) : t :=
  let clampedDeltaTime := Rmin deltaTime 0.1 in
  mk (cameraController s) (terrainGenerator s)
     (EntityManager.update (entityManager s) clampedDeltaTime)
     (statsEntityCount s).

(** The frames of a run, given the clock deltas in order. *)
Definition frames (deltaTimes : list R) (s : t) : t :=
  foldl (fun s deltaTime => animate deltaTime s) s deltaTimes.

End Simulation.

(** ** Numbers as the program computes with them

    The definitions above read every number as an exact real.  The program
    computes in binary64, where each operation rounds its result.  What
    [Entity.update] does to the velocity and to the position is written
    here once more, over a type of numbers that brings its own operations,
    and is then read three ways: with exact real operations (the reading of
    the definitions above), with real operations each followed by a
    rounding, and with the binary64 operations themselves. *)

Module Arithmetic.

Import PrimFloat.

(** [gt a b] is [a > b]; [falsy a] is what makes [a || 1] evaluate to 1:
    a zero or a NaN. *)
Record t (N : Type) : Type := mk {
  add : N -> N -> N;
  mul : N -> N -> N;
  div : N -> N -> N;
  sqrt : N -> N;
  gt : N -> N -> bool;
  falsy : N -> bool;
  one : N;
  maxSpeed : N
}.

Arguments add {N}.
Arguments mul {N}.
Arguments div {N}.
Arguments sqrt {N}.
Arguments gt {N}.
Arguments falsy {N}.
Arguments one {N}.
Arguments maxSpeed {N}.

Definition exact : t R :=
  mk R Rplus Rmult Rdiv R_sqrt.sqrt
     (fun a b => if Rgt_dec a b then true else false)
     (fun a => if Req_dec_T a 0 then true else false)
     1 50.

(** Every operation is followed by the rounding [fl]; 1 and 50 are binary64
    numbers and are not rounded. *)
Definition rounded (fl : R -> R) : t R :=
  mk R (fun a b => fl (a + b)) (fun a b => fl (a * b)) (fun a b => fl (a / b))
     (fun a => fl (R_sqrt.sqrt a))
     (fun a b => if Rgt_dec a b then true else false)
     (fun a => if Req_dec_T a 0 then true else false)
     1 50.

Definition binary64 : t PrimFloat.float :=
  mk PrimFloat.float PrimFloat.add PrimFloat.mul PrimFloat.div PrimFloat.sqrt
     (fun a b => PrimFloat.ltb b a)
     (fun a => PrimFloat.eqb a 0%float || negb (PrimFloat.eqb a a))
     1%float 50%float.

End Arithmetic.

Module Machine.

Record vector (N : Type) : Type := Vec { x : N; y : N; z : N }.

Arguments Vec {N}.
Arguments x {N}.
Arguments y {N}.
Arguments z {N}.

Section Numbers.

Context {N : Type}.
Variable A : Arithmetic.t N.

Definition add (a b : vector N) : vector N :=
  Vec (Arithmetic.add A (x a) (x b)) (Arithmetic.add A (y a) (y b))
      (Arithmetic.add A (z a) (z b)).

Definition multiplyScalar (a : vector N) (s : N) : vector N :=
  Vec (Arithmetic.mul A (x a) s) (Arithmetic.mul A (y a) s)
      (Arithmetic.mul A (z a) s).

Definition divideScalar (a : vector N) (s : N) : vector N :=
  multiplyScalar a (Arithmetic.div A (Arithmetic.one A) s).

(** [Math.sqrt(x * x + y * y + z * z)] *)
Definition length (a : vector N) : N :=
  Arithmetic.sqrt A
    (Arithmetic.add A
       (Arithmetic.add A (Arithmetic.mul A (x a) (x a))
                         (Arithmetic.mul A (y a) (y a)))
       (Arithmetic.mul A (z a) (z a))).

Definition normalize (a : vector N) : vector N :=
  divideScalar a (if Arithmetic.falsy A (length a)
                  then Arithmetic.one A else length a).

(** The velocity and the position that [Entity.update] stores, in this
    order of operations; the result is the pair of the position and the
    velocity. *)
Definition integrate (position velocity acceleration : vector N)
    (deltaTime : N) : vector N * vector N :=
  let velocity := add velocity (multiplyScalar acceleration deltaTime) in
  let velocity :=
    if Arithmetic.gt A (length velocity) (Arithmetic.maxSpeed A)
    then multiplyScalar (normalize velocity) (Arithmetic.maxSpeed A)
    else velocity in
  let position := add position (multiplyScalar velocity deltaTime) in
  (position, velocity).

End Numbers.

Definition ofVector3 (a : Vector3) : vector R :=
  Vec (Vector3.x a) (Vector3.y a) (Vector3.z a).

End Machine.

Module Binary64.

Import PrimFloat.

(** The real number that a finite binary64 number stands for. *)
Definition toR (a : PrimFloat.float) : R :=
  match FloatOps.Prim2SF a with
  | SpecFloat.S754_finite s m e =>
      IZR (if s then Z.neg m else Z.pos m) * powerRZ 2 e
  | _ => 0
  end.

Definition toVector (a : Machine.vector PrimFloat.float) : Machine.vector R :=
  Machine.Vec (toR (Machine.x a)) (toR (Machine.y a)) (toR (Machine.z a)).







End Binary64.

(** ** What an agent perceives during a tick, in the words of the
    specification *)

(** The population as the agent at index [i] finds it when its turn comes:
    the agents at lower indices as the tick leaves them, the others as the
    tick found them. *)
Definition seenBy (m : EntityManager.t) (deltaTime : R) (i : nat)
    : list Entity.t :=
  take i (EntityManager.entities (EntityManager.update m deltaTime)) ++
  drop i (EntityManager.entities m).

(** The input of the movement function for the agent [e] at index [i] whose
    neighbour query runs on that population. *)
Definition inputOf (m : EntityManager.t) (deltaTime : R) (i : nat)
    (e : Entity.t) : MovementInput.t :=
  MovementInput.mk
    (Entity.getState e)
    (EntityManager.findNearbyEntities
       (EntityManager.withEntities m (seenBy m deltaTime i))
       (Entity.position e) i)
    (EntityManager.getTerrainAhead (Entity.position e) (Entity.velocity e))
    deltaTime.

(** A policy that accelerates the agent by the position at which it sees
    its first neighbour, and two agents on the x axis governed by it: the
    first at the origin with velocity (1, 0, 0), the second at rest at
    (10, 0, 0). *)
Definition towardsFirst : EntityManager.MovementFunction :=
  fun input =>
    MovementOutput.mk
      (match MovementInput.nearbyEntities input with
       | [] => Vector3.mk 0 0 0
       | nearby :: _ => NearbyEntity.position nearby
       end)
      None.

Definition pairManager : EntityManager.t :=
  EntityManager.mk
    [Entity.new (Vector3.mk 0 0 0) (Some (Vector3.mk 1 0 0));
     Entity.new (Vector3.mk 10 0 0) None]
    towardsFirst 100 None 1000 30.

(** * Properties *)

(** ** Vectors *)

Section VectorFacts.

Implicit Types a b : Vector3.

Lemma lengthSq_nonneg a : 0 <= Vector3.lengthSq a.
Proof. unfold Vector3.lengthSq. nra. Qed.

Lemma length_nonneg a : 0 <= Vector3.length a.
Proof. apply sqrt_pos. Qed.

Lemma lengthSq_multiplyScalar a s :
  Vector3.lengthSq (Vector3.multiplyScalar a s) = s * s * Vector3.lengthSq a.
Proof. unfold Vector3.lengthSq, Vector3.multiplyScalar. simpl. ring. Qed.

Lemma length_multiplyScalar a s :
  Vector3.length (Vector3.multiplyScalar a s) = Rabs s * Vector3.length a.
Proof.
  unfold Vector3.length. rewrite lengthSq_multiplyScalar.
  rewrite sqrt_mult_alt by nra.
  f_equal. apply sqrt_Rsqr_abs.
Qed.

Lemma length_normalize a :
  Vector3.length a <> 0 -> Vector3.length (Vector3.normalize a) = 1.
Proof.
  intros Hne. unfold Vector3.normalize, Vector3.divideScalar.
  destruct (Req_dec_T (Vector3.length a) 0) as [H0 | _]; [contradiction |].
  rewrite length_multiplyScalar.
  pose proof (length_nonneg a) as Hge.
  assert (Hpos : 0 < Vector3.length a) by lra.
  rewrite Rabs_pos_eq.
  - field. lra.
  - apply Rlt_le. apply Rdiv_lt_0_compat; lra.
Qed.

Lemma multiplyScalar_multiplyScalar a s1 s2 :
  Vector3.multiplyScalar (Vector3.multiplyScalar a s1) s2 =
  Vector3.multiplyScalar a (s1 * s2).
Proof. unfold Vector3.multiplyScalar. simpl. f_equal; ring. Qed.

Lemma rescale_normalize a s :
  Vector3.length a <> 0 ->
  Vector3.multiplyScalar (Vector3.normalize a) s =
  Vector3.multiplyScalar a (s / Vector3.length a).
Proof.
  intros Hne. unfold Vector3.normalize, Vector3.divideScalar.
  destruct (Req_dec_T (Vector3.length a) 0) as [H0 | _]; [contradiction |].
  rewrite multiplyScalar_multiplyScalar. f_equal. by field.
Qed.

Lemma add_multiplyScalar_0 a b :
  Vector3.add a (Vector3.multiplyScalar b 0) = a.
Proof.
  destruct a as [ax ay az]. unfold Vector3.add, Vector3.multiplyScalar. simpl.
  f_equal; ring.
Qed.

Lemma length_x_axis (c : R) : 0 <= c -> Vector3.length (Vector3.mk c 0 0) = c.
Proof.
  intros Hc. unfold Vector3.length, Vector3.lengthSq. simpl.
  replace (c * c + 0 * 0 + 0 * 0) with (c * c) by ring.
  by apply sqrt_square.
Qed.

Lemma length_zero : Vector3.length (Vector3.mk 0 0 0) = 0.
Proof. apply length_x_axis. lra. Qed.

End VectorFacts.

(** ** The integrator, one entity *)

Lemma update_speed_le (e : Entity.t) (a : Vector3) (deltaTime : R) :
  Vector3.length (Entity.velocity (Entity.update e a deltaTime)) <= Entity.maxSpeed.
Proof.
  unfold Entity.update. simpl.
  destruct (Rgt_dec _ _) as [Hgt | Hle].
  - rewrite length_multiplyScalar, length_normalize.
    + unfold Entity.maxSpeed in *. rewrite Rabs_pos_eq; lra.
    + unfold Entity.maxSpeed in *. lra.
  - lra.
Qed.

Lemma update_zero_deltaTime (e : Entity.t) (a : Vector3) :
  Vector3.length (Entity.velocity e) <= Entity.maxSpeed ->
  Entity.position (Entity.update e a 0) = Entity.position e /\
  Entity.velocity (Entity.update e a 0) = Entity.velocity e.
Proof.
  intros Hle. unfold Entity.update. simpl.
  rewrite !add_multiplyScalar_0.
  destruct (Rgt_dec _ _) as [Hgt | _]; [lra | done].
Qed.

(** ** The loop of [EntityManager.update] *)

Section Loop.

Variable m : EntityManager.t.
Variable deltaTime : R.

#[local] Abbreviation step := (EntityManager.updateEntity m deltaTime).

Lemma updateEntity_length (es : list Entity.t) i :
  length (step es i) = length es.
Proof.
  unfold EntityManager.updateEntity.
  destruct (es !! i); [| done]. by rewrite length_insert.
Qed.

Lemma updateEntity_other (es : list Entity.t) (i j : nat) :
  i <> j -> step es i !! j = es !! j.
Proof.
  intros Hne. unfold EntityManager.updateEntity.
  destruct (es !! i); [| done]. by rewrite list_lookup_insert_ne.
Qed.

Lemma entitiesBefore_S i :
  entitiesBefore m deltaTime (S i) = step (entitiesBefore m deltaTime i) i.
Proof.
  unfold entitiesBefore. rewrite seq_S, foldl_app. reflexivity.
Qed.

Lemma entitiesBefore_length i :
  length (entitiesBefore m deltaTime i) = length (EntityManager.entities m).
Proof.
  induction i as [| i IH]; [done |].
  by rewrite entitiesBefore_S, updateEntity_length.
Qed.

(** An index that has not been reached yet still holds the entity the tick
    started with. *)
Lemma entitiesBefore_untouched i j :
  (i <= j)%nat ->
  entitiesBefore m deltaTime i !! j = EntityManager.entities m !! j.
Proof.
  induction i as [| i IH]; intros Hle; [done |].
  rewrite entitiesBefore_S, updateEntity_other by lia.
  apply IH. lia.
Qed.

(** An index that has been passed is not written again. *)
Lemma entitiesBefore_settled i k j :
  (j < i)%nat -> (i <= k)%nat ->
  entitiesBefore m deltaTime k !! j = entitiesBefore m deltaTime i !! j.
Proof.
  intros Hji Hik. induction Hik as [| k Hik IH]; [done |].
  rewrite entitiesBefore_S, updateEntity_other by lia. exact IH.
Qed.

Lemma entitiesBefore_past_end i :
  (length (EntityManager.entities m) <= i)%nat ->
  entitiesBefore m deltaTime i =
  entitiesBefore m deltaTime (length (EntityManager.entities m)).
Proof.
  intros Hle. induction Hle as [| k Hle IH]; [done |].
  rewrite entitiesBefore_S, <- IH.
  unfold EntityManager.updateEntity.
  rewrite lookup_ge_None_2; [done |].
  rewrite IH, entitiesBefore_length. lia.
Qed.

Lemma update_entities :
  EntityManager.entities (EntityManager.update m deltaTime) =
  entitiesBefore m deltaTime (length (EntityManager.entities m)).
Proof.
  unfold EntityManager.update, EntityManager.updateInstancedMesh.
  destruct (EntityManager.instancedMesh _); reflexivity.
Qed.

Lemma update_length :
  length (EntityManager.entities (EntityManager.update m deltaTime)) =
  length (EntityManager.entities m).
Proof. by rewrite update_entities, entitiesBefore_length. Qed.

(** What the callback leaves at its own index: the entity integrated with
    the acceleration the policy returned, and patched. *)
Lemma updateEntity_at (es : list Entity.t) i e :
  es !! i = Some e ->
  exists input e',
    let a := MovementOutput.acceleration (EntityManager.movementFunction m input) in
    step es i !! i = Some e' /\
    Entity.position e' = Entity.position (Entity.update e a deltaTime) /\
    Entity.velocity e' = Entity.velocity (Entity.update e a deltaTime) /\
    Entity.mesh e' = Entity.mesh (Entity.update e a deltaTime) /\
    Entity.randomVariables e' =
      match MovementOutput.shouldUpdateRandomVariables
              (EntityManager.movementFunction m input) with
      | Some newVariables =>
          Entity.randomVariables (Entity.updateRandomVariables e newVariables)
      | None => Entity.randomVariables e
      end.
Proof.
  intros He. unfold EntityManager.updateEntity. rewrite He.
  set (input := MovementInput.mk _ _ _ _).
  exists input.
  destruct (MovementOutput.shouldUpdateRandomVariables
              (EntityManager.movementFunction m input)) as [patch |] eqn:Hpatch;
    eexists; simpl;
    (split; [apply list_lookup_insert_eq; by eapply lookup_lt_Some |]);
    rewrite ?Hpatch; repeat split; reflexivity.
Qed.

(** Every entity of the population after [update] is the integration of the
    entity that was at its index before, with the acceleration the policy
    returned for it. *)
Lemma update_lookup j e :
  EntityManager.entities m !! j = Some e ->
  exists input e',
    let a := MovementOutput.acceleration (EntityManager.movementFunction m input) in
    EntityManager.entities (EntityManager.update m deltaTime) !! j = Some e' /\
    Entity.position e' = Entity.position (Entity.update e a deltaTime) /\
    Entity.velocity e' = Entity.velocity (Entity.update e a deltaTime) /\
    Entity.mesh e' = Entity.mesh (Entity.update e a deltaTime) /\
    Entity.randomVariables e' =
      match MovementOutput.shouldUpdateRandomVariables
              (EntityManager.movementFunction m input) with
      | Some newVariables =>
          Entity.randomVariables (Entity.updateRandomVariables e newVariables)
      | None => Entity.randomVariables e
      end.
Proof.
  intros He.
  assert (Hlt : (j < length (EntityManager.entities m))%nat)
    by by eapply lookup_lt_Some.
  rewrite update_entities.
  rewrite (entitiesBefore_settled (S j)) by lia.
  rewrite entitiesBefore_S.
  apply updateEntity_at.
  by rewrite entitiesBefore_untouched.
Qed.

End Loop.

(** ** The speed cap and the integrator *)

(** With exact operations the machine integrator is [Entity.update]. *)
Lemma integrate_exact (e : Entity.t) (a : Vector3) (deltaTime : R) :
  Machine.integrate Arithmetic.exact
    (Machine.ofVector3 (Entity.position e)) (Machine.ofVector3 (Entity.velocity e))
    (Machine.ofVector3 a) deltaTime =
  (Machine.ofVector3 (Entity.position (Entity.update e a deltaTime)),
   Machine.ofVector3 (Entity.velocity (Entity.update e a deltaTime))).
Proof.
  unfold Machine.integrate, Entity.update.
  cbn [Entity.position Entity.velocity].
  change (Machine.length Arithmetic.exact
            (Machine.add Arithmetic.exact (Machine.ofVector3 (Entity.velocity e))
               (Machine.multiplyScalar Arithmetic.exact (Machine.ofVector3 a) deltaTime)))
    with (Vector3.length
            (Vector3.add (Entity.velocity e) (Vector3.multiplyScalar a deltaTime))).
  cbn [Arithmetic.gt Arithmetic.exact Arithmetic.maxSpeed].
  unfold Entity.maxSpeed.
  destruct (Rgt_dec _ 50) as [Hgt | Hle]; [| reflexivity].
  unfold Machine.normalize, Vector3.normalize.
  change (Machine.length Arithmetic.exact
            (Machine.add Arithmetic.exact (Machine.ofVector3 (Entity.velocity e))
               (Machine.multiplyScalar Arithmetic.exact (Machine.ofVector3 a) deltaTime)))
    with (Vector3.length
            (Vector3.add (Entity.velocity e) (Vector3.multiplyScalar a deltaTime))).
  cbn [Arithmetic.falsy Arithmetic.exact].
  destruct (Req_dec_T _ 0); reflexivity.
Qed.

(** *** Rounded operations

    A rounding [fl] with a relative error of at most [u]: what rounding to
    the nearest binary64 number is, with [u = 2 ^ -53], as long as no
    result overflows or falls into the subnormal range. *)

Section Rounding.

Variable fl : R -> R.
Variable u : R.
Hypothesis u_range : 0 <= u <= 1 / 1000.
Hypothesis fl_error : forall x, Rabs (fl x - x) <= u * Rabs x.

Lemma fl_nonneg (x : R) : 0 <= x -> (1 - u) * x <= fl x <= (1 + u) * x.
Proof.
  intros Hx. pose proof (fl_error x) as H.
  rewrite (Rabs_pos_eq x) in H by exact Hx.
  revert H. unfold Rabs. destruct (Rcase_abs _); intros; lra.
Qed.

Lemma fl_abs (x : R) : Rabs (fl x) <= (1 + u) * Rabs x.
Proof.
  pose proof (fl_error x) as H.
  replace (fl x) with ((fl x - x) + x) at 1 by ring.
  eapply Rle_trans; [apply Rabs_triang |]. lra.
Qed.

(** The computed length is not much smaller than the exact length. *)
Lemma rounded_length_ge (w : Machine.vector R) :
  (1 - u) * (1 - u) * (1 - u) * Machine.length Arithmetic.exact w <=
  Machine.length (Arithmetic.rounded fl) w.
Proof.
  destruct w as [wx wy wz].
  unfold Machine.length.
  cbn [Arithmetic.sqrt Arithmetic.add Arithmetic.mul Arithmetic.rounded
       Arithmetic.exact Machine.x Machine.y Machine.z].
  set (c := 1 - u).
  assert (Hc : 0 < c <= 1) by (subst c; lra).
  set (S := wx * wx + wy * wy + wz * wz).
  assert (HS : 0 <= S) by (subst S; nra).
  assert (Hxx : 0 <= wx * wx) by nra.
  assert (Hyy : 0 <= wy * wy) by nra.
  assert (Hzz : 0 <= wz * wz) by nra.
  pose proof (fl_nonneg (wx * wx) Hxx) as Ha.
  pose proof (fl_nonneg (wy * wy) Hyy) as Hb.
  pose proof (fl_nonneg (wz * wz) Hzz) as Hd.
  fold c in Ha, Hb, Hd.
  set (a := fl (wx * wx)) in *. set (b := fl (wy * wy)) in *.
  set (d := fl (wz * wz)) in *.
  assert (Hab0 : 0 <= a + b) by nra.
  pose proof (fl_nonneg (a + b) Hab0) as Hab. fold c in Hab.
  set (ab := fl (a + b)) in *.
  assert (Hq0 : 0 <= ab + d) by nra.
  pose proof (fl_nonneg (ab + d) Hq0) as Hq. fold c in Hq.
  set (Q := fl (ab + d)) in *.
  assert (HQ : c * c * c * S <= Q).
  { assert (c * c * (wx * wx + wy * wy) <= ab) by nra.
    assert (c * c * (wz * wz) <= c * (wz * wz)) by nra.
    assert (c * c * S <= ab + d) by (subst S; nra).
    nra. }
  assert (HQ4 : (c * c) * (c * c) * S <= Q).
  { assert (0 <= c * c * c * S) by (repeat apply Rmult_le_pos; lra).
    assert ((c * c) * (c * c) * S = c * (c * c * c * S)) as -> by ring.
    nra. }
  assert (Hsqrt : c * c * sqrt S <= sqrt Q).
  { replace (c * c * sqrt S) with (sqrt ((c * c) * (c * c) * S)).
    - by apply sqrt_le_1_alt.
    - rewrite sqrt_mult_alt by nra. rewrite sqrt_square by nra. reflexivity. }
  assert (HsQ : 0 <= sqrt Q) by apply sqrt_pos.
  pose proof (fl_nonneg (sqrt Q) HsQ) as HL. fold c in HL.
  pose proof (sqrt_pos S).
  replace (c * c * c * sqrt S) with (c * (c * c * sqrt S)) by ring.
  apply Rle_trans with (c * sqrt Q); [| lra].
  apply Rmult_le_compat_l; lra.
Qed.

Lemma exact_length_scaled (w v : Machine.vector R) (K : R) :
  0 <= K ->
  Rabs (Machine.x v) <= K * Rabs (Machine.x w) ->
  Rabs (Machine.y v) <= K * Rabs (Machine.y w) ->
  Rabs (Machine.z v) <= K * Rabs (Machine.z w) ->
  Machine.length Arithmetic.exact v <= K * Machine.length Arithmetic.exact w.
Proof.
  destruct w as [wx wy wz], v as [vx vy vz].
  cbn [Machine.x Machine.y Machine.z]. intros HK Hx Hy Hz.
  unfold Machine.length.
  cbn [Arithmetic.sqrt Arithmetic.add Arithmetic.mul Arithmetic.exact
       Machine.x Machine.y Machine.z].
  replace (K * sqrt (wx * wx + wy * wy + wz * wz))
    with (sqrt (K * K * (wx * wx + wy * wy + wz * wz))).
  - apply sqrt_le_1_alt.
    assert (Hsq : forall a b, Rabs a <= K * Rabs b -> a * a <= K * K * (b * b)).
    { intros a b Hab.
      pose proof (Rabs_pos a). pose proof (Rabs_pos b).
      replace (a * a) with (Rabs a * Rabs a)
        by (unfold Rabs; destruct (Rcase_abs a); ring).
      replace (b * b) with (Rabs b * Rabs b)
        by (unfold Rabs; destruct (Rcase_abs b); ring).
      assert (0 <= K * Rabs b) by nra. nra. }
    pose proof (Hsq _ _ Hx). pose proof (Hsq _ _ Hy). pose proof (Hsq _ _ Hz).
    lra.
  - rewrite sqrt_mult_alt by nra. rewrite sqrt_square by lra. reflexivity.
Qed.

(** The speed that the rounded integrator stores. *)
Lemma rounded_speed_le (position velocity acceleration : Machine.vector R)
    (deltaTime : R) :
  Machine.length Arithmetic.exact
    (Machine.integrate (Arithmetic.rounded fl) position velocity acceleration
                       deltaTime).2 <=
  50 * (1 + 8 * u).
Proof.
  unfold Machine.integrate. cbn [snd].
  set (w := Machine.add (Arithmetic.rounded fl) velocity
              (Machine.multiplyScalar (Arithmetic.rounded fl) acceleration deltaTime)).
  pose proof (rounded_length_ge w) as HL.
  set (L := Machine.length (Arithmetic.rounded fl) w) in *.
  set (s := Machine.length Arithmetic.exact w) in *.
  assert (Hs : 0 <= s) by (subst s; apply sqrt_pos).
  set (c := 1 - u) in *.
  assert (Hc : 999 / 1000 <= c <= 1) by (subst c; lra).
  assert (Hc3 : 1 - 3 * u <= c * c * c) by (subst c; nra).
  assert (Hc3pos : 0 < c * c * c) by nra.
  cbn [Arithmetic.gt Arithmetic.rounded Arithmetic.maxSpeed].
  destruct (Rgt_dec L 50) as [Hgt | Hle].
  - (* capped *)
    unfold Machine.normalize. fold L.
    cbn [Arithmetic.falsy Arithmetic.rounded Arithmetic.one].
    destruct (Req_dec_T L 0) as [H0 | _]; [lra |].
    unfold Machine.divideScalar.
    cbn [Arithmetic.div Arithmetic.one Arithmetic.rounded].
    set (inv := fl (1 / L)).
    assert (Hinv0 : 0 < 1 / L) by (apply Rdiv_lt_0_compat; lra).
    pose proof (fl_nonneg (1 / L) (Rlt_le _ _ Hinv0)) as Hinv. fold inv in Hinv.
    assert (Hinv_ge : 0 <= inv) by nra.
    set (K := (1 + u) * (1 + u) * (1 + u) * 50 * (1 / L)).
    assert (HK : 0 <= K) by (subst K; repeat apply Rmult_le_pos; lra).
    assert (Hcomp : forall wi,
              Rabs (fl (fl (wi * inv) * 50)) <= K * Rabs wi).
    { intros wi.
      pose proof (fl_abs (fl (wi * inv) * 50)) as H1.
      pose proof (fl_abs (wi * inv)) as H2.
      rewrite Rabs_mult, (Rabs_pos_eq 50) in H1 by lra.
      rewrite Rabs_mult, (Rabs_pos_eq inv) in H2 by lra.
      pose proof (Rabs_pos wi) as Hwi.
      pose proof (Rabs_pos (fl (wi * inv))) as Hf.
      assert (Rabs (fl (wi * inv)) <= (1 + u) * Rabs wi * ((1 + u) * (1 / L))).
      { apply Rle_trans with ((1 + u) * (Rabs wi * inv)); [exact H2 |].
        assert (Rabs wi * inv <= Rabs wi * ((1 + u) * (1 / L)))
          by (apply Rmult_le_compat_l; lra).
        nra. }
      subst K.
      apply Rle_trans with ((1 + u) * (Rabs (fl (wi * inv)) * 50)); [exact H1 |].
      nra. }
    apply Rle_trans with (K * s).
    + apply exact_length_scaled; [exact HK | | |];
        unfold Machine.multiplyScalar;
        cbn [Machine.x Machine.y Machine.z Arithmetic.mul Arithmetic.rounded
             Arithmetic.maxSpeed];
        apply Hcomp.
    + (* K * s <= 50 (1+u)^3 / c^3 <= 50 (1 + 8u) *)
      assert (HsL : s * (1 / L) <= 1 / (c * c * c)).
      { assert (Hone : L * (1 / L) = 1) by (field; lra).
        assert (Hone' : (c * c * c) * (1 / (c * c * c)) = 1) by (field; lra).
        assert (0 < 1 / (c * c * c)) by (apply Rdiv_lt_0_compat; lra).
        assert (c * c * c * s * (1 / L) <= L * (1 / L))
          by (apply Rmult_le_compat_r; lra).
        assert (Hmul : (1 / (c * c * c)) * (c * c * c * s * (1 / L)) <=
                       (1 / (c * c * c)) * (L * (1 / L)))
          by (apply Rmult_le_compat_l; lra).
        replace ((1 / (c * c * c)) * (c * c * c * s * (1 / L)))
          with (((c * c * c) * (1 / (c * c * c))) * (s * (1 / L))) in Hmul by ring.
        rewrite Hone', Hone in Hmul. lra. }
      assert (Hq : 1 / (c * c * c) <= (1 + 4 * u)).
      { apply Rmult_le_reg_l with (c * c * c); [lra |].
        replace (c * c * c * (1 / (c * c * c))) with 1 by (field; lra).
        nra. }
      assert (Hp : (1 + u) * (1 + u) * (1 + u) <= 1 + 3.01 * u) by nra.
      assert (Hpp : 0 <= (1 + u) * (1 + u) * (1 + u)) by nra.
      subst K.
      replace ((1 + u) * (1 + u) * (1 + u) * 50 * (1 / L) * s)
        with (50 * ((1 + u) * (1 + u) * (1 + u)) * (s * (1 / L))) by ring.
      assert (0 <= s * (1 / L)) by (apply Rmult_le_pos; lra).
      assert (50 * ((1 + u) * (1 + u) * (1 + u)) * (s * (1 / L)) <=
              50 * (1 + 3.01 * u) * (1 + 4 * u)).
      { apply Rle_trans with (50 * (1 + 3.01 * u) * (s * (1 / L))).
        - apply Rmult_le_compat_r; lra.
        - apply Rmult_le_compat_l; lra. }
      nra.
  - (* not capped: the exact speed is at most L / c^3 *)
    fold s.
    assert (Hq : s <= 50 * (1 + 8 * u)); [| exact Hq].
    assert (c * c * c * s <= 50) by lra.
    assert ((1 - 3 * u) * s <= 50) by nra.
    assert ((1 - 3 * u) * (50 * (1 + 8 * u)) >= 50) by nra.
    assert (0 < 1 - 3 * u) by lra.
    nra.
Qed.

End Rounding.

(** Every entity after a tick, in exact arithmetic. *)
Lemma update_speed_all (m : EntityManager.t) (deltaTime : R) :
  Forall (fun e => Vector3.length (Entity.velocity e) <= 50)
         (EntityManager.entities (EntityManager.update m deltaTime)).
Proof.
  apply Forall_lookup_2. intros j e' He'.
  assert (Hlt : (j < length (EntityManager.entities m))%nat).
  { rewrite <- (update_length m deltaTime). by eapply lookup_lt_Some. }
  destruct (lookup_lt_is_Some_2 _ _ Hlt) as [e He].
  destruct (update_lookup m deltaTime j e He) as (input & e'' & Hj & _ & Hv & _).
  rewrite He' in Hj. injection Hj as <-.
  rewrite Hv. apply update_speed_le.
Qed.

(** C1, amended.  The speed that [Entity.update] stores is at most 50 only
    up to rounding.  When every operation is rounded with a relative error
    of at most [u], as binary64 does with [u = 2 ^ -53] away from overflow
    and underflow, the stored velocity has a length of at most
    [50 * (1 + 8 * u)], for any state, any acceleration and any time step.
    With exact operations, where the machine integrator is [Entity.update]
    as embedded above, the length is at most [maxSpeed], which is 50, after
    [Entity.update] and for every entity after [EntityManager.update]
    returns. *)
Theorem speed_cap :
  (forall (fl : R -> R) (u : R),
     0 <= u <= 1 / 1000 ->
     (forall x, Rabs (fl x - x) <= u * Rabs x) ->
     forall (position velocity acceleration : Machine.vector R) (deltaTime : R),
       Machine.length Arithmetic.exact
         (Machine.integrate (Arithmetic.rounded fl) position velocity
                            acceleration deltaTime).2 <=
       50 * (1 + 8 * u)) /\
  (forall (e : Entity.t) (acceleration : Vector3) (deltaTime : R),
     Machine.integrate Arithmetic.exact
       (Machine.ofVector3 (Entity.position e))
       (Machine.ofVector3 (Entity.velocity e))
       (Machine.ofVector3 acceleration) deltaTime =
     (Machine.ofVector3 (Entity.position (Entity.update e acceleration deltaTime)),
      Machine.ofVector3 (Entity.velocity (Entity.update e acceleration deltaTime))) /\
     Vector3.length (Entity.velocity (Entity.update e acceleration deltaTime))
       <= Entity.maxSpeed) /\
  Entity.maxSpeed = 50 /\
  (forall (m : EntityManager.t) (deltaTime : R),
     Forall (fun e => Vector3.length (Entity.velocity e) <= 50)
            (EntityManager.entities (EntityManager.update m deltaTime))).
Proof.
  split; [| split; [| split]].
  - intros fl u Hu Hfl position velocity acceleration deltaTime.
    by apply rounded_speed_le.
  - intros e acceleration deltaTime.
    split; [apply integrate_exact | apply update_speed_le].
  - reflexivity.
  - exact update_speed_all.
Qed.

(** A rounding that always errs upwards by the full [2 ^ -53]: from rest,
    accelerated by (70, 70, 70) for one second. *)
Lemma speed_cap_witness :
  Machine.length Arithmetic.exact
    (Machine.integrate
       (Arithmetic.rounded (fun x => x * (1 + 1 / 9007199254740992)))
       (Machine.Vec 0 60 0) (Machine.Vec 0 0 0) (Machine.Vec 70 70 70) 1).2 <=
  50 * (1 + 8 * (1 / 9007199254740992)).
Proof.
  apply (proj1 speed_cap (fun x => x * (1 + 1 / 9007199254740992))
               (1 / 9007199254740992)).
  - lra.
  - intros x.
    replace (x * (1 + 1 / 9007199254740992) - x)
      with (1 / 9007199254740992 * x) by field.
    rewrite Rabs_mult, (Rabs_pos_eq (1 / 9007199254740992)) by lra. lra.
Defined.

Section Binary64Run.

Import PrimFloat.

(** C1 as stated fails in the arithmetic the program runs in.  An entity
    at rest at (0, 60, 0), accelerated by (70, 70, 70) for one second, is
    capped; each component of the velocity it stores is
    [8125482678702045 * 2 ^ -48], about 28.86751345948129.  The length the
    program itself computes for that velocity is 50.000000000000007, which
    it finds to be above 50, and the exact length of the stored vector is
    above 50 as well. *)
Lemma speed_cap_exceeded_in_binary64 :
  let stored :=
    (Machine.integrate Arithmetic.binary64
       (Machine.Vec 0%float 60%float 0%float) (Machine.Vec 0%float 0%float 0%float)
       (Machine.Vec 70%float 70%float 70%float) 1%float).2 in
  FloatOps.Prim2SF (Machine.x stored) =
    SpecFloat.S754_finite false 8125482678702045 (-48) /\
  Machine.y stored = Machine.x stored /\ Machine.z stored = Machine.x stored /\
  FloatOps.Prim2SF (Machine.length Arithmetic.binary64 stored) =
    SpecFloat.S754_finite false 7036874417766401 (-47) /\
  ltb 50%float (Machine.length Arithmetic.binary64 stored) = true /\
  50 < Machine.length Arithmetic.exact (Binary64.toVector stored).
Proof.
  cbn zeta.
  set (stored := (Machine.integrate Arithmetic.binary64 _ _ _ _).2).
  assert (Hx : FloatOps.Prim2SF (Machine.x stored) =
               SpecFloat.S754_finite false 8125482678702045 (-48))
    by (vm_compute; reflexivity).
  assert (Hy : Machine.y stored = Machine.x stored) by (vm_compute; reflexivity).
  assert (Hz : Machine.z stored = Machine.x stored) by (vm_compute; reflexivity).
  repeat split; try assumption; try (vm_compute; reflexivity).
  unfold Machine.length, Binary64.toVector.
  cbn [Machine.x Machine.y Machine.z Arithmetic.sqrt Arithmetic.add
       Arithmetic.mul Arithmetic.exact].
  rewrite Hy, Hz. unfold Binary64.toR. rewrite Hx.
  assert (Hpow : powerRZ 2 (-48) = / 281474976710656).
  { unfold powerRZ. f_equal. rewrite pow_IZR. apply f_equal. reflexivity. }
  rewrite Hpow.
  replace 50 with (R_sqrt.sqrt (50 * 50)) at 1 by (apply sqrt_square; lra).
  apply sqrt_lt_1_alt. lra.
Qed.

End Binary64Run.

(** One step on numbers: an entity flying at (30, 40, 0), accelerated by
    the same vector for one second, would fly at (60, 80, 0), of length 100;
    it is capped to (30, 40, 0), and moves by that. *)
Example update_caps_to_50 :
  let e := Entity.new (Vector3.mk 1 2 3) (Some (Vector3.mk 30 40 0)) in
  let e' := Entity.update e (Vector3.mk 30 40 0) 1 in
  Entity.velocity e' = Vector3.mk 30 40 0 /\
  Entity.position e' = Vector3.mk 31 42 3.
Proof.
  intros e e'.
  assert (Hw : Vector3.add (Vector3.mk 30 40 0)
                 (Vector3.multiplyScalar (Vector3.mk 30 40 0) 1) =
               Vector3.mk 60 80 0).
  { unfold Vector3.add, Vector3.multiplyScalar. simpl. f_equal; ring. }
  assert (Hlen : Vector3.length (Vector3.mk 60 80 0) = 100).
  { unfold Vector3.length, Vector3.lengthSq. simpl.
    replace (60 * 60 + 80 * 80 + 0 * 0) with (100 * 100) by ring.
    apply sqrt_square. lra. }
  assert (Hv : Entity.velocity e' = Vector3.mk 30 40 0).
  { subst e' e. unfold Entity.update, Entity.new. simpl. rewrite Hw, Hlen.
    destruct (Rgt_dec 100 Entity.maxSpeed) as [_ | Hn];
      [| unfold Entity.maxSpeed in Hn; lra].
    rewrite rescale_normalize by (rewrite Hlen; lra). rewrite Hlen.
    unfold Vector3.multiplyScalar, Entity.maxSpeed. simpl. f_equal; field. }
  split; [exact Hv |].
  change (Entity.position e')
    with (Vector3.add (Vector3.mk 1 2 3)
            (Vector3.multiplyScalar (Entity.velocity e') 1)).
  rewrite Hv. unfold Vector3.add, Vector3.multiplyScalar. simpl. f_equal; ring.
Qed.

(** C5.  [Entity.update] computes what the specification's Integrator
    computes: the velocity [w = v + a * deltaTime], rescaled by the positive
    factor [50 / |w|] to a length of exactly 50 when [|w| > 50] and kept
    otherwise, and the position [p + v' * deltaTime] for the velocity [v']
    just stored. *)
Theorem update_integrates (e : Entity.t) (a : Vector3) (deltaTime : R) :
  let w := Vector3.add (Entity.velocity e) (Vector3.multiplyScalar a deltaTime) in
  let e' := Entity.update e a deltaTime in
  (Entity.velocity e', Entity.position e') =
    spec_integrate (Entity.velocity e) (Entity.position e) a deltaTime /\
  (Vector3.length w > 50 ->
   Vector3.length (Entity.velocity e') = 50 /\
   0 < 50 / Vector3.length w /\
   Entity.velocity e' = Vector3.multiplyScalar w (50 / Vector3.length w)) /\
  (Vector3.length w <= 50 -> Entity.velocity e' = w) /\
  Entity.position e' =
    Vector3.add (Entity.position e)
                (Vector3.multiplyScalar (Entity.velocity e') deltaTime).
Proof.
  intros w e'.
  assert (Hv : Entity.velocity e' =
               if Rgt_dec (Vector3.length w) Entity.maxSpeed
               then Vector3.multiplyScalar w (Entity.maxSpeed / Vector3.length w)
               else w).
  { subst e' w. unfold Entity.update. simpl.
    destruct (Rgt_dec _ _) as [Hgt | Hle]; [| done].
    apply rescale_normalize. unfold Entity.maxSpeed in Hgt. lra. }
  assert (Hp : Entity.position e' =
               Vector3.add (Entity.position e)
                 (Vector3.multiplyScalar (Entity.velocity e') deltaTime))
    by reflexivity.
  split; [| split; [| split]].
  - unfold spec_integrate. fold w. rewrite Hp, Hv. reflexivity.
  - intros Hgt. rewrite Hv. unfold Entity.maxSpeed.
    destruct (Rgt_dec _ _) as [_ | Hle]; [| unfold Entity.maxSpeed in Hle; lra].
    assert (Hpos : 0 < 50 / Vector3.length w) by (apply Rdiv_lt_0_compat; lra).
    split; [| done].
    rewrite length_multiplyScalar, Rabs_pos_eq by lra. field. lra.
  - intros Hle. rewrite Hv.
    destruct (Rgt_dec _ _) as [Hgt | _]; [unfold Entity.maxSpeed in Hgt; lra | done].
  - exact Hp.
Qed.

Lemma update_integrates_witness :
  Vector3.length
    (Entity.velocity (Entity.update fastEntity (Vector3.mk 0 0 0) 0)) = 50 /\
  Entity.velocity (Entity.update brakingEntity (Vector3.mk 0 0 0) 0) =
    Vector3.add (Entity.velocity brakingEntity)
                (Vector3.multiplyScalar (Vector3.mk 0 0 0) 0).
Proof.
  split.
  - apply (update_integrates fastEntity (Vector3.mk 0 0 0) 0).
    simpl. rewrite add_multiplyScalar_0, length_x_axis; lra.
  - apply (update_integrates brakingEntity (Vector3.mk 0 0 0) 0).
    simpl. rewrite add_multiplyScalar_0, length_x_axis; lra.
Defined.

(** ** A tick with a time step of 0 *)


(** *** The same step in binary64 *)

Section Binary64Facts.

Import PrimFloat.










End Binary64Facts.

(** ** Variable patches *)

Lemma updateRandomVariables_union (e : Entity.t) (newVariables : gmap string R) :
  Entity.randomVariables (Entity.updateRandomVariables e newVariables) =
  newVariables ∪ Entity.randomVariables e.
Proof.
  unfold Entity.updateRandomVariables. simpl.
  apply (map_fold_weak_ind
           (fun merged patch => merged = patch ∪ Entity.randomVariables e)).
  - by rewrite (left_id_L ∅ (∪)).
  - intros key value patch merged _ ->. by rewrite insert_union_l.
Qed.

(** C7.  Merging a patch gives every key of the patch the patch's value and
    leaves every other key as it was; variables [{a: 1}] patched with
    [{a: 2, b: 3}] become [{a: 2, b: 3}]; and after a tick the variables of
    an entity are its old ones merged with the patch its policy returned,
    or its old ones when the policy returned no patch. *)
Theorem patch_merge :
  (forall (e : Entity.t) (patch : gmap string R) (key : string),
     Entity.randomVariables (Entity.updateRandomVariables e patch) !! key =
     match patch !! key with
     | Some value => Some value
     | None => Entity.randomVariables e !! key
     end) /\
  (forall (position velocity : Vector3) (mesh : Mesh.t),
     Entity.randomVariables
       (Entity.updateRandomVariables
          (Entity.mk position velocity {[ "a"%string := 1 ]} mesh)
          {[ "a"%string := 2; "b"%string := 3 ]}) =
     {[ "a"%string := 2; "b"%string := 3 ]}) /\
  (forall (m : EntityManager.t) (deltaTime : R) (j : nat) (e : Entity.t),
     EntityManager.entities m !! j = Some e ->
     exists (input : MovementInput.t) (e' : Entity.t),
       EntityManager.entities (EntityManager.update m deltaTime) !! j = Some e' /\
       Entity.randomVariables e' =
         match MovementOutput.shouldUpdateRandomVariables
                 (EntityManager.movementFunction m input) with
         | Some patch =>
             Entity.randomVariables (Entity.updateRandomVariables e patch)
         | None => Entity.randomVariables e
         end).
Proof.
  split; [| split].
  - intros e patch key. rewrite updateRandomVariables_union, lookup_union.
    by destruct (patch !! key), (Entity.randomVariables e !! key).
  - intros position velocity mesh. rewrite updateRandomVariables_union. simpl.
    apply map_eq. intros key. rewrite lookup_union.
    destruct (decide (key = "a"%string)) as [-> | Ha].
    + by rewrite lookup_insert_eq, lookup_singleton_eq.
    + rewrite (lookup_singleton_ne "a"%string key) by done.
      by destruct (_ !! key).
  - intros m deltaTime j e He.
    destruct (update_lookup m deltaTime j e He)
      as (input & e' & He' & _ & _ & _ & Hvars).
    by exists input, e'.
Qed.

Lemma patch_merge_witness :
  exists (input : MovementInput.t) (e' : Entity.t),
    EntityManager.entities (EntityManager.update brakingManager 1) !! 0%nat = Some e' /\
    Entity.randomVariables e' =
      match MovementOutput.shouldUpdateRandomVariables
              (EntityManager.movementFunction brakingManager input) with
      | Some patch =>
          Entity.randomVariables (Entity.updateRandomVariables brakingEntity patch)
      | None => Entity.randomVariables brakingEntity
      end.
Proof.
  apply (proj2 (proj2 patch_merge) brakingManager 1 0%nat brakingEntity).
  reflexivity.
Defined.

(** ** Orientation *)

Lemma setMatrices_below (es : list Entity.t) k ms j :
  (j < k)%nat -> EntityManager.setMatrices k es ms !! j = ms !! j.
Proof.
  revert k ms. induction es as [| e es IH]; intros k ms Hlt; simpl; [done |].
  rewrite IH by lia. apply list_lookup_insert_ne. lia.
Qed.

Lemma setMatrices_lookup (es : list Entity.t) k ms j e :
  es !! j = Some e -> (k + j < length ms)%nat ->
  EntityManager.setMatrices k es ms !! (k + j)%nat =
  Some (Some (EntityManager.instanceMatrix e)).
Proof.
  revert k ms j. induction es as [| e0 es IH]; intros k ms j He Hlt; [done |].
  destruct j as [| j]; simpl in *.
  - injection He as ->. rewrite Nat.add_0_r in *.
    rewrite setMatrices_below by lia. by apply list_lookup_insert_eq.
  - replace (k + S j)%nat with (S k + j)%nat by lia.
    apply IH; [done |]. rewrite length_insert. lia.
Qed.

(** After [update] the matrix of every instance is the one computed from the
    entity at its index. *)
Lemma update_instancedMesh (m : EntityManager.t) deltaTime ms j e' :
  EntityManager.instancedMesh m = Some ms ->
  (j < length ms)%nat ->
  EntityManager.entities (EntityManager.update m deltaTime) !! j = Some e' ->
  exists ms',
    EntityManager.instancedMesh (EntityManager.update m deltaTime) = Some ms' /\
    ms' !! j = Some (Some (EntityManager.instanceMatrix e')).
Proof.
  intros Hms Hlt. rewrite update_entities.
  unfold EntityManager.update, EntityManager.updateInstancedMesh. simpl.
  rewrite Hms. simpl. fold (entitiesBefore m deltaTime).
  intros He'. eexists. split; [reflexivity |].
  by apply (setMatrices_lookup _ 0%nat).
Qed.

(** C8, amended.  After a tick, the matrix written to the instanced mesh for
    an entity carries the orientation derived from its normalized velocity
    when its speed exceeds 0.1, and the identity orientation otherwise.  It
    is the entity's own mesh that keeps its previous orientation when the
    speed is at most 0.1. *)
Theorem rendered_orientation (m : EntityManager.t) (deltaTime : R)
    (ms : list (option Matrix4.t)) (j : nat) (e : Entity.t) :
  EntityManager.instancedMesh m = Some ms ->
  (j < length ms)%nat ->
  EntityManager.entities m !! j = Some e ->
  exists (e' : Entity.t) (ms' : list (option Matrix4.t)),
    EntityManager.entities (EntityManager.update m deltaTime) !! j = Some e' /\
    EntityManager.instancedMesh (EntityManager.update m deltaTime) = Some ms' /\
    let direction := Vector3.normalize (Entity.velocity e') in
    ms' !! j =
      Some (Some (Matrix4.compose
              (Entity.position e')
              (if Rgt_dec (Vector3.length (Entity.velocity e')) 0.1
               then Quaternion.setFromUnitVectors (Vector3.mk 0 1 0) direction
               else Quaternion.identity)
              (Vector3.mk 1 1 1))) /\
    Mesh.quaternion (Entity.mesh e') =
      if Rgt_dec (Vector3.length (Entity.velocity e')) 0.1
      then Quaternion.setFromUnitVectors (Vector3.mk 0 1 0) direction
      else Mesh.quaternion (Entity.mesh e).
Proof.
  intros Hms Hlt He.
  destruct (update_lookup m deltaTime j e He)
    as (input & e' & He' & _ & Hv & Hmesh & _).
  destruct (update_instancedMesh m deltaTime ms j e' Hms Hlt He')
    as (ms' & Hms' & Hj).
  exists e', ms'. split; [done |]. split; [done |]. split; [exact Hj |].
  rewrite Hmesh, Hv. reflexivity.
Qed.

Lemma rendered_orientation_witness :
  exists (e' : Entity.t) (ms' : list (option Matrix4.t)),
    EntityManager.entities (EntityManager.update brakingManager 1) !! 0%nat = Some e' /\
    EntityManager.instancedMesh (EntityManager.update brakingManager 1) = Some ms' /\
    let direction := Vector3.normalize (Entity.velocity e') in
    ms' !! 0%nat =
      Some (Some (Matrix4.compose
              (Entity.position e')
              (if Rgt_dec (Vector3.length (Entity.velocity e')) 0.1
               then Quaternion.setFromUnitVectors (Vector3.mk 0 1 0) direction
               else Quaternion.identity)
              (Vector3.mk 1 1 1))) /\
    Mesh.quaternion (Entity.mesh e') =
      if Rgt_dec (Vector3.length (Entity.velocity e')) 0.1
      then Quaternion.setFromUnitVectors (Vector3.mk 0 1 0) direction
      else Mesh.quaternion (Entity.mesh brakingEntity).
Proof.
  apply (rendered_orientation brakingManager 1
           [Some (EntityManager.instanceMatrix brakingEntity)] 0 brakingEntity).
  - reflexivity.
  - simpl. lia.
  - reflexivity.
Defined.

Lemma EPSILON_lt_1 : Quaternion.EPSILON < 1.
Proof.
  unfold Quaternion.EPSILON.
  assert (Hpow : 1 < 2 ^ 52) by (apply Rlt_pow_R1; [lra | lia]).
  apply Rlt_le_trans with (/ 1); [| rewrite Rinv_1; lra].
  apply Rinv_lt_contravar; lra.
Qed.

Lemma normalize_z_nonzero (q : Quaternion) :
  Quaternion.z q <> 0 -> Quaternion.z (Quaternion.normalize q) <> 0.
Proof.
  intros Hz. unfold Quaternion.normalize.
  set (l := Quaternion.length q).
  assert (Hl : 0 < l).
  { subst l. unfold Quaternion.length. apply sqrt_lt_R0. nra. }
  destruct (Req_dec_T l 0) as [H0 | Hne]; [lra |]. simpl.
  assert (0 < 1 / l) by (apply Rdiv_lt_0_compat; lra). nra.
Qed.

(** An entity flying along the x axis is not drawn with the identity
    orientation. *)
Lemma brakingEntity_orientation :
  Quaternion.z (renderedOrientation brakingEntity) <> 0.
Proof.
  unfold renderedOrientation, EntityManager.instanceMatrix. simpl.
  rewrite length_x_axis by lra.
  destruct (Rgt_dec 1 0.1) as [_ | Hn]; [| lra]. simpl.
  unfold Vector3.normalize. rewrite length_x_axis by lra.
  destruct (Req_dec_T 1 0) as [H | _]; [lra |].
  unfold Quaternion.setFromUnitVectors. simpl.
  pose proof EPSILON_lt_1.
  destruct (Rlt_dec _ _) as [Hlt | _].
  - unfold Vector3.dot, Vector3.divideScalar in Hlt. simpl in Hlt. lra.
  - apply normalize_z_nonzero. simpl. lra.
Qed.

Lemma brakingManager_created :
  (EntityManager.createEntities
     (EntityManager.new (constantPolicy (Vector3.mk (-1) 0 0)) 50 7 1000)
     1 brakingRandom 0).1 = brakingManager.
Proof.
  unfold EntityManager.createEntities, brakingManager, brakingEntity. simpl.
  assert (Hp : Vector3.mk ((0.5 - 0.5) * 1000 * 0.8) (20 + 0.375 * 80)
                          ((0.5 - 0.5) * 1000 * 0.8) = Vector3.mk 0 50 0)
    by (f_equal; lra).
  assert (Hv : Vector3.mk ((0.6 - 0.5) * 10) ((0.5 - 0.5) * 5) ((0.5 - 0.5) * 10) =
               Vector3.mk 1 0 0)
    by (f_equal; lra).
  by rewrite Hp, Hv.
Qed.

(** C8 as stated fails: [brakingEntity] flies along the x axis and its
    policy brings it to rest within the tick.  Its speed is then at most
    0.1, and the orientation written to the instanced mesh is not the one
    that was there before the tick. *)
Lemma slow_entity_orientation_reset :
  exists (ms ms' : list (option Matrix4.t)) (before after : Matrix4.t) (e' : Entity.t),
    EntityManager.instancedMesh brakingManager = Some ms /\
    ms !! 0%nat = Some (Some before) /\
    EntityManager.entities (EntityManager.update brakingManager 1) !! 0%nat = Some e' /\
    Vector3.length (Entity.velocity e') <= 0.1 /\
    EntityManager.instancedMesh (EntityManager.update brakingManager 1) = Some ms' /\
    ms' !! 0%nat = Some (Some after) /\
    Matrix4.quaternion after <> Matrix4.quaternion before.
Proof.
  destruct (update_lookup brakingManager 1 0%nat brakingEntity eq_refl)
    as (input & e' & He' & _ & Hv & _).
  assert (Hvel : Entity.velocity e' = Vector3.mk 0 0 0).
  { rewrite Hv.
    change (MovementOutput.acceleration _) with (Vector3.mk (-1) 0 0).
    unfold Entity.update. simpl.
    assert (Hw : Vector3.add (Vector3.mk 1 0 0)
                   (Vector3.multiplyScalar (Vector3.mk (-1) 0 0) 1) =
                 Vector3.mk 0 0 0).
    { unfold Vector3.add, Vector3.multiplyScalar. simpl. f_equal; ring. }
    rewrite Hw, length_zero.
    destruct (Rgt_dec 0 Entity.maxSpeed) as [Hgt | _]; [| done].
    unfold Entity.maxSpeed in Hgt. lra. }
  destruct (update_instancedMesh brakingManager 1
              [Some (EntityManager.instanceMatrix brakingEntity)] 0%nat e'
              eq_refl ltac:(simpl; lia) He') as (ms' & Hms' & Hj).
  exists [Some (EntityManager.instanceMatrix brakingEntity)], ms',
         (EntityManager.instanceMatrix brakingEntity),
         (EntityManager.instanceMatrix e'), e'.
  repeat split; try done.
  - rewrite Hvel, length_zero. lra.
  - intros Heq. apply brakingEntity_orientation.
    unfold renderedOrientation. rewrite <- Heq.
    unfold EntityManager.instanceMatrix, Entity.getVelocity. rewrite Hvel, length_zero.
    destruct (Rgt_dec 0 0.1) as [Hgt | _]; [lra | done].
Qed.

(** ** The neighbour query *)

Section Sorting.

Context {A : Type} (key : A -> R).

#[local] Abbreviation byKey := (fun a b : A => key a - key b).
#[local] Abbreviation keyLe := (fun a b : A => key a <= key b).

Lemma insertBy_Permutation a (l : list A) :
  Permutation (EntityManager.insertBy byKey a l) (a :: l).
Proof.
  induction l as [| b l IH]; simpl; [done |].
  destruct (Rle_dec _ _); [done |].
  rewrite IH. apply perm_swap.
Qed.

Lemma sort_Permutation (l : list A) :
  Permutation (EntityManager.sort byKey l) l.
Proof.
  induction l as [| a l IH]; simpl; [done |].
  by rewrite insertBy_Permutation, IH.
Qed.

Lemma insertBy_HdRel a b (l : list A) :
  key b <= key a -> HdRel keyLe b l ->
  HdRel keyLe b (EntityManager.insertBy byKey a l).
Proof.
  intros Hba Hhd. destruct l as [| c l]; simpl.
  - by constructor.
  - destruct (Rle_dec _ _); constructor; [done |].
    by inversion Hhd.
Qed.

Lemma insertBy_Sorted a (l : list A) :
  Sorted keyLe l -> Sorted keyLe (EntityManager.insertBy byKey a l).
Proof.
  induction 1 as [| b l Hsorted IH Hhd]; simpl.
  - repeat constructor.
  - destruct (Rle_dec _ _) as [Hle | Hgt].
    + constructor; [by constructor |]. constructor. lra.
    + constructor; [exact IH |]. apply insertBy_HdRel; [lra | exact Hhd].
Qed.

Lemma sort_Sorted (l : list A) : Sorted keyLe (EntityManager.sort byKey l).
Proof.
  induction l as [| a l IH]; simpl; [constructor |].
  by apply insertBy_Sorted.
Qed.

Lemma Sorted_take n (l : list A) : Sorted keyLe l -> Sorted keyLe (take n l).
Proof.
  intros Hs. revert n. induction Hs as [| a l Hs IH Hhd]; intros [| n]; simpl;
    try constructor.
  - apply IH.
  - destruct Hhd; destruct n; simpl; by constructor.
Qed.

End Sorting.

Lemma insertBy_map {A B : Type} (f : A -> B) (compare : B -> B -> R) a (l : list A) :
  EntityManager.insertBy compare (f a) (map f l) =
  map f (EntityManager.insertBy (fun x y => compare (f x) (f y)) a l).
Proof.
  induction l as [| b l IH]; simpl; [done |].
  destruct (Rle_dec _ _); [done |]. simpl. by rewrite IH.
Qed.

Lemma sort_map {A B : Type} (f : A -> B) (compare : B -> B -> R) (l : list A) :
  EntityManager.sort compare (map f l) =
  map f (EntityManager.sort (fun x y => compare (f x) (f y)) l).
Proof.
  induction l as [| a l IH]; simpl; [done |].
  by rewrite IH, insertBy_map.
Qed.

Section Scan.

Variable position : Vector3.
Variable excludeIndex : nat.
Variable perceptionRadius : R.

#[local] Abbreviation inClose := (fun other : nat * Entity.t =>
  other.1 <> excludeIndex /\
  distanceFrom position other <= perceptionRadius /\
  distanceFrom position other <= EntityManager.closeRange).

#[local] Abbreviation inOuter := (fun other : nat * Entity.t =>
  other.1 <> excludeIndex /\
  distanceFrom position other <= perceptionRadius /\
  EntityManager.closeRange < distanceFrom position other).

Lemma scan_tiers (es : list Entity.t) i close distant :
  EntityManager.scan position excludeIndex perceptionRadius i es close distant =
  (close ++ map (perceive position) (filter inClose (zip (seq i (length es)) es)),
   distant ++ map (perceive position) (filter inOuter (zip (seq i (length es)) es))).
Proof.
  revert i close distant.
  induction es as [| e es IH]; intros i close distant; simpl.
  - by rewrite !app_nil_r.
  - rewrite !filter_cons. unfold Entity.getPosition, Entity.getVelocity.
    change (Vector3.distanceTo position (Entity.position e))
      with (distanceFrom position (i, e)).
    change (NearbyEntity.mk (Entity.position e) (Entity.velocity e)
                            (distanceFrom position (i, e)))
      with (perceive position (i, e)).
    destruct (decide (i = excludeIndex)) as [-> | Hne].
    + rewrite IH.
      rewrite decide_False by (intros (? & _); done).
      rewrite (decide_False (P := _ /\ _ /\ _ < _)) by (intros (? & _); done).
      done.
    + destruct (Rle_dec _ perceptionRadius) as [Hin | Hout].
      * destruct (Rle_dec _ EntityManager.closeRange) as [Hc | Hf].
        -- rewrite IH, decide_True by done.
           rewrite decide_False by (intros (_ & _ & ?); lra).
           simpl. by rewrite <- app_assoc.
        -- rewrite IH, decide_False by (intros (_ & _ & ?); lra).
           rewrite decide_True by (repeat split; [done | done | lra]).
           simpl. by rewrite <- app_assoc.
      * rewrite IH.
        rewrite decide_False by (intros (_ & ? & _); done).
        rewrite (decide_False (P := _ /\ _ /\ _ < _)) by (intros (_ & ? & _); done).
        done.
Qed.

End Scan.

(** The query, tier by tier. *)
Lemma findNearbyEntities_tiers (m : EntityManager.t) position excludeIndex :
  let byDistance :=
    fun a b : nat * Entity.t => distanceFrom position a - distanceFrom position b in
  let close := EntityManager.sort byDistance (closeTier m position excludeIndex) in
  let outer := EntityManager.sort byDistance (outerTier m position excludeIndex) in
  let closePart := take (Nat.min (EntityManager.maxEntityPerception m) 7) close in
  let outerPart :=
    take (EntityManager.maxEntityPerception m - length closePart) outer in
  EntityManager.findNearbyEntities m position excludeIndex =
  map (perceive position) (closePart ++ outerPart).
Proof.
  intros byDistance close outer closePart outerPart.
  unfold EntityManager.findNearbyEntities.
  rewrite scan_tiers. simpl.
  fold (indexed (EntityManager.entities m)).
  fold (closeTier m position excludeIndex) (outerTier m position excludeIndex).
  rewrite !sort_map.
  change (fun x y => EntityManager.compareDistance (perceive position x) (perceive position y))
    with byDistance.
  fold close outer. unfold EntityManager.slice0.
  rewrite <- !fmap_take. rewrite length_fmap. fold closePart.
  rewrite map_app.
  destruct (decide _) as [Hpos | Hzero]; [done |].
  change (~ (0 < EntityManager.maxEntityPerception m - length closePart)%nat) in Hzero.
  assert (Hz : (EntityManager.maxEntityPerception m - length closePart = 0)%nat) by lia.
  subst outerPart. rewrite Hz, take_0. simpl. by rewrite app_nil_r.
Qed.

Lemma NoDup_of_submseteq {A : Type} (l k : list A) : l ⊆+ k -> NoDup k -> NoDup l.
Proof.
  intros [k' Hk]%submseteq_Permutation Hnd.
  rewrite Hk in Hnd. by apply NoDup_app in Hnd as (? & _).
Qed.

Lemma filter_disjoint_submseteq {A : Type} (P Q : A -> Prop)
    `{!forall x, Decision (P x)} `{!forall x, Decision (Q x)} (l : list A) :
  (forall x, P x -> Q x -> False) -> filter P l ++ filter Q l ⊆+ l.
Proof.
  intros Hdisj. induction l as [| x l IH]; [done |].
  rewrite !filter_cons.
  destruct (decide (P x)) as [HP | HnP], (decide (Q x)) as [HQ | HnQ].
  - destruct (Hdisj x HP HQ).
  - simpl. by apply submseteq_skip.
  - rewrite <- Permutation_middle. by apply submseteq_skip.
  - by apply submseteq_cons.
Qed.

Lemma elem_of_indexed (es : list Entity.t) (other : nat * Entity.t) :
  other ∈ indexed es -> es !! other.1 = Some other.2.
Proof.
  unfold indexed. intros (i & j & e & -> & Hj & He)%elem_of_lookup_zip_with.
  apply lookup_seq in Hj as [-> _]. done.
Qed.

Lemma indexed_fst (es : list Entity.t) : (indexed es).*1 = seq 0 (length es).
Proof. unfold indexed. apply fst_zip. by rewrite length_seq. Qed.

Section Query.

Variable m : EntityManager.t.
Variable position : Vector3.
Variable excludeIndex : nat.

Lemma tiers_submseteq :
  closeTier m position excludeIndex ++ outerTier m position excludeIndex
    ⊆+ indexed (EntityManager.entities m).
Proof.
  apply filter_disjoint_submseteq. intros other (_ & _ & Hc) (_ & _ & Hf). lra.
Qed.

Lemma closeTier_spec other :
  other ∈ closeTier m position excludeIndex ->
  other.1 <> excludeIndex /\
  EntityManager.entities m !! other.1 = Some other.2 /\
  distanceFrom position other <= EntityManager.perceptionRadius m /\
  distanceFrom position other <= 20.
Proof.
  intros [(Hne & HR & Hc) Hin%elem_of_indexed]%list_elem_of_filter.
  unfold EntityManager.closeRange in Hc. done.
Qed.

Lemma outerTier_spec other :
  other ∈ outerTier m position excludeIndex ->
  other.1 <> excludeIndex /\
  EntityManager.entities m !! other.1 = Some other.2 /\
  distanceFrom position other <= EntityManager.perceptionRadius m /\
  20 < distanceFrom position other.
Proof.
  intros [(Hne & HR & Hc) Hin%elem_of_indexed]%list_elem_of_filter.
  unfold EntityManager.closeRange in Hc. done.
Qed.

End Query.

(** C2.  The result of [findNearbyEntities] is what the observer records of
    the first [min K 7] agents of the close tier in ascending order of
    distance, followed by the first [K - taken] agents of the outer tier in
    ascending order of distance, where [taken] is the number of close-tier
    agents returned.  The close-tier part holds agents at most 20 away, the
    outer-tier part agents more than 20 and at most [perceptionRadius] away,
    and each part is in ascending order. *)
Theorem findNearbyEntities_tiered (m : EntityManager.t) (position : Vector3)
    (excludeIndex : nat) :
  exists close outer : list (nat * Entity.t),
    close ≡ₚ closeTier m position excludeIndex /\
    ascending position close /\
    outer ≡ₚ outerTier m position excludeIndex /\
    ascending position outer /\
    let closePart := take (Nat.min (EntityManager.maxEntityPerception m) 7) close in
    let outerPart :=
      take (EntityManager.maxEntityPerception m - length closePart) outer in
    EntityManager.findNearbyEntities m position excludeIndex =
      map (perceive position) (closePart ++ outerPart) /\
    ascending position closePart /\
    ascending position outerPart /\
    Forall (fun other => distanceFrom position other <= 20) closePart /\
    Forall (fun other =>
              20 < distanceFrom position other <= EntityManager.perceptionRadius m)
           outerPart.
Proof.
  set (byDistance := fun a b : nat * Entity.t =>
                       distanceFrom position a - distanceFrom position b).
  exists (EntityManager.sort byDistance (closeTier m position excludeIndex)),
         (EntityManager.sort byDistance (outerTier m position excludeIndex)).
  pose proof (sort_Permutation (distanceFrom position)
                (closeTier m position excludeIndex)) as Hpc.
  pose proof (sort_Permutation (distanceFrom position)
                (outerTier m position excludeIndex)) as Hpo.
  pose proof (sort_Sorted (distanceFrom position)
                (closeTier m position excludeIndex)) as Hsc.
  pose proof (sort_Sorted (distanceFrom position)
                (outerTier m position excludeIndex)) as Hso.
  split; [exact Hpc |]. split; [exact Hsc |].
  split; [exact Hpo |]. split; [exact Hso |].
  intros closePart outerPart.
  split; [apply findNearbyEntities_tiers |].
  split; [by apply Sorted_take |]. split; [by apply Sorted_take |].
  subst closePart outerPart byDistance.
  split; apply Forall_forall; intros other Hin.
  - apply (fun H => elem_of_sublist _ _ _ H (sublist_take _ _)) in Hin.
    rewrite Hpc in Hin. by apply closeTier_spec in Hin as (_ & _ & _ & ?).
  - apply (fun H => elem_of_sublist _ _ _ H (sublist_take _ _)) in Hin.
    rewrite Hpo in Hin. apply outerTier_spec in Hin as (_ & _ & ? & ?). done.
Qed.

(** Where the entries of the result come from: agents at pairwise different
    indices of the population, none of which is the excluded index. *)
Lemma findNearbyEntities_picked (m : EntityManager.t) (position : Vector3)
    (excludeIndex : nat) :
  exists picked : list (nat * Entity.t),
    EntityManager.findNearbyEntities m position excludeIndex =
      map (perceive position) picked /\
    NoDup picked.*1 /\
    Forall (fun other =>
              other.1 <> excludeIndex /\
              EntityManager.entities m !! other.1 = Some other.2)
           picked.
Proof.
  rewrite findNearbyEntities_tiers.
  set (byDistance := fun a b : nat * Entity.t =>
                       distanceFrom position a - distanceFrom position b).
  set (K := EntityManager.maxEntityPerception m).
  set (close := EntityManager.sort byDistance (closeTier m position excludeIndex)).
  set (outer := EntityManager.sort byDistance (outerTier m position excludeIndex)).
  set (closePart := take (Nat.min K 7) close).
  set (outerPart := take (K - length closePart) outer).
  assert (Hsub : closePart ++ outerPart ⊆+ indexed (EntityManager.entities m)).
  { etransitivity; [| apply tiers_submseteq].
    etransitivity.
    - apply submseteq_app; apply sublist_submseteq, sublist_take.
    - subst close outer byDistance. by rewrite !sort_Permutation. }
  exists (closePart ++ outerPart). split; [done |]. split.
  - apply (NoDup_of_submseteq _ (indexed (EntityManager.entities m)).*1).
    + by apply fmap_submseteq.
    + rewrite indexed_fst. apply NoDup_seq.
  - apply Forall_forall. intros other Hin.
    apply elem_of_app in Hin as [Hin | Hin];
      apply (fun H => elem_of_sublist _ _ _ H (sublist_take _ _)) in Hin;
      subst close outer byDistance; rewrite sort_Permutation in Hin.
    + by apply closeTier_spec in Hin as (? & ? & _).
    + by apply outerTier_spec in Hin as (? & ? & _).
Qed.

Lemma findNearbyEntities_length (m : EntityManager.t) (position : Vector3)
    (excludeIndex : nat) :
  (length (EntityManager.findNearbyEntities m position excludeIndex)
     <= EntityManager.maxEntityPerception m)%nat.
Proof.
  rewrite findNearbyEntities_tiers, length_map, length_app, !length_take. lia.
Qed.

(** C4.  The result of [findNearbyEntities] has at most
    [maxEntityPerception] entries, and its entries are what the observer
    records of agents at pairwise different indices of the population, none
    of which is the excluded index. *)
Theorem findNearbyEntities_excludes_observer (m : EntityManager.t)
    (position : Vector3) (excludeIndex : nat) :
  (length (EntityManager.findNearbyEntities m position excludeIndex)
     <= EntityManager.maxEntityPerception m)%nat /\
  exists picked : list (nat * Entity.t),
    EntityManager.findNearbyEntities m position excludeIndex =
      map (perceive position) picked /\
    NoDup picked.*1 /\
    Forall (fun other =>
              other.1 <> excludeIndex /\
              EntityManager.entities m !! other.1 = Some other.2)
           picked.
Proof.
  split; [apply findNearbyEntities_length | apply findNearbyEntities_picked].
Qed.

(** ** The order of updates within a tick *)

(** The array that the callback of index [i] reads is the population as
    the specification describes it. *)
Lemma entitiesBefore_seenBy (m : EntityManager.t) (deltaTime : R) (i : nat) :
  (i <= length (EntityManager.entities m))%nat ->
  entitiesBefore m deltaTime i = seenBy m deltaTime i.
Proof.
  intros Hi. unfold seenBy. apply list_eq. intros j.
  assert (Hfinal : length (EntityManager.entities (EntityManager.update m deltaTime))
                   = length (EntityManager.entities m)) by apply update_length.
  destruct (Nat.lt_ge_cases j i) as [Hlt | Hge].
  - rewrite lookup_app_l by (rewrite length_take; lia).
    rewrite lookup_take_lt by exact Hlt.
    rewrite update_entities.
    symmetry. by apply entitiesBefore_settled.
  - rewrite lookup_app_r by (rewrite length_take; lia).
    rewrite length_take, lookup_drop.
    rewrite entitiesBefore_untouched by exact Hge.
    f_equal. lia.
Qed.

(** The neighbour query on a population of two, for either of them, when
    the other is close. *)
Lemma findNearbyEntities_pair_second (m : EntityManager.t) (a b : Entity.t)
    (position : Vector3) :
  EntityManager.entities m = [a; b] ->
  (1 <= EntityManager.maxEntityPerception m)%nat ->
  Vector3.distanceTo position (Entity.position a) <= 20 ->
  Vector3.distanceTo position (Entity.position a) <= EntityManager.perceptionRadius m ->
  EntityManager.findNearbyEntities m position 1 = [perceive position (0%nat, a)].
Proof.
  intros Hes Hcap Hclose Hin.
  unfold EntityManager.findNearbyEntities. rewrite Hes.
  cbn [EntityManager.scan].
  rewrite decide_False by lia. cbn zeta.
  unfold Entity.getPosition, Entity.getVelocity.
  destruct (Rle_dec _ _) as [_ | ?]; [| lra].
  unfold EntityManager.closeRange.
  destruct (Rle_dec _ 20) as [_ | ?]; [| lra].
  rewrite decide_True by lia.
  cbn [app EntityManager.sort EntityManager.insertBy].
  destruct (EntityManager.maxEntityPerception m) as [| K]; [lia |].
  unfold EntityManager.slice0. cbn [Nat.min take length].
  destruct (decide _); rewrite ?take_nil, ?app_nil_r; reflexivity.
Qed.

Lemma findNearbyEntities_pair_first (m : EntityManager.t) (a b : Entity.t)
    (position : Vector3) :
  EntityManager.entities m = [a; b] ->
  (1 <= EntityManager.maxEntityPerception m)%nat ->
  Vector3.distanceTo position (Entity.position b) <= 20 ->
  Vector3.distanceTo position (Entity.position b) <= EntityManager.perceptionRadius m ->
  EntityManager.findNearbyEntities m position 0 = [perceive position (1%nat, b)].
Proof.
  intros Hes Hcap Hclose Hin.
  unfold EntityManager.findNearbyEntities. rewrite Hes.
  cbn [EntityManager.scan].
  rewrite decide_True by lia. rewrite decide_False by lia. cbn zeta.
  unfold Entity.getPosition, Entity.getVelocity.
  destruct (Rle_dec _ _) as [_ | ?]; [| lra].
  unfold EntityManager.closeRange.
  destruct (Rle_dec _ 20) as [_ | ?]; [| lra].
  cbn [app EntityManager.sort EntityManager.insertBy].
  destruct (EntityManager.maxEntityPerception m) as [| K]; [lia |].
  unfold EntityManager.slice0. cbn [Nat.min take length].
  destruct (decide _); rewrite ?take_nil, ?app_nil_r; reflexivity.
Qed.

(** [Entity.update] on the x axis, below the cap. *)
Lemma update_on_x_axis (p v a deltaTime : R) (e : Entity.t) :
  Entity.position e = Vector3.mk p 0 0 ->
  Entity.velocity e = Vector3.mk v 0 0 ->
  0 <= v + a * deltaTime <= 50 ->
  Entity.velocity (Entity.update e (Vector3.mk a 0 0) deltaTime) =
    Vector3.mk (v + a * deltaTime) 0 0 /\
  Entity.position (Entity.update e (Vector3.mk a 0 0) deltaTime) =
    Vector3.mk (p + (v + a * deltaTime) * deltaTime) 0 0.
Proof.
  intros Hp Hv Hw. unfold Entity.update. cbn [Entity.velocity Entity.position].
  rewrite Hp, Hv.
  assert (Hadd : Vector3.add (Vector3.mk v 0 0)
                   (Vector3.multiplyScalar (Vector3.mk a 0 0) deltaTime) =
                 Vector3.mk (v + a * deltaTime) 0 0).
  { unfold Vector3.add, Vector3.multiplyScalar.
    cbn [Vector3.x Vector3.y Vector3.z]. f_equal; ring. }
  rewrite Hadd, length_x_axis by lra.
  destruct (Rgt_dec _ _) as [Hgt | _]; [unfold Entity.maxSpeed in Hgt; lra |].
  split; [reflexivity |].
  unfold Vector3.add, Vector3.multiplyScalar.
  cbn [Vector3.x Vector3.y Vector3.z]. f_equal; ring.
Qed.

Lemma distanceTo_along_x (a b : R) :
  a <= b -> Vector3.distanceTo (Vector3.mk a 0 0) (Vector3.mk b 0 0) = b - a.
Proof.
  intros Hab. unfold Vector3.distanceTo, Vector3.distanceToSquared.
  cbn [Vector3.x Vector3.y Vector3.z].
  replace ((a - b) * (a - b) + (0 - 0) * (0 - 0) + (0 - 0) * (0 - 0))
    with ((b - a) * (b - a)) by ring.
  apply sqrt_square. lra.
Qed.

(** C3.  During [EntityManager.update] the agent at index [i] is updated
    with what the movement function answers to an input whose neighbour
    list is the result of the neighbour query on the population in which
    every agent at an index [j < i] already has the position and velocity
    the tick ends with and every agent at an index [j > i] still has those
    the tick started with.  Every entry of that list records such an
    agent: for [j < i] its post-update, for [j > i] its pre-update position
    and velocity. *)
Theorem update_reads_live_entities (m : EntityManager.t) (deltaTime : R)
    (i : nat) (e : Entity.t) :
  EntityManager.entities m !! i = Some e ->
  let final := EntityManager.entities (EntityManager.update m deltaTime) in
  let input := inputOf m deltaTime i e in
  let output := EntityManager.movementFunction m input in
  let integrated :=
    Entity.update e (MovementOutput.acceleration output) deltaTime in
  final !! i =
    Some (match MovementOutput.shouldUpdateRandomVariables output with
          | Some newVariables =>
              Entity.updateRandomVariables integrated newVariables
          | None => integrated
          end) /\
  (forall j : nat, (j < i)%nat -> seenBy m deltaTime i !! j = final !! j) /\
  (forall j : nat,
     (i <= j)%nat -> seenBy m deltaTime i !! j = EntityManager.entities m !! j) /\
  exists picked : list (nat * Entity.t),
    MovementInput.nearbyEntities input =
      map (perceive (Entity.position e)) picked /\
    NoDup picked.*1 /\
    Forall (fun other =>
              other.1 <> i /\
              ((other.1 < i)%nat -> final !! other.1 = Some other.2) /\
              ((i < other.1)%nat ->
               EntityManager.entities m !! other.1 = Some other.2))
           picked.
Proof.
  intros He. cbn zeta.
  assert (Hlt : (i < length (EntityManager.entities m))%nat)
    by by eapply lookup_lt_Some.
  assert (Hfinal : length (EntityManager.entities (EntityManager.update m deltaTime))
                   = length (EntityManager.entities m)) by apply update_length.
  assert (Hbelow : forall j : nat, (j < i)%nat ->
            seenBy m deltaTime i !! j =
            EntityManager.entities (EntityManager.update m deltaTime) !! j).
  { intros j Hj. unfold seenBy.
    rewrite lookup_app_l by (rewrite length_take; lia).
    by rewrite lookup_take_lt. }
  assert (Habove : forall j : nat, (i <= j)%nat ->
            seenBy m deltaTime i !! j = EntityManager.entities m !! j).
  { intros j Hj. unfold seenBy.
    rewrite lookup_app_r by (rewrite length_take; lia).
    rewrite length_take, lookup_drop. f_equal. lia. }
  split; [| split; [exact Hbelow | split; [exact Habove |]]].
  - rewrite update_entities.
    rewrite (entitiesBefore_settled m deltaTime (S i)) by lia.
    rewrite entitiesBefore_S.
    assert (Hseen : entitiesBefore m deltaTime i !! i = Some e)
      by (by rewrite entitiesBefore_untouched).
    unfold EntityManager.updateEntity. rewrite Hseen.
    rewrite (entitiesBefore_seenBy m deltaTime i) by lia.
    rewrite list_lookup_insert_eq.
    + unfold inputOf.
      by destruct (MovementOutput.shouldUpdateRandomVariables _).
    + rewrite <- (entitiesBefore_seenBy m deltaTime i) by lia.
      by rewrite entitiesBefore_length.
  - unfold inputOf. cbn [MovementInput.nearbyEntities].
    destruct (findNearbyEntities_picked
                (EntityManager.withEntities m (seenBy m deltaTime i))
                (Entity.position e) i) as (picked & Hresult & Hnodup & Hall).
    exists picked. split; [exact Hresult | split; [exact Hnodup |]].
    eapply Forall_impl; [exact Hall |].
    intros other [Hne Hseen]. cbn [EntityManager.withEntities EntityManager.entities] in Hseen.
    split; [exact Hne |]. split; intros Hj.
    + by rewrite <- Hbelow.
    + rewrite <- Habove by lia. exact Hseen.
Qed.

(** Two agents on the x axis under [towardsFirst], a tick of one second.
    The first agent sees the second at rest at (10, 0, 0) and leaves the
    tick at (11, 0, 0) with velocity (11, 0, 0).  The second agent, whose
    turn comes after, sees the first where the tick has just put it, one
    unit away instead of ten, and is accelerated by that position. *)
Lemma update_reads_live_entities_witness :
  MovementInput.nearbyEntities
    (inputOf pairManager 1 1 (Entity.new (Vector3.mk 10 0 0) None)) =
    [NearbyEntity.mk (Vector3.mk 11 0 0) (Vector3.mk 11 0 0) 1] /\
  exists e1' : Entity.t,
    EntityManager.entities (EntityManager.update pairManager 1) !! 1%nat = Some e1' /\
    Entity.velocity e1' = Vector3.mk 11 0 0.
Proof.
  set (e0 := Entity.new (Vector3.mk 0 0 0) (Some (Vector3.mk 1 0 0))).
  set (e1 := Entity.new (Vector3.mk 10 0 0) None).
  destruct (update_reads_live_entities pairManager 1 0 e0 eq_refl)
    as (H0 & _ & _ & _).
  destruct (update_reads_live_entities pairManager 1 1 e1 eq_refl)
    as (H1 & _ & _ & _).
  cbn zeta in H0, H1.
  change (MovementOutput.shouldUpdateRandomVariables
            (EntityManager.movementFunction pairManager (inputOf pairManager 1 0 e0)))
    with (@None (gmap string R)) in H0.
  change (MovementOutput.shouldUpdateRandomVariables
            (EntityManager.movementFunction pairManager (inputOf pairManager 1 1 e1)))
    with (@None (gmap string R)) in H1.
  (* the first agent *)
  assert (Hn0 : MovementInput.nearbyEntities (inputOf pairManager 1 0 e0) =
                [perceive (Vector3.mk 0 0 0) (1%nat, e1)]).
  { unfold inputOf. cbn [MovementInput.nearbyEntities].
    apply (findNearbyEntities_pair_first _ e0 e1).
    - reflexivity.
    - cbn. lia.
    - cbn [Entity.position e1 Entity.new].
      rewrite distanceTo_along_x; lra.
    - cbn [Entity.position e1 Entity.new EntityManager.perceptionRadius
           EntityManager.withEntities pairManager].
      rewrite distanceTo_along_x; lra. }
  assert (Ha0 : MovementOutput.acceleration
                  (EntityManager.movementFunction pairManager
                     (inputOf pairManager 1 0 e0)) = Vector3.mk 10 0 0).
  { cbn [EntityManager.movementFunction pairManager].
    unfold towardsFirst. rewrite Hn0. reflexivity. }
  rewrite Ha0 in H0.
  destruct (update_on_x_axis 0 1 10 1 e0 eq_refl eq_refl ltac:(lra)) as [Hv0 Hp0].
  replace (1 + 10 * 1) with 11 in Hv0 by ring.
  replace (0 + (1 + 10 * 1) * 1) with 11 in Hp0 by ring.
  set (e0' := Entity.update e0 (Vector3.mk 10 0 0) 1) in *.
  (* the second agent *)
  assert (Hseen : seenBy pairManager 1 1 = [e0'; e1]).
  { unfold seenBy.
    destruct (EntityManager.entities (EntityManager.update pairManager 1))
      as [| first rest]; [discriminate |].
    injection H0 as ->. reflexivity. }
  assert (Hn1 : MovementInput.nearbyEntities (inputOf pairManager 1 1 e1) =
                [NearbyEntity.mk (Vector3.mk 11 0 0) (Vector3.mk 11 0 0) 1]).
  { unfold inputOf. cbn [MovementInput.nearbyEntities].
    rewrite Hseen.
    rewrite (findNearbyEntities_pair_second _ e0' e1).
    - unfold perceive. cbn [fst snd]. rewrite Hp0, Hv0.
      cbn [Entity.position e1 Entity.new].
      rewrite distanceTo_along_x by lra. f_equal. f_equal. ring.
    - reflexivity.
    - cbn. lia.
    - rewrite Hp0. cbn [Entity.position e1 Entity.new].
      rewrite distanceTo_along_x; lra.
    - rewrite Hp0. cbn [Entity.position e1 Entity.new EntityManager.perceptionRadius
                        EntityManager.withEntities pairManager].
      rewrite distanceTo_along_x; lra. }
  split; [exact Hn1 |].
  eexists. split; [exact H1 |].
  assert (Ha1 : MovementOutput.acceleration
                  (EntityManager.movementFunction pairManager
                     (inputOf pairManager 1 1 e1)) = Vector3.mk 11 0 0).
  { cbn [EntityManager.movementFunction pairManager].
    unfold towardsFirst. rewrite Hn1. reflexivity. }
  rewrite Ha1.
  destruct (update_on_x_axis 10 0 11 1 e1 eq_refl eq_refl ltac:(lra)) as [Hv1 _].
  rewrite Hv1. f_equal. ring.
Defined.

(** ** The query on a population on a line *)

Lemma distanceTo_x_axis (c : R) :
  0 <= c -> Vector3.distanceTo (Vector3.mk 0 0 0) (Vector3.mk c 0 0) = c.
Proof.
  intros Hc. unfold Vector3.distanceTo, Vector3.distanceToSquared. simpl.
  replace ((0 - c) * (0 - c) + (0 - 0) * (0 - 0) + (0 - 0) * (0 - 0))
    with (c * c) by ring.
  by apply sqrt_square.
Qed.

(** Decide the next test of the scan or of the sort. *)
Ltac decide_branch :=
  first
    [ rewrite decide_True by lia
    | rewrite decide_False by lia
    | match goal with
      | |- context [Rle_dec ?a ?b] =>
          destruct (Rle_dec a b);
          try (exfalso; unfold EntityManager.closeRange in *; lra)
      end ];
  cbn -[Rle_dec Vector3.distanceTo decide].

(** The observer at index 2 is left out, the two close agents come first and
    nearest first, one slot is left for the outer tier, and the agent at 60
    is out of range; with a cap of 1 only the nearest agent is returned. *)
Example findNearbyEntities_line :
  EntityManager.findNearbyEntities (lineManager 3) (Vector3.mk 0 0 0) 2 =
    [lineNearby 1; lineNearby 3; lineNearby 25] /\
  EntityManager.findNearbyEntities (lineManager 1) (Vector3.mk 0 0 0) 2 =
    [lineNearby 1].
Proof.
  unfold EntityManager.findNearbyEntities, lineManager, lineEntity, Entity.new,
    EntityManager.compareDistance, lineNearby.
  cbn -[Rle_dec Vector3.distanceTo decide].
  rewrite !distanceTo_x_axis by lra.
  repeat decide_branch.
  done.
Qed.

(** ** Creating and randomizing the population *)

Section Randomization.

Variable terrainSize : R.
Variable random : nat -> R.
Hypothesis terrainSize_nonneg : 0 <= terrainSize.
Hypothesis random_unit : forall k, 0 <= random k < 1.

Lemma horizontal_range k :
  - 0.4 * terrainSize <= (random k - 0.5) * terrainSize * 0.8 <= 0.4 * terrainSize.
Proof. pose proof (random_unit k). nra. Qed.

Lemma height_range k : 20 <= 20 + random k * 80 <= 100.
Proof. pose proof (random_unit k). lra. Qed.

Lemma createLoop_spec count n (entities : list Entity.t) :
  exists created : list Entity.t,
    EntityManager.createLoop terrainSize random count n entities =
      (entities ++ created, (n + 6 * count)%nat) /\
    length created = count /\
    Forall (fun e => withinSpawnArea terrainSize e /\ withinSpawnVelocity e) created.
Proof.
  revert n entities. induction count as [| count IH]; intros n entities; simpl.
  - exists []. rewrite app_nil_r, Nat.add_0_r. done.
  - destruct (IH (n + 6)%nat (entities ++
      [Entity.new
         (Vector3.mk ((random n - 0.5) * terrainSize * 0.8)
                     (20 + random (n + 1)%nat * 80)
                     ((random (n + 2)%nat - 0.5) * terrainSize * 0.8))
         (Some (Vector3.mk ((random (n + 3)%nat - 0.5) * 10)
                           ((random (n + 4)%nat - 0.5) * 5)
                           ((random (n + 5)%nat - 0.5) * 10)))]))
      as (created & -> & Hlen & Hall).
    eexists (_ :: created). split; [| split].
    + f_equal; [by rewrite <- app_assoc | lia].
    + simpl. by rewrite Hlen.
    + constructor; [| exact Hall].
      unfold withinSpawnArea, withinSpawnVelocity. simpl.
      pose proof (horizontal_range n). pose proof (height_range (n + 1)).
      pose proof (horizontal_range (n + 2)).
      pose proof (random_unit (n + 3)). pose proof (random_unit (n + 4)).
      pose proof (random_unit (n + 5)).
      repeat split; lra.
Qed.

Lemma randomizeLoop_spec n (entities : list Entity.t) :
  length (randomizeLoop terrainSize random n entities).1 = length entities /\
  Entity.randomVariables <$> (randomizeLoop terrainSize random n entities).1 =
    Entity.randomVariables <$> entities /\
  Forall (fun e => withinSpawnArea terrainSize e /\ withinSpawnVelocity e)
         (randomizeLoop terrainSize random n entities).1.
Proof.
  revert n. induction entities as [| e entities IH]; intros n; simpl.
  - repeat split; constructor.
  - destruct (IH (n + 6)%nat) as (Hlen & Hvars & Hall).
    destruct (randomizeLoop terrainSize random (n + 6) entities) as [rest n'].
    simpl in *. split; [by rewrite Hlen |]. split; [by f_equal |].
    constructor; [| exact Hall].
    unfold withinSpawnArea, withinSpawnVelocity. simpl.
    pose proof (horizontal_range n). pose proof (height_range (n + 1)).
    pose proof (horizontal_range (n + 2)).
    pose proof (random_unit (n + 3)). pose proof (random_unit (n + 4)).
    pose proof (random_unit (n + 5)).
    repeat split; lra.
Qed.

End Randomization.

Lemma updateInstancedMesh_entities (m : EntityManager.t) :
  EntityManager.entities (EntityManager.updateInstancedMesh m) =
  EntityManager.entities m.
Proof.
  unfold EntityManager.updateInstancedMesh.
  by destruct (EntityManager.instancedMesh m).
Qed.

Lemma createInstancedMesh_entities (m : EntityManager.t) :
  EntityManager.entities (EntityManager.createInstancedMesh m) =
  EntityManager.entities m.
Proof.
  unfold EntityManager.createInstancedMesh.
  destruct (EntityManager.entities m) eqn:He; [done |].
  by rewrite updateInstancedMesh_entities.
Qed.

(** C9.  Given results of [Math.random()] in [0, 1) and a terrain size that
    is not negative, [createEntities] appends exactly [count] entities whose
    x and z coordinates lie within 0.4 times the terrain size of the origin,
    whose height lies within [20, 100] and whose velocity lies within
    [-5, 5], [-2.5, 2.5] and [-5, 5] on the three axes.  Randomizing the
    population keeps its size and every variable map and puts every entity
    within the same ranges, which on a terrain of size 1000 are [-400, 400]
    for x and z and [20, 100] for the height. *)
Theorem population_initialization (m : EntityManager.t) (random : nat -> R)
    (count n : nat) :
  0 <= EntityManager.terrainSize m ->
  (forall k, 0 <= random k < 1) ->
  let spawned e :=
    withinSpawnArea (EntityManager.terrainSize m) e /\ withinSpawnVelocity e in
  (exists created : list Entity.t,
     EntityManager.entities (EntityManager.createEntities m count random n).1 =
       EntityManager.entities m ++ created /\
     length created = count /\
     Forall spawned created) /\
  let randomized := EntityManager.entities (randomizeEntities m random n).1 in
  length randomized = length (EntityManager.entities m) /\
  Entity.randomVariables <$> randomized =
    Entity.randomVariables <$> EntityManager.entities m /\
  Forall spawned randomized /\
  (EntityManager.terrainSize m = 1000 ->
   Forall (fun e =>
             - 400 <= Vector3.x (Entity.position e) <= 400 /\
             20 <= Vector3.y (Entity.position e) <= 100 /\
             - 400 <= Vector3.z (Entity.position e) <= 400)
          randomized).
Proof.
  intros HT Hrandom spawned. split.
  - destruct (createLoop_spec (EntityManager.terrainSize m) random HT Hrandom
                count n (EntityManager.entities m)) as (created & Hloop & Hlen & Hall).
    exists created. unfold EntityManager.createEntities. rewrite Hloop. simpl.
    by rewrite createInstancedMesh_entities.
  - intros randomized.
    destruct (randomizeLoop_spec (EntityManager.terrainSize m) random HT Hrandom
                n (EntityManager.entities m)) as (Hlen & Hvars & Hall).
    assert (Heq : randomized =
                  (randomizeLoop (EntityManager.terrainSize m) random n
                                 (EntityManager.entities m)).1).
    { subst randomized. unfold randomizeEntities.
      destruct (randomizeLoop _ _ _ _) as [es n']. simpl.
      by rewrite updateInstancedMesh_entities. }
    rewrite Heq. split; [done |]. split; [done |]. split; [done |].
    intros H1000. eapply Forall_impl; [exact Hall |].
    intros e [(Hx & Hy & Hz) _]. rewrite H1000 in *. repeat split; lra.
Qed.

Lemma population_initialization_witness :
  (exists created : list Entity.t,
     EntityManager.entities
       (EntityManager.createEntities emptyManager 2 halfRandom 0).1 =
       EntityManager.entities emptyManager ++ created /\
     length created = 2%nat /\
     Forall (fun e => withinSpawnArea 1000 e /\ withinSpawnVelocity e) created) /\
  length (EntityManager.entities (randomizeEntities emptyManager halfRandom 0).1) =
    length (EntityManager.entities emptyManager).
Proof.
  destruct (population_initialization emptyManager halfRandom 2 0) as [Hcreate Hrandomize].
  - simpl. lra.
  - intros k. unfold halfRandom. lra.
  - split; [exact Hcreate | apply Hrandomize].
Defined.

(** ** Sharing between a [MovementInput] and the entities *)

Section Allocation.

Implicit Types h : Heap.heap.

Lemma alloc_inv o h (r : Heap.ref) h' :
  Heap.alloc o h = (r, h') -> (r ∉ dom h) /\ (h ⊆ h') /\ (h' !! r = Some o).
Proof.
  unfold Heap.alloc. intros [= <- <-].
  pose proof (is_fresh (dom h)) as Hfresh.
  split; [exact Hfresh |]. split.
  - apply insert_subseteq. by apply not_elem_of_dom.
  - apply lookup_insert_eq.
Qed.

#[local] Arguments Heap.alloc : simpl never.

Lemma not_in_dom_weaken h0 h (r : Heap.ref) : h0 ⊆ h -> (r ∉ dom h) -> r ∉ dom h0.
Proof. intros Hsub Hr Hin. apply Hr. by apply (subseteq_dom h0 h). Qed.

Lemma vectorAt_weaken h h' (r : Heap.ref) :
  h ⊆ h' -> r ∈ dom h -> Heap.vectorAt h' r = Heap.vectorAt h r.
Proof.
  intros Hsub [o Ho]%elem_of_dom. unfold Heap.vectorAt.
  by rewrite (lookup_weaken _ _ _ _ Ho Hsub), Ho.
Qed.

Lemma mapAt_weaken h h' (r : Heap.ref) :
  h ⊆ h' -> r ∈ dom h -> Heap.mapAt h' r = Heap.mapAt h r.
Proof.
  intros Hsub [o Ho]%elem_of_dom. unfold Heap.mapAt.
  by rewrite (lookup_weaken _ _ _ _ Ho Hsub), Ho.
Qed.

Lemma getState_fresh e h :
  let state := (Heap.getState e h).1 in
  let h' := (Heap.getState e h).2 in
  (h ⊆ h') /\
  (Heap.EntityState.position state ∉ dom h) /\
  (Heap.EntityState.velocity state ∉ dom h) /\
  (Heap.EntityState.randomVariables state ∉ dom h).
Proof.
  unfold Heap.getState, Heap.clone, Heap.newMap.
  destruct (Heap.alloc _ h) as [p h1] eqn:E1.
    apply alloc_inv in E1 as (Hp & Hs1 & _).
  destruct (Heap.alloc _ h1) as [v h2] eqn:E2.
    apply alloc_inv in E2 as (Hv & Hs2 & _).
  destruct (Heap.alloc _ h2) as [vars h3] eqn:E3.
    apply alloc_inv in E3 as (Hm & Hs3 & _).
  simpl. split; [by do 2 (etransitivity; [eassumption |]) |].
  split; [done |].
  split; [by eapply not_in_dom_weaken |].
  eapply not_in_dom_weaken; [| exact Hm]. by etransitivity.
Qed.

Lemma scan_fresh h0 position excludeIndex perceptionRadius entities :
  forall i close distant h,
    h0 ⊆ h -> Forall (freshNearby h0) close -> Forall (freshNearby h0) distant ->
    let result :=
      Heap.scan position excludeIndex perceptionRadius i entities close distant h in
    (h ⊆ result.2) /\
    Forall (freshNearby h0) result.1.1 /\ Forall (freshNearby h0) result.1.2.
Proof.
  induction entities as [| e entities IH]; intros i close distant h Hsub Hc Hd;
    cbn [Heap.scan].
  - done.
  - destruct (decide (i = excludeIndex)); [by apply IH |].
    unfold Heap.getPosition, Heap.getVelocity, Heap.clone.
    destruct (Heap.alloc _ h) as [p h1] eqn:E1.
    apply alloc_inv in E1 as (Hp & Hs1 & _).
    assert (Hsub1 : h0 ⊆ h1) by by etransitivity.
    destruct (Rle_dec _ perceptionRadius).
    + destruct (Heap.alloc _ h1) as [v h2] eqn:E2.
    apply alloc_inv in E2 as (Hv & Hs2 & _).
      assert (Hsub2 : h0 ⊆ h2) by by etransitivity.
      assert (Hnew : freshNearby h0
                (Heap.NearbyEntity.mk p v
                   (Vector3.distanceTo (Heap.vectorAt h1 position) (Heap.vectorAt h1 p)))).
      { split; simpl.
        - exact (not_in_dom_weaken h0 h p Hsub Hp).
        - exact (not_in_dom_weaken h0 h1 v Hsub1 Hv). }
      destruct (Rle_dec _ EntityManager.closeRange).
      * edestruct (IH (S i) (close ++ [Heap.NearbyEntity.mk p v
                   (Vector3.distanceTo (Heap.vectorAt h1 position) (Heap.vectorAt h1 p))])
                   distant h2) as (Hs & ? & ?); [done | | done |].
        { apply Forall_app. split; [done | by constructor]. }
        split; [| done]. by do 2 (etransitivity; [eassumption |]).
      * edestruct (IH (S i) close (distant ++ [Heap.NearbyEntity.mk p v
                   (Vector3.distanceTo (Heap.vectorAt h1 position) (Heap.vectorAt h1 p))])
                   h2) as (Hs & ? & ?); [done | done | |].
        { apply Forall_app. split; [done | by constructor]. }
        split; [| done]. by do 2 (etransitivity; [eassumption |]).
    + edestruct (IH (S i) close distant h1) as (Hs & ? & ?); [done | done | done |].
      split; [| done]. by etransitivity.
Qed.

Lemma sort_Forall {A : Type} (P : A -> Prop) compare (l : list A) :
  Forall P l -> Forall P (EntityManager.sort compare l).
Proof.
  intros Hall. induction l as [| a l IH]; simpl; [done |].
  apply Forall_cons in Hall as [Ha Hl]. specialize (IH Hl).
  revert IH. generalize (EntityManager.sort compare l). intros sorted.
  induction 1 as [| b rest Hb Hrest IHrest]; simpl.
  - by repeat constructor.
  - destruct (Rle_dec _ _); repeat constructor; done.
Qed.

Lemma findNearbyEntities_fresh entities perceptionRadius maxEntityPerception
    position excludeIndex h :
  let result :=
    Heap.findNearbyEntities entities perceptionRadius maxEntityPerception
                            position excludeIndex h in
  (h ⊆ result.2) /\ Forall (freshNearby h) result.1.
Proof.
  unfold Heap.findNearbyEntities.
  pose proof (scan_fresh h position excludeIndex perceptionRadius entities
                0 [] [] h (reflexivity h) (Forall_nil_2 _) (Forall_nil_2 _))
    as (Hsub & Hc & Hd).
  destruct (Heap.scan _ _ _ _ _ _ _ _) as [[close distant] h']. cbn [fst snd] in *.
  split; [done |]. unfold EntityManager.slice0.
  destruct (decide _).
  - apply Forall_app. split; apply Forall_take; by apply sort_Forall.
  - apply Forall_take. by apply sort_Forall.
Qed.

Lemma terrainSamples_fresh h0 sampleCount :
  forall h, h0 ⊆ h ->
    let result := Heap.terrainSamples sampleCount h in
    (h ⊆ result.2) /\
    Forall (fun t => Heap.TerrainInfo.normal t ∉ dom h0) result.1.
Proof.
  induction sampleCount as [| k IH]; intros h Hsub; cbn [Heap.terrainSamples];
    [done |].
  destruct (Heap.alloc _ h) as [normal h1] eqn:E1.
    apply alloc_inv in E1 as (Hn & Hs1 & _).
  destruct (IH h1) as (Hs & Hall); [by etransitivity |].
  destruct (Heap.terrainSamples k h1) as [rest h2]. cbn [fst snd] in *.
  split; [by etransitivity |].
  constructor; [| done]. simpl. by eapply not_in_dom_weaken.
Qed.

Lemma movementInput_fresh entities perceptionRadius maxEntityPerception
    entity index deltaTime h :
  let result :=
    Heap.movementInput entities perceptionRadius maxEntityPerception
                       entity index deltaTime h in
  (h ⊆ result.2) /\ Forall (fun r => r ∉ dom h) (Heap.reachable result.1).
Proof.
  unfold Heap.movementInput.
  pose proof (getState_fresh entity h) as (Hs1 & Hp & Hv & Hm).
  destruct (Heap.getState entity h) as [state h1]. cbn [fst snd] in *.
  pose proof (findNearbyEntities_fresh entities perceptionRadius maxEntityPerception
                (Heap.EntityState.position state) index h1) as (Hs2 & Hnear).
  destruct (Heap.findNearbyEntities _ _ _ _ _ h1) as [nearby h2]. cbn [fst snd] in *.
  unfold Heap.getTerrainAhead.
  pose proof (terrainSamples_fresh h 5 h2 ltac:(by etransitivity)) as (Hs3 & Hterrain).
  destruct (Heap.terrainSamples 5 h2) as [terrain h3]. cbn [fst snd] in *.
  split; [by transitivity h1; [| transitivity h2] |].
  unfold Heap.reachable. simpl.
  repeat (constructor; [done |]).
  apply Forall_app. split.
  - apply Forall_bind. eapply Forall_impl; [exact Hnear |].
    intros n [Hnp Hnv]. repeat constructor; by eapply not_in_dom_weaken.
  - by apply Forall_fmap.
Qed.

End Allocation.


Section Refinement.

Implicit Types h : Heap.heap.

Lemma clone_value (r p : Heap.ref) h h' :
  Heap.clone r h = (p, h') ->
  (h ⊆ h') /\ (p ∈ dom h') /\ Heap.vectorAt h' p = Heap.vectorAt h r.
Proof.
  intros (_ & Hsub & Hp)%alloc_inv. split; [done |]. split.
  - apply elem_of_dom. eauto.
  - unfold Heap.vectorAt at 1. by rewrite Hp.
Qed.

Lemma newMap_value (r p : Heap.ref) h h' :
  Heap.newMap r h = (p, h') ->
  (h ⊆ h') /\ (p ∈ dom h') /\ Heap.mapAt h' p = Heap.mapAt h r.
Proof.
  intros (_ & Hsub & Hp)%alloc_inv. split; [done |]. split.
  - apply elem_of_dom. eauto.
  - unfold Heap.mapAt at 1. by rewrite Hp.
Qed.

Lemma dom_weaken h h' (r : Heap.ref) : h ⊆ h' -> r ∈ dom h -> r ∈ dom h'.
Proof. intros Hsub. by apply (subseteq_dom h h'). Qed.

Lemma nearbyAllocated_weaken h h' n :
  h ⊆ h' -> nearbyAllocated h n -> nearbyAllocated h' n.
Proof. intros Hsub [? ?]. split; by eapply dom_weaken. Qed.

Lemma nearbyValue_weaken h h' (l : list Heap.NearbyEntity.t) :
  h ⊆ h' -> Forall (nearbyAllocated h) l ->
  nearbyValue h' <$> l = nearbyValue h <$> l.
Proof.
  intros Hsub Hall. apply Forall_fmap_ext_1.
  eapply Forall_impl; [exact Hall |]. intros n [Hp Hv].
  unfold nearbyValue. by rewrite !(vectorAt_weaken h h').
Qed.

Lemma represents_weaken h h' r e : h ⊆ h' -> represents h r e -> represents h' r e.
Proof.
  intros Hsub ((Hp & Hv & Hm) & Ep & Ev & Em).
  split; [repeat split; by eapply dom_weaken |].
  by rewrite Ep, Ev, Em, !(vectorAt_weaken h h'), (mapAt_weaken h h').
Qed.

Lemma getState_value r e h state h' :
  represents h r e ->
  Heap.getState r h = (state, h') ->
  (h ⊆ h') /\
  (Heap.EntityState.position state ∈ dom h') /\
  (Heap.EntityState.velocity state ∈ dom h') /\
  (Heap.EntityState.randomVariables state ∈ dom h') /\
  stateValue h' state = Entity.getState e.
Proof.
  intros ((Hp & Hv & Hm) & Ep & Ev & Em). unfold Heap.getState.
  destruct (Heap.clone _ h) as [p h1] eqn:E1.
  apply clone_value in E1 as (Hs1 & Hp1 & Vp).
  destruct (Heap.clone _ h1) as [v h2] eqn:E2.
  apply clone_value in E2 as (Hs2 & Hv2 & Vv).
  destruct (Heap.newMap _ h2) as [vars h3] eqn:E3.
  apply newMap_value in E3 as (Hs3 & Hm3 & Vm).
  intros [= <- <-]. simpl.
  assert (Hs12 : h ⊆ h2) by by transitivity h1.
  split; [by transitivity h2 |].
  split; [eapply dom_weaken; [| exact Hp1]; by transitivity h2 |].
  split; [by eapply dom_weaken |]. split; [done |].
  unfold stateValue, Entity.getState. simpl.
  rewrite (vectorAt_weaken h1 h3) by (by transitivity h2 || done).
  rewrite (vectorAt_weaken h2 h3) by done.
  rewrite Vp, Vv, Vm, Ep, Ev, Em.
  by rewrite (vectorAt_weaken h h1), (mapAt_weaken h h2).
Qed.

Lemma scan_value h (pos : Heap.ref) (P : Vector3) excludeIndex perceptionRadius
    (rs : list Heap.Entity.t) (es : list Entity.t) :
  Forall2 (represents h) rs es ->
  forall i close distant hcur,
    h ⊆ hcur -> pos ∈ dom hcur -> Heap.vectorAt hcur pos = P ->
    Forall (nearbyAllocated hcur) close -> Forall (nearbyAllocated hcur) distant ->
    let result :=
      Heap.scan pos excludeIndex perceptionRadius i rs close distant hcur in
    let resultV :=
      EntityManager.scan P excludeIndex perceptionRadius i es
        (nearbyValue hcur <$> close) (nearbyValue hcur <$> distant) in
    (hcur ⊆ result.2) /\
    Forall (nearbyAllocated result.2) result.1.1 /\
    Forall (nearbyAllocated result.2) result.1.2 /\
    nearbyValue result.2 <$> result.1.1 = resultV.1 /\
    nearbyValue result.2 <$> result.1.2 = resultV.2.
Proof.
  induction 1 as [| r e rs es Hre Hrest IH];
    intros i close distant hcur Hsub Hpos HP Hc Hd;
    cbn [Heap.scan EntityManager.scan].
  - done.
  - destruct (decide (i = excludeIndex)); [by apply IH |].
    unfold Heap.getPosition, Heap.getVelocity, Entity.getPosition, Entity.getVelocity.
    destruct (Heap.clone _ hcur) as [p h1] eqn:E1.
    apply clone_value in E1 as (Hs1 & Hp1 & Vp).
    pose proof (represents_weaken h hcur r e Hsub Hre)
      as ((Hrp & Hrv & _) & Ep & Ev & _).
    rewrite (vectorAt_weaken hcur h1) by done.
    rewrite HP, Vp, <- Ep.
    assert (Hpos1 : pos ∈ dom h1) by by eapply dom_weaken.
    assert (HP1 : Heap.vectorAt h1 pos = P) by by rewrite (vectorAt_weaken hcur h1).
    destruct (Rle_dec _ perceptionRadius).
    + destruct (Heap.clone _ h1) as [v h2] eqn:E2.
      apply clone_value in E2 as (Hs2 & Hv2 & Vv).
      assert (Hs02 : hcur ⊆ h2) by by transitivity h1.
      assert (Hnew : nearbyAllocated h2
                (Heap.NearbyEntity.mk p v (Vector3.distanceTo P (Entity.position e)))).
      { split; simpl; [exact (dom_weaken h1 h2 p Hs2 Hp1) | done]. }
      assert (Hval : nearbyValue h2
                (Heap.NearbyEntity.mk p v (Vector3.distanceTo P (Entity.position e))) =
              NearbyEntity.mk (Entity.position e) (Entity.velocity e)
                (Vector3.distanceTo P (Entity.position e))).
      { unfold nearbyValue. simpl.
        rewrite (vectorAt_weaken h1 h2) by done.
        rewrite Vp, Vv, (vectorAt_weaken hcur h1) by done. by rewrite Ep, Ev. }
      assert (Hc2 : Forall (nearbyAllocated h2) close)
        by (eapply Forall_impl; [exact Hc |]; intros ?; by apply nearbyAllocated_weaken).
      assert (Hd2 : Forall (nearbyAllocated h2) distant)
        by (eapply Forall_impl; [exact Hd |]; intros ?; by apply nearbyAllocated_weaken).
      destruct (Rle_dec _ EntityManager.closeRange).
      * edestruct (IH (S i) (close ++ [Heap.NearbyEntity.mk p v
                     (Vector3.distanceTo P (Entity.position e))]) distant h2)
          as (Hs & ? & ? & Hcv & Hdv).
        { by transitivity hcur. } { exact (dom_weaken h1 h2 pos Hs2 Hpos1). }
        { by rewrite (vectorAt_weaken h1 h2). }
        { apply Forall_app. split; [done | by constructor]. } { done. }
        split; [by transitivity h2 |]. split; [done |]. split; [done |].
        rewrite Hcv, Hdv, fmap_app. simpl. rewrite Hval.
        by rewrite !(nearbyValue_weaken hcur h2).
      * edestruct (IH (S i) close (distant ++ [Heap.NearbyEntity.mk p v
                     (Vector3.distanceTo P (Entity.position e))]) h2)
          as (Hs & ? & ? & Hcv & Hdv).
        { by transitivity hcur. } { exact (dom_weaken h1 h2 pos Hs2 Hpos1). }
        { by rewrite (vectorAt_weaken h1 h2). }
        { done. } { apply Forall_app. split; [done | by constructor]. }
        split; [by transitivity h2 |]. split; [done |]. split; [done |].
        rewrite Hcv, Hdv, fmap_app. simpl. rewrite Hval.
        by rewrite !(nearbyValue_weaken hcur h2).
    + edestruct (IH (S i) close distant h1) as (Hs & ? & ? & Hcv & Hdv).
      { by transitivity hcur. } { done. } { done. }
      { eapply Forall_impl; [exact Hc |]. intros ?. by apply nearbyAllocated_weaken. }
      { eapply Forall_impl; [exact Hd |]. intros ?. by apply nearbyAllocated_weaken. }
      split; [by transitivity h1 |]. split; [done |]. split; [done |].
      rewrite Hcv, Hdv. by rewrite !(nearbyValue_weaken hcur h1).
Qed.


Lemma sort_nearbyValue h (l : list Heap.NearbyEntity.t) :
  nearbyValue h <$> EntityManager.sort Heap.compareDistance l =
  EntityManager.sort EntityManager.compareDistance (nearbyValue h <$> l).
Proof. symmetry. apply (sort_map (nearbyValue h)). Qed.

Lemma findNearbyEntities_value h (m : EntityManager.t) (rs : list Heap.Entity.t)
    (pos : Heap.ref) excludeIndex hcur :
  Forall2 (represents h) rs (EntityManager.entities m) ->
  h ⊆ hcur -> pos ∈ dom hcur ->
  let result :=
    Heap.findNearbyEntities rs (EntityManager.perceptionRadius m)
      (EntityManager.maxEntityPerception m) pos excludeIndex hcur in
  (hcur ⊆ result.2) /\
  Forall (nearbyAllocated result.2) result.1 /\
  nearbyValue result.2 <$> result.1 =
    EntityManager.findNearbyEntities m (Heap.vectorAt hcur pos) excludeIndex.
Proof.
  intros Hrep Hsub Hpos.
  unfold Heap.findNearbyEntities, EntityManager.findNearbyEntities.
  pose proof (scan_value h pos (Heap.vectorAt hcur pos) excludeIndex
                (EntityManager.perceptionRadius m) rs (EntityManager.entities m)
                Hrep 0%nat [] [] hcur Hsub Hpos eq_refl
                (Forall_nil_2 _) (Forall_nil_2 _)) as (Hs & Hc & Hd & Hcv & Hdv).
  destruct (Heap.scan _ _ _ _ _ _ _ _) as [[close distant] h'].
  cbn [fmap list_fmap] in Hcv, Hdv.
  destruct (EntityManager.scan _ _ _ _ _ _ _) as [closeV distantV].
  cbn [fst snd] in *. subst closeV distantV.
  unfold EntityManager.slice0. rewrite <- !sort_nearbyValue, <- !fmap_take, !length_fmap.
  split; [done |].
  destruct (decide _).
  - split; [| by rewrite fmap_app].
    apply Forall_app. split; apply Forall_take; by apply sort_Forall.
  - split; [| done]. apply Forall_take. by apply sort_Forall.
Qed.

Lemma terrainSamples_value sampleCount :
  forall h,
    let result := Heap.terrainSamples sampleCount h in
    (h ⊆ result.2) /\
    terrainValue result.2 <$> result.1 =
      replicate sampleCount (TerrainInfo.mk 0 field (Vector3.mk 0 1 0)).
Proof.
  induction sampleCount as [| k IH]; intros h; cbn [Heap.terrainSamples]; [done |].
  destruct (Heap.alloc _ h) as [normal h1] eqn:E1.
  apply alloc_inv in E1 as (_ & Hs1 & Hn).
  destruct (IH h1) as (Hs & Hval).
  destruct (Heap.terrainSamples k h1) as [rest h2]. cbn [fst snd] in *.
  split; [by transitivity h1 |].
  rewrite fmap_cons, Hval. cbn [replicate]. f_equal.
  unfold terrainValue, Heap.vectorAt. simpl.
  by rewrite (lookup_weaken _ _ _ _ Hn Hs).
Qed.

(** The input built over the store is, read back as values, the input that
    [EntityManager.updateEntity] hands to the movement function. *)
Lemma movementInput_value h (m : EntityManager.t) (rs : list Heap.Entity.t)
    (r : Heap.Entity.t) (e : Entity.t) index deltaTime :
  Forall2 (represents h) rs (EntityManager.entities m) ->
  represents h r e ->
  let result :=
    Heap.movementInput rs (EntityManager.perceptionRadius m)
      (EntityManager.maxEntityPerception m) r index deltaTime h in
  inputValue result.2 result.1 =
  MovementInput.mk
    (Entity.getState e)
    (EntityManager.findNearbyEntities m (Entity.position e) index)
    (EntityManager.getTerrainAhead (Entity.position e) (Entity.velocity e))
    deltaTime.
Proof.
  intros Hrep Hre. unfold Heap.movementInput.
  destruct (Heap.getState r h) as [state h1] eqn:E1.
  apply (getState_value r e) in E1 as (Hs1 & Hp1 & Hv1 & Hm1 & Hstate); [| done].
  pose proof (findNearbyEntities_value h m rs (Heap.EntityState.position state)
                index h1 Hrep Hs1 Hp1) as (Hs2 & Hnear & Hnv).
  destruct (Heap.findNearbyEntities _ _ _ _ _ h1) as [nearby h2].
  cbn [fst snd] in *.
  unfold Heap.getTerrainAhead.
  pose proof (terrainSamples_value 5 h2) as (Hs3 & Htv).
  destruct (Heap.terrainSamples 5 h2) as [terrain h3]. cbn [fst snd] in *.
  assert (Hstate3 : stateValue h3 state = Entity.getState e).
  { rewrite <- Hstate. unfold stateValue.
    by rewrite !(vectorAt_weaken h1 h3), (mapAt_weaken h1 h3)
      by (done || by transitivity h2). }
  assert (Hnear3 : nearbyValue h3 <$> nearby =
                   EntityManager.findNearbyEntities m (Entity.position e) index).
  { rewrite (nearbyValue_weaken h2 h3), Hnv by done.
    f_equal. change (Entity.position e)
      with (EntityState.position (Entity.getState e)).
    by rewrite <- Hstate. }
  unfold inputValue.
  cbn [Heap.MovementInput.currentState Heap.MovementInput.nearbyEntities
       Heap.MovementInput.terrainAhead Heap.MovementInput.deltaTime].
  by rewrite Hstate3, Hnear3, Htv.
Qed.

End Refinement.

(** The objects of [h] are out of reach of a callee that was handed the
    input built in [h]. *)
Lemma movementInput_frame (rs : list Heap.Entity.t) perceptionRadius
    maxEntityPerception (r : Heap.Entity.t) index deltaTime (h h'' : Heap.heap) :
  let result :=
    Heap.movementInput rs perceptionRadius maxEntityPerception r index deltaTime h in
  Heap.mutatedThrough result.1 result.2 h'' ->
  forall x : Heap.ref, x ∈ dom h -> h'' !! x = h !! x.
Proof.
  intros result Hmut x Hx.
  pose proof (movementInput_fresh rs perceptionRadius maxEntityPerception
                r index deltaTime h) as (Hsub & Hfresh).
  fold result in Hsub, Hfresh.
  rewrite Hmut.
  - apply elem_of_dom in Hx as [o Ho]. rewrite Ho.
    by apply (lookup_weaken h result.2).
  - by apply (subseteq_dom h result.2).
  - intros Hin. rewrite Forall_forall in Hfresh. by apply (Hfresh x Hin).
Qed.

(** C10.  For a population whose objects are in the store, the
    [MovementInput] built for an entity reads back as the input of
    [EntityManager.updateEntity], so it carries the values of the entities;
    every object reachable from it was allocated while it was built; and
    whatever a callee does to the objects reachable from it, every entity
    still has the position, the velocity and the variables it had. *)
Theorem movementInput_shares_nothing (h : Heap.heap) (m : EntityManager.t)
    (rs : list Heap.Entity.t) (r : Heap.Entity.t) (e : Entity.t)
    (index : nat) (deltaTime : R) :
  Forall2 (represents h) rs (EntityManager.entities m) ->
  represents h r e ->
  let result :=
    Heap.movementInput rs (EntityManager.perceptionRadius m)
      (EntityManager.maxEntityPerception m) r index deltaTime h in
  inputValue result.2 result.1 =
    MovementInput.mk
      (Entity.getState e)
      (EntityManager.findNearbyEntities m (Entity.position e) index)
      (EntityManager.getTerrainAhead (Entity.position e) (Entity.velocity e))
      deltaTime /\
  Forall (fun x => x ∉ dom h) (Heap.reachable result.1) /\
  (forall (h'' : Heap.heap) (r' : Heap.Entity.t) (e' : Entity.t),
     Heap.mutatedThrough result.1 result.2 h'' ->
     represents h r' e' ->
     represents h'' r' e' /\ Heap.stored h'' r' = Heap.stored h r').
Proof.
  intros Hrep Hre result.
  split; [by apply movementInput_value |].
  split; [apply movementInput_fresh |].
  intros h'' r' e' Hmut ((Hp & Hv & Hm) & Ep & Ev & Em).
  pose proof (movementInput_frame rs _ _ r index deltaTime h h'' Hmut) as Hframe.
  assert (Hstored : Heap.stored h'' r' = Heap.stored h r').
  { unfold Heap.stored, Heap.vectorAt, Heap.mapAt.
    by rewrite (Hframe _ Hp), (Hframe _ Hv), (Hframe _ Hm). }
  split; [| exact Hstored].
  injection Hstored as Sp Sv Sm.
  split; [| by rewrite Ep, Ev, Em, Sp, Sv, Sm].
  repeat split; apply elem_of_dom; rewrite Hframe by done; by apply elem_of_dom.
Qed.

Lemma brakingRef_represents : represents brakingHeap brakingRef brakingEntity.
Proof.
  split; [| by repeat split].
  repeat split; apply elem_of_dom; eexists; reflexivity.
Defined.

Lemma movementInput_shares_nothing_witness :
  let result :=
    Heap.movementInput [brakingRef] 50 7 brakingRef 0 1 brakingHeap in
  Forall (fun x => x ∉ dom brakingHeap) (Heap.reachable result.1) /\
  represents result.2 brakingRef brakingEntity.
Proof.
  intros result.
  destruct (movementInput_shares_nothing brakingHeap brakingManager
              [brakingRef] brakingRef brakingEntity 0 1)
    as (_ & Hfresh & Hframe).
  - repeat constructor; apply brakingRef_represents.
  - apply brakingRef_represents.
  - split; [exact Hfresh |].
    apply (Hframe result.2 brakingRef brakingEntity).
    + intros x _ _. reflexivity.
    + apply brakingRef_represents.
Defined.

(** * Further properties of the code *)

(** ** Orientations are rotations *)

Lemma quaternion_length_normalize (q : Quaternion) :
  Quaternion.length (Quaternion.normalize q) = 1.
Proof.
  unfold Quaternion.normalize.
  destruct (Req_dec_T (Quaternion.length q) 0) as [H0 | Hne].
  - unfold Quaternion.length. simpl.
    replace (0 * 0 + 0 * 0 + 0 * 0 + 1 * 1) with 1 by ring. apply sqrt_1.
  - set (l := Quaternion.length q) in *.
    assert (Hl : 0 < l).
    { pose proof (sqrt_pos (Quaternion.x q * Quaternion.x q +
                            Quaternion.y q * Quaternion.y q +
                            Quaternion.z q * Quaternion.z q +
                            Quaternion.w q * Quaternion.w q)) as Hge.
      fold (Quaternion.length q) in Hge. fold l in Hge. lra. }
    unfold Quaternion.length at 1. simpl.
    replace (Quaternion.x q * (1 / l) * (Quaternion.x q * (1 / l)) +
             Quaternion.y q * (1 / l) * (Quaternion.y q * (1 / l)) +
             Quaternion.z q * (1 / l) * (Quaternion.z q * (1 / l)) +
             Quaternion.w q * (1 / l) * (Quaternion.w q * (1 / l)))
      with ((Quaternion.x q * Quaternion.x q + Quaternion.y q * Quaternion.y q +
             Quaternion.z q * Quaternion.z q + Quaternion.w q * Quaternion.w q) *
            ((1 / l) * (1 / l))) by ring.
    rewrite sqrt_mult_alt by nra.
    fold (Quaternion.length q). fold l.
    rewrite sqrt_square by (apply Rlt_le, Rdiv_lt_0_compat; lra).
    field. lra.
Qed.

Lemma quaternion_length_identity : Quaternion.length Quaternion.identity = 1.
Proof.
  unfold Quaternion.length, Quaternion.identity. simpl.
  replace (0 * 0 + 0 * 0 + 0 * 0 + 1 * 1) with 1 by ring. apply sqrt_1.
Qed.

Lemma quaternion_length_setFromUnitVectors (vFrom vTo : Vector3) :
  Quaternion.length (Quaternion.setFromUnitVectors vFrom vTo) = 1.
Proof.
  unfold Quaternion.setFromUnitVectors.
  destruct (Rlt_dec _ _); [destruct (Rgt_dec _ _) |];
    apply quaternion_length_normalize.
Qed.

(** X2.  Every orientation the code produces is a unit quaternion: the one
    of a new entity, the one [Entity.update] leaves on the entity's mesh if
    the mesh had a unit quaternion before, and the one written to the
    instanced mesh for any entity. *)
Theorem orientations_are_unit :
  (forall (position : Vector3) (initialVelocity : option Vector3),
     Quaternion.length
       (Mesh.quaternion (Entity.mesh (Entity.new position initialVelocity))) = 1) /\
  (forall (e : Entity.t) (a : Vector3) (deltaTime : R),
     Quaternion.length (Mesh.quaternion (Entity.mesh e)) = 1 ->
     Quaternion.length
       (Mesh.quaternion (Entity.mesh (Entity.update e a deltaTime))) = 1) /\
  (forall e : Entity.t,
     Quaternion.length (Matrix4.quaternion (EntityManager.instanceMatrix e)) = 1).
Proof.
  split; [| split].
  - intros position initialVelocity. apply quaternion_length_identity.
  - intros e a deltaTime Hunit. unfold Entity.update. simpl.
    destruct (Rgt_dec _ 0.1); [apply quaternion_length_setFromUnitVectors | exact Hunit].
  - intros e. unfold EntityManager.instanceMatrix. simpl.
    destruct (Rgt_dec _ 0.1);
      [apply quaternion_length_setFromUnitVectors | apply quaternion_length_identity].
Qed.

Lemma orientations_are_unit_witness :
  Quaternion.length
    (Mesh.quaternion (Entity.mesh (Entity.update brakingEntity (Vector3.mk 0 0 0) 1))) = 1.
Proof.
  apply (proj1 (proj2 orientations_are_unit) brakingEntity (Vector3.mk 0 0 0) 1).
  apply quaternion_length_identity.
Defined.

(** ** The instanced mesh follows the entities *)

Lemma setMatrices_length (es : list Entity.t) k ms :
  length (EntityManager.setMatrices k es ms) = length ms.
Proof.
  revert k ms. induction es as [| e es IH]; intros k ms; simpl; [done |].
  by rewrite IH, length_insert.
Qed.

Lemma setMatrices_all (es : list Entity.t) (ms : list (option Matrix4.t)) :
  length ms = length es ->
  EntityManager.setMatrices 0 es ms =
  (fun e => Some (EntityManager.instanceMatrix e)) <$> es.
Proof.
  intros Hlen. apply list_eq. intros j. rewrite list_lookup_fmap.
  destruct (es !! j) as [e |] eqn:He.
  - apply (setMatrices_lookup es 0 ms j e He).
    rewrite Hlen. by eapply lookup_lt_Some.
  - simpl. apply lookup_ge_None_2. rewrite setMatrices_length, Hlen.
    by apply lookup_ge_None_1.
Qed.

Lemma createInstancedMesh_inSync (m : EntityManager.t) :
  EntityManager.entities m <> [] -> meshInSync (EntityManager.createInstancedMesh m).
Proof.
  intros Hne. unfold meshInSync, EntityManager.createInstancedMesh.
  destruct (EntityManager.entities m) as [| e es] eqn:Hes; [done |].
  unfold EntityManager.updateInstancedMesh. cbn [EntityManager.instancedMesh EntityManager.entities].
  f_equal. apply (setMatrices_all (e :: es)). by rewrite length_replicate.
Qed.

Lemma createLoop_appends terrainSize random count n (entities : list Entity.t) :
  exists created : list Entity.t,
    EntityManager.createLoop terrainSize random count n entities =
      (entities ++ created, (n + 6 * count)%nat) /\
    length created = count.
Proof.
  revert n entities. induction count as [| count IH]; intros n entities;
    cbn [EntityManager.createLoop].
  - exists []. by rewrite app_nil_r, Nat.add_0_r.
  - match goal with
    | |- context [EntityManager.createLoop _ _ _ _ (entities ++ [?e])] =>
        destruct (IH (n + 6)%nat (entities ++ [e])) as (created & -> & Hlen);
        exists (e :: created)
    end.
    split; [f_equal; [by rewrite <- app_assoc | lia] | simpl; by rewrite Hlen].
Qed.

(** X3.  Whenever [createEntities] leaves a population that is not empty,
    the instanced mesh it builds holds exactly one matrix per entity, the
    one computed from that entity; a tick keeps it so if the mesh had one
    slot per entity; a manager that has no instanced mesh, as after
    creating zero entities, gets none from a tick. *)
Theorem instancedMesh_follows_entities :
  (forall (m : EntityManager.t) (count : nat) (random : nat -> R) (n : nat),
     (0 < count)%nat \/ EntityManager.entities m <> [] ->
     meshInSync (EntityManager.createEntities m count random n).1) /\
  (forall (m : EntityManager.t) (deltaTime : R) (ms : list (option Matrix4.t)),
     EntityManager.instancedMesh m = Some ms ->
     length ms = length (EntityManager.entities m) ->
     meshInSync (EntityManager.update m deltaTime)) /\
  (forall (m : EntityManager.t) (deltaTime : R),
     EntityManager.instancedMesh m = None ->
     EntityManager.instancedMesh (EntityManager.update m deltaTime) = None) /\
  (forall (m : EntityManager.t) (random : nat -> R) (n : nat),
     EntityManager.entities m = [] ->
     EntityManager.instancedMesh (EntityManager.createEntities m 0 random n).1 =
     EntityManager.instancedMesh m).
Proof.
  split; [| split; [| split]].
  - intros m count random n Hsome.
    destruct (createLoop_appends (EntityManager.terrainSize m) random count n
                (EntityManager.entities m)) as (created & Hloop & Hlen).
    unfold EntityManager.createEntities. rewrite Hloop. simpl.
    apply createInstancedMesh_inSync. simpl.
    destruct Hsome as [Hcount | Hne].
    + destruct created; [simpl in Hlen; lia |]. by destruct (EntityManager.entities m).
    + by destruct (EntityManager.entities m).
  - intros m deltaTime ms Hms Hlen.
    unfold meshInSync. rewrite update_entities.
    unfold EntityManager.update, EntityManager.updateInstancedMesh. simpl.
    rewrite Hms. simpl. f_equal.
    fold (entitiesBefore m deltaTime (length (EntityManager.entities m))).
    apply setMatrices_all. by rewrite entitiesBefore_length.
  - intros m deltaTime Hnone.
    unfold EntityManager.update, EntityManager.updateInstancedMesh. simpl.
    by rewrite Hnone.
  - intros m random n Hempty.
    unfold EntityManager.createEntities. simpl. rewrite Hempty. simpl.
    unfold EntityManager.createInstancedMesh. simpl. done.
Qed.

Lemma instancedMesh_follows_entities_witness :
  meshInSync (EntityManager.createEntities emptyManager 2 halfRandom 0).1 /\
  meshInSync (EntityManager.update brakingManager 1) /\
  EntityManager.instancedMesh (EntityManager.update fastManager 1) = None /\
  EntityManager.instancedMesh (EntityManager.createEntities emptyManager 0 halfRandom 0).1 =
    EntityManager.instancedMesh emptyManager.
Proof.
  destruct instancedMesh_follows_entities as (Hcreate & Htick & Hnone & Hzero).
  split; [| split; [| split]].
  - apply Hcreate. left. lia.
  - apply (Htick brakingManager 1 [Some (EntityManager.instanceMatrix brakingEntity)]);
      reflexivity.
  - apply Hnone. reflexivity.
  - apply Hzero. reflexivity.
Defined.

(** ** More on the neighbour query *)

Lemma distanceTo_nonneg (a b : Vector3) : 0 <= Vector3.distanceTo a b.
Proof. apply sqrt_pos. Qed.

Lemma distanceTo_sym (a b : Vector3) :
  Vector3.distanceTo a b = Vector3.distanceTo b a.
Proof.
  unfold Vector3.distanceTo, Vector3.distanceToSquared. simpl. f_equal. ring.
Qed.

#[local] Instance distance_le_transitive (position : Vector3) :
  Transitive (fun a b : nat * Entity.t =>
                distanceFrom position a <= distanceFrom position b).
Proof. intros a b c Hab Hbc. lra. Qed.

(** In a sorted list, what [take] keeps is not farther than what it drops. *)
Lemma take_nearest (position : Vector3) (l : list (nat * Entity.t)) (n : nat)
    (kept dropped : nat * Entity.t) :
  ascending position l -> kept ∈ take n l -> dropped ∈ l -> dropped ∉ take n l ->
  distanceFrom position kept <= distanceFrom position dropped.
Proof.
  intros Hsorted Hkept Hin Hnot.
  apply Sorted_StronglySorted in Hsorted; [| apply _].
  rewrite <- (take_drop n l) in Hin, Hsorted.
  apply elem_of_app in Hin as [Hin | Hin]; [done |].
  by apply (StronglySorted_app_1_elem_of _ _ _ _ _ Hsorted).
Qed.

(** The two sorted tiers behind a result. *)
Lemma findNearbyEntities_parts (m : EntityManager.t) (position : Vector3)
    (excludeIndex : nat) :
  exists close outer : list (nat * Entity.t),
    close ≡ₚ closeTier m position excludeIndex /\
    ascending position close /\
    outer ≡ₚ outerTier m position excludeIndex /\
    ascending position outer /\
    EntityManager.findNearbyEntities m position excludeIndex =
      map (perceive position)
        (take (Nat.min (EntityManager.maxEntityPerception m) 7) close ++
         take (EntityManager.maxEntityPerception m -
               length (take (Nat.min (EntityManager.maxEntityPerception m) 7) close))
              outer).
Proof.
  eexists _, _.
  split; [apply (sort_Permutation (distanceFrom position)) |].
  split; [apply (sort_Sorted (distanceFrom position)) |].
  split; [apply (sort_Permutation (distanceFrom position)) |].
  split; [apply (sort_Sorted (distanceFrom position)) |].
  apply findNearbyEntities_tiers.
Qed.

(** X4.  The whole result of [findNearbyEntities] is in non-decreasing order
    of distance, across the two tiers; the distance of every entry is the
    distance between the observer and the position the entry carries, and
    it lies between 0 and the perception radius. *)
Theorem findNearbyEntities_nearest_first (m : EntityManager.t)
    (position : Vector3) (excludeIndex : nat) :
  let result := EntityManager.findNearbyEntities m position excludeIndex in
  nearestFirst result /\
  Forall (fun nearby =>
            NearbyEntity.distance nearby =
              Vector3.distanceTo position (NearbyEntity.position nearby) /\
            0 <= NearbyEntity.distance nearby <= EntityManager.perceptionRadius m)
         result.
Proof.
  intros result.
  destruct (findNearbyEntities_parts m position excludeIndex)
    as (close & outer & Hpc & Hc & Hpo & Ho & Hresult).
  set (closePart := take (Nat.min (EntityManager.maxEntityPerception m) 7) close) in *.
  set (outerPart :=
         take (EntityManager.maxEntityPerception m - length closePart) outer) in *.
  assert (Hclose : forall other, other ∈ closePart ->
            distanceFrom position other <= EntityManager.perceptionRadius m /\
            distanceFrom position other <= 20).
  { intros other Hin.
    apply (fun H => elem_of_sublist _ _ _ H (sublist_take _ _)) in Hin.
    rewrite Hpc in Hin. by apply closeTier_spec in Hin as (_ & _ & ? & ?). }
  assert (Houter : forall other, other ∈ outerPart ->
            distanceFrom position other <= EntityManager.perceptionRadius m /\
            20 < distanceFrom position other).
  { intros other Hin.
    apply (fun H => elem_of_sublist _ _ _ H (sublist_take _ _)) in Hin.
    rewrite Hpo in Hin. by apply outerTier_spec in Hin as (_ & _ & ? & ?). }
  subst result. rewrite Hresult. split.
  - unfold nearestFirst.
    apply (Sorted_fmap (perceive position)
             (fun a b => distanceFrom position a <= distanceFrom position b)).
    + intros a b Hab. exact Hab.
    + apply StronglySorted_Sorted. apply StronglySorted_app_2.
      * intros a b Ha Hb.
        destruct (Hclose a Ha) as [_ Ha20]. destruct (Houter b Hb) as [_ Hb20]. lra.
      * apply Sorted_StronglySorted; [apply _ | by apply Sorted_take].
      * apply Sorted_StronglySorted; [apply _ | by apply Sorted_take].
  - apply Forall_fmap, Forall_forall. intros other Hin. simpl.
    split; [reflexivity |]. split; [apply distanceTo_nonneg |].
    fold (distanceFrom position other).
    apply elem_of_app in Hin as [Hin | Hin].
    + by apply Hclose.
    + by apply Houter.
Qed.

(** X5.  When the cap is at most 7, or the close tier has at most 7
    members, the result is made of the nearest agents in range: every agent
    in range that is left out is at least as far away as every agent that
    is returned, and the number returned is the smaller of the cap and the
    number of agents in range. *)
Theorem findNearbyEntities_nearest (m : EntityManager.t) (position : Vector3)
    (excludeIndex : nat) :
  (EntityManager.maxEntityPerception m <= 7)%nat \/
  (length (closeTier m position excludeIndex) <= 7)%nat ->
  exists picked : list (nat * Entity.t),
    EntityManager.findNearbyEntities m position excludeIndex =
      map (perceive position) picked /\
    length picked =
      Nat.min (EntityManager.maxEntityPerception m)
              (length (closeTier m position excludeIndex) +
               length (outerTier m position excludeIndex)) /\
    forall kept other : nat * Entity.t,
      kept ∈ picked ->
      other ∈ closeTier m position excludeIndex ++ outerTier m position excludeIndex ->
      other ∉ picked ->
      distanceFrom position kept <= distanceFrom position other.
Proof.
  intros Hcap.
  destruct (findNearbyEntities_parts m position excludeIndex)
    as (close & outer & Hpc & Hc & Hpo & Ho & Hresult).
  set (K := EntityManager.maxEntityPerception m) in *.
  set (closePart := take (Nat.min K 7) close) in *.
  set (outerPart := take (K - length closePart) outer) in *.
  exists (closePart ++ outerPart). split; [exact Hresult |].
  assert (Hlc : length close = length (closeTier m position excludeIndex))
    by by rewrite Hpc.
  assert (Hlo : length outer = length (outerTier m position excludeIndex))
    by by rewrite Hpo.
  assert (Hclose20 : forall other, other ∈ close -> distanceFrom position other <= 20).
  { intros other Hin. rewrite Hpc in Hin.
    by apply closeTier_spec in Hin as (_ & _ & _ & ?). }
  assert (Houter20 : forall other, other ∈ outer -> 20 < distanceFrom position other).
  { intros other Hin. rewrite Hpo in Hin.
    by apply outerTier_spec in Hin as (_ & _ & _ & ?). }
  split.
  - rewrite length_app. subst closePart outerPart. rewrite !length_take.
    rewrite <- Hlc, <- Hlo. lia.
  - intros kept other Hkept Hother Hnot.
    rewrite <- Hpc, <- Hpo in Hother.
    rewrite elem_of_app in Hnot.
    apply elem_of_app in Hkept as [Hk | Hk], Hother as [Ho' | Ho'].
    + apply (take_nearest position close (Nat.min K 7)); tauto.
    + assert (Hkc : kept ∈ close)
        by (eapply elem_of_sublist; [exact Hk | apply sublist_take]).
      pose proof (Hclose20 kept Hkc). pose proof (Houter20 other Ho'). lra.
    + (* an outer agent was kept: the close tier was returned whole *)
      exfalso. apply Hnot. left.
      assert (Hall : closePart = close).
      { subst closePart. apply take_ge.
        destruct (Nat.le_gt_cases (length close) (Nat.min K 7)); [done |].
        exfalso. subst outerPart.
        assert (length (take (Nat.min K 7) close) = Nat.min K 7)
          by (rewrite length_take; lia).
        replace (K - length (take (Nat.min K 7) close))%nat with 0%nat in Hk by lia.
        rewrite take_0 in Hk. by apply elem_of_nil in Hk. }
      by rewrite Hall.
    + apply (take_nearest position outer (K - length closePart)); tauto.
Qed.

Lemma findNearbyEntities_nearest_witness :
  exists picked : list (nat * Entity.t),
    EntityManager.findNearbyEntities (lineManager 3) (Vector3.mk 0 0 0) 2 =
      map (perceive (Vector3.mk 0 0 0)) picked /\
    length picked =
      Nat.min 3 (length (closeTier (lineManager 3) (Vector3.mk 0 0 0) 2) +
                 length (outerTier (lineManager 3) (Vector3.mk 0 0 0) 2)) /\
    forall kept other : nat * Entity.t,
      kept ∈ picked ->
      other ∈ closeTier (lineManager 3) (Vector3.mk 0 0 0) 2 ++
              outerTier (lineManager 3) (Vector3.mk 0 0 0) 2 ->
      other ∉ picked ->
      distanceFrom (Vector3.mk 0 0 0) kept <= distanceFrom (Vector3.mk 0 0 0) other.
Proof.
  apply (findNearbyEntities_nearest (lineManager 3) (Vector3.mk 0 0 0) 2).
  left. simpl. lia.
Defined.

(** X6.  The result never has more entries than there are other agents;
    it is empty when the perception radius is negative and when the cap is
    0.  So an agent that is alone perceives nobody. *)
Theorem findNearbyEntities_small_cases (m : EntityManager.t) (position : Vector3)
    (excludeIndex : nat) :
  let result := EntityManager.findNearbyEntities m position excludeIndex in
  ((excludeIndex < length (EntityManager.entities m))%nat ->
   (length result <= length (EntityManager.entities m) - 1)%nat) /\
  (EntityManager.perceptionRadius m < 0 -> result = []) /\
  (EntityManager.maxEntityPerception m = 0%nat -> result = []).
Proof.
  intros result. split; [| split].
  - intros Hex.
    destruct (findNearbyEntities_picked m position excludeIndex)
      as (picked & Hresult & Hnodup & Hall).
    subst result. rewrite Hresult, length_map.
    assert (Hsub : excludeIndex :: picked.*1 ⊆+ seq 0 (length (EntityManager.entities m))).
    { apply NoDup_submseteq.
      - constructor; [| exact Hnodup].
        intros (other & Heq & Hin)%list_elem_of_fmap.
        rewrite Forall_forall in Hall. destruct (Hall other Hin) as [Hne _]. done.
      - intros i Hi. apply elem_of_seq.
        apply elem_of_cons in Hi as [-> | (other & -> & Hin)%list_elem_of_fmap]; [lia |].
        rewrite Forall_forall in Hall. destruct (Hall other Hin) as [_ Hlook].
        apply lookup_lt_Some in Hlook. lia. }
    apply submseteq_length in Hsub.
    rewrite length_seq in Hsub. simpl in Hsub. rewrite length_fmap in Hsub. lia.
  - intros Hneg.
    destruct (findNearbyEntities_parts m position excludeIndex)
      as (close & outer & Hpc & _ & Hpo & _ & Hresult).
    assert (Hc : closeTier m position excludeIndex = []).
    { apply elem_of_nil_inv. intros other Hin.
      apply closeTier_spec in Hin as (_ & _ & HR & _).
      pose proof (distanceTo_nonneg position (Entity.position other.2)).
      unfold distanceFrom in HR. lra. }
    assert (Ho : outerTier m position excludeIndex = []).
    { apply elem_of_nil_inv. intros other Hin.
      apply outerTier_spec in Hin as (_ & _ & HR & _).
      pose proof (distanceTo_nonneg position (Entity.position other.2)).
      unfold distanceFrom in HR. lra. }
    rewrite Hc in Hpc. rewrite Ho in Hpo.
    apply Permutation_nil_r in Hpc, Hpo. subst close outer.
    subst result. rewrite Hresult. by rewrite !take_nil.
  - intros HK. pose proof (findNearbyEntities_length m position excludeIndex) as Hlen.
    fold result in Hlen. rewrite HK in Hlen.
    destruct result; [done | simpl in Hlen; lia].
Qed.

Lemma findNearbyEntities_small_cases_witness :
  EntityManager.findNearbyEntities brakingManager (Vector3.mk 0 50 0) 0 = [] /\
  EntityManager.findNearbyEntities
    (EntityManager.mk [brakingEntity; fastEntity] (constantPolicy (Vector3.mk 0 0 0))
                      (-1) None 1000 7)
    (Vector3.mk 0 50 0) 0 = [] /\
  EntityManager.findNearbyEntities (lineManager 0) (Vector3.mk 0 0 0) 2 = [].
Proof.
  split; [| split].
  - pose proof (proj1 (findNearbyEntities_small_cases brakingManager
                         (Vector3.mk 0 50 0) 0)) as Hlen.
    destruct (EntityManager.findNearbyEntities brakingManager (Vector3.mk 0 50 0) 0)
      as [| n rest]; [reflexivity |].
    exfalso. simpl in Hlen. lia.
  - apply (proj1 (proj2 (findNearbyEntities_small_cases _ _ _))). simpl. lra.
  - apply (proj2 (proj2 (findNearbyEntities_small_cases _ _ _))). reflexivity.
Defined.

(** ** The variables of an entity *)

(** X7.  [setRandomVariable] followed by [getRandomVariable] of the same key
    gives the value back and leaves the other keys as they were; a new
    entity has no variable, so every key reads as undefined; setting one
    variable is merging the patch that holds just that variable; and
    [Entity.update] changes no variable. *)
Theorem randomVariable_accessors :
  (forall (e : Entity.t) (key : string) (value : R),
     Entity.getRandomVariable (Entity.setRandomVariable e key value) key = Some value) /\
  (forall (e : Entity.t) (key other : string) (value : R),
     key <> other ->
     Entity.getRandomVariable (Entity.setRandomVariable e key value) other =
     Entity.getRandomVariable e other) /\
  (forall (position : Vector3) (initialVelocity : option Vector3) (key : string),
     Entity.getRandomVariable (Entity.new position initialVelocity) key = None) /\
  (forall (e : Entity.t) (key : string) (value : R),
     Entity.updateRandomVariables e {[ key := value ]} =
     Entity.setRandomVariable e key value) /\
  (forall (e : Entity.t) (a : Vector3) (deltaTime : R) (key : string),
     Entity.getRandomVariable (Entity.update e a deltaTime) key =
     Entity.getRandomVariable e key).
Proof.
  split; [| split; [| split; [| split]]].
  - intros e key value. apply lookup_insert_eq.
  - intros e key other value Hne. by apply lookup_insert_ne.
  - intros position initialVelocity key. apply lookup_empty.
  - intros e key value. unfold Entity.updateRandomVariables, Entity.setRandomVariable.
    by rewrite map_fold_singleton.
  - reflexivity.
Qed.

Lemma randomVariable_accessors_witness :
  Entity.getRandomVariable
    (Entity.setRandomVariable brakingEntity "randomTurn" 1) "randomSpeed" =
  Entity.getRandomVariable brakingEntity "randomSpeed".
Proof.
  apply (proj1 (proj2 randomVariable_accessors)). discriminate.
Defined.

Lemma updateRandomVariables_eq (e1 e2 : Entity.t) :
  Entity.position e1 = Entity.position e2 ->
  Entity.velocity e1 = Entity.velocity e2 ->
  Entity.randomVariables e1 = Entity.randomVariables e2 ->
  Entity.mesh e1 = Entity.mesh e2 ->
  e1 = e2.
Proof. destruct e1, e2. simpl. by intros -> -> -> ->. Qed.

(** X8.  Patches compose: merging [first] and then [second] is merging
    their union in which [second] wins; merging the same patch twice is
    merging it once; merging the empty patch changes nothing. *)
Theorem updateRandomVariables_composes (e : Entity.t)
    (first second : gmap string R) :
  Entity.updateRandomVariables (Entity.updateRandomVariables e first) second =
    Entity.updateRandomVariables e (second ∪ first) /\
  Entity.updateRandomVariables (Entity.updateRandomVariables e first) first =
    Entity.updateRandomVariables e first /\
  Entity.updateRandomVariables e ∅ = e.
Proof.
  split; [| split]; apply updateRandomVariables_eq; try reflexivity;
    rewrite ?updateRandomVariables_union.
  - by rewrite (assoc_L (∪)).
  - by rewrite (assoc_L (∪)), (idemp_L (∪)).
Qed.

(** ** The size of the population *)

(** X9.  [createEntities] adds exactly [count] entities; a tick changes
    neither the number of entities nor the perception radius, the cap, the
    terrain size or the movement function. *)
Theorem population_size (m : EntityManager.t) :
  (forall (count : nat) (random : nat -> R) (n : nat),
     EntityManager.getEntityCount (EntityManager.createEntities m count random n).1 =
       (EntityManager.getEntityCount m + count)%nat) /\
  (forall deltaTime : R,
     let m' := EntityManager.update m deltaTime in
     EntityManager.getEntityCount m' = EntityManager.getEntityCount m /\
     EntityManager.perceptionRadius m' = EntityManager.perceptionRadius m /\
     EntityManager.maxEntityPerception m' = EntityManager.maxEntityPerception m /\
     EntityManager.terrainSize m' = EntityManager.terrainSize m /\
     EntityManager.movementFunction m' = EntityManager.movementFunction m).
Proof.
  split.
  - intros count random n.
    destruct (createLoop_appends (EntityManager.terrainSize m) random count n
                (EntityManager.entities m)) as (created & Hloop & Hlen).
    unfold EntityManager.createEntities, EntityManager.getEntityCount.
    rewrite Hloop. simpl. rewrite createInstancedMesh_entities. simpl.
    by rewrite length_app, Hlen.
  - intros deltaTime m'. split.
    + apply update_length.
    + subst m'. unfold EntityManager.update, EntityManager.updateInstancedMesh. simpl.
      by destruct (EntityManager.instancedMesh m).
Qed.

(** ** A tick under the template movement function *)

(** Without acceleration an entity that is not too fast keeps its velocity
    and advances along it. *)
Lemma update_without_acceleration (e : Entity.t) (deltaTime : R) :
  Vector3.length (Entity.velocity e) <= 50 ->
  Entity.update e (Vector3.mk 0 0 0) deltaTime =
  let position :=
    Vector3.add (Entity.position e)
                (Vector3.multiplyScalar (Entity.velocity e) deltaTime) in
  Entity.mk position (Entity.velocity e) (Entity.randomVariables e)
    (Mesh.mk position
       (if Rgt_dec (Vector3.length (Entity.velocity e)) 0.1
        then Quaternion.setFromUnitVectors Entity.up
               (Vector3.normalize (Entity.velocity e))
        else Mesh.quaternion (Entity.mesh e))).
Proof.
  intros Hcap. unfold Entity.update.
  assert (Hv : Vector3.add (Entity.velocity e)
                 (Vector3.multiplyScalar (Vector3.mk 0 0 0) deltaTime) =
               Entity.velocity e).
  { destruct (Entity.velocity e) as [vx vy vz].
    unfold Vector3.add, Vector3.multiplyScalar. simpl. f_equal; ring. }
  rewrite Hv.
  destruct (Rgt_dec (Vector3.length (Entity.velocity e)) Entity.maxSpeed) as [Hgt | _];
    [unfold Entity.maxSpeed in Hgt; lra | reflexivity].
Qed.

Lemma add_add_multiplyScalar (p v : Vector3) (s t : R) :
  Vector3.add (Vector3.add p (Vector3.multiplyScalar v s)) (Vector3.multiplyScalar v t) =
  Vector3.add p (Vector3.multiplyScalar v (s + t)).
Proof. unfold Vector3.add, Vector3.multiplyScalar. simpl. f_equal; ring. Qed.

(** A tick whose movement function returns the same acceleration and no
    patch for every input integrates every entity on its own. *)
Lemma update_constant_output (m : EntityManager.t) (deltaTime : R) (a : Vector3) :
  (forall input, EntityManager.movementFunction m input = MovementOutput.mk a None) ->
  EntityManager.entities (EntityManager.update m deltaTime) =
  (fun e => Entity.update e a deltaTime) <$> EntityManager.entities m.
Proof.
  intros Hconst. apply list_eq. intros j. rewrite list_lookup_fmap, update_entities.
  destruct (EntityManager.entities m !! j) as [e |] eqn:He.
  - assert (Hlt : (j < length (EntityManager.entities m))%nat)
      by by eapply lookup_lt_Some.
    rewrite (entitiesBefore_settled m deltaTime (S j)) by lia.
    rewrite entitiesBefore_S.
    assert (Hej : entitiesBefore m deltaTime j !! j = Some e)
      by by rewrite entitiesBefore_untouched.
    unfold EntityManager.updateEntity. rewrite Hej, Hconst. simpl.
    apply list_lookup_insert_eq. by eapply lookup_lt_Some.
  - simpl. apply lookup_ge_None_2. rewrite entitiesBefore_length.
    by apply lookup_ge_None_1.
Qed.

(** X10.  Under the template movement function a tick integrates every
    entity with zero acceleration.  If no entity is faster than 50, every
    entity keeps its velocity and variables and advances by its velocity
    times the time step, and two ticks in a row leave the entities where
    one tick of the summed time step leaves them. *)
Theorem template_tick (m : EntityManager.t) (deltaTime : R) :
  EntityManager.movementFunction m = MovementFunction.calculateMovement ->
  EntityManager.entities (EntityManager.update m deltaTime) =
    (fun e => Entity.update e (Vector3.mk 0 0 0) deltaTime) <$> EntityManager.entities m /\
  (Forall (fun e => Vector3.length (Entity.velocity e) <= 50) (EntityManager.entities m) ->
   Forall2 (fun e e' =>
              Entity.velocity e' = Entity.velocity e /\
              Entity.randomVariables e' = Entity.randomVariables e /\
              Entity.position e' =
                Vector3.add (Entity.position e)
                            (Vector3.multiplyScalar (Entity.velocity e) deltaTime))
           (EntityManager.entities m)
           (EntityManager.entities (EntityManager.update m deltaTime)) /\
   forall second : R,
     EntityManager.entities
       (EntityManager.update (EntityManager.update m deltaTime) second) =
     EntityManager.entities (EntityManager.update m (deltaTime + second))).
Proof.
  intros Hpolicy.
  assert (Hmap : forall (m0 : EntityManager.t) dt,
            EntityManager.movementFunction m0 = MovementFunction.calculateMovement ->
            EntityManager.entities (EntityManager.update m0 dt) =
            (fun e => Entity.update e (Vector3.mk 0 0 0) dt) <$> EntityManager.entities m0).
  { intros m0 dt H0. apply update_constant_output. intros input. by rewrite H0. }
  split; [by apply Hmap |].
  intros Hcap. split.
  - rewrite (Hmap m deltaTime Hpolicy).
    apply Forall2_fmap_r, Forall_Forall2_diag.
    eapply Forall_impl; [exact Hcap |]. intros e He. unfold compose.
    by rewrite (update_without_acceleration e deltaTime He).
  - intros second.
    assert (Hpolicy' : EntityManager.movementFunction (EntityManager.update m deltaTime) =
                       MovementFunction.calculateMovement).
    { rewrite <- Hpolicy.
      unfold EntityManager.update, EntityManager.updateInstancedMesh. simpl.
      by destruct (EntityManager.instancedMesh m). }
    rewrite (Hmap _ second Hpolicy'), (Hmap m deltaTime Hpolicy),
      (Hmap m (deltaTime + second) Hpolicy).
    rewrite <- list_fmap_compose. apply Forall_fmap_ext_1.
    eapply Forall_impl; [exact Hcap |]. intros e He. simpl in *.
    rewrite (update_without_acceleration e deltaTime He).
    rewrite (update_without_acceleration e (deltaTime + second) He).
    rewrite update_without_acceleration by exact He.
    cbn zeta. cbn [Entity.position Entity.velocity Entity.randomVariables
                   Entity.mesh Mesh.quaternion].
    rewrite add_add_multiplyScalar.
    destruct (Rgt_dec (Vector3.length (Entity.velocity e)) 0.1); reflexivity.
Qed.

Lemma template_tick_witness :
  let m := EntityManager.mk [brakingEntity] MovementFunction.calculateMovement
                            50 None 1000 7 in
  EntityManager.entities (EntityManager.update (EntityManager.update m 1) 2) =
  EntityManager.entities (EntityManager.update m (1 + 2)).
Proof.
  intros m. apply (template_tick m 1); [reflexivity |].
  repeat constructor. simpl. rewrite length_x_axis; lra.
Defined.

(** ** The flocking movement function *)

Section FlockingFacts.

Import MovementFunctionExample.

Lemma component_le_length (a : Vector3) :
  Rabs (Vector3.x a) <= Vector3.length a /\
  Rabs (Vector3.y a) <= Vector3.length a /\
  Rabs (Vector3.z a) <= Vector3.length a.
Proof.
  unfold Vector3.length, Vector3.lengthSq.
  rewrite <- !sqrt_Rsqr_abs. unfold Rsqr.
  repeat split; apply sqrt_le_1_alt; nra.
Qed.

Lemma normalize_component_le (a : Vector3) :
  Rabs (Vector3.x (Vector3.normalize a)) <= 1 /\
  Rabs (Vector3.y (Vector3.normalize a)) <= 1 /\
  Rabs (Vector3.z (Vector3.normalize a)) <= 1.
Proof.
  destruct (component_le_length a) as (Hx & Hy & Hz).
  pose proof (length_nonneg a) as Hl.
  unfold Vector3.normalize, Vector3.divideScalar, Vector3.multiplyScalar.
  cbn [Vector3.x Vector3.y Vector3.z].
  destruct (Req_dec_T (Vector3.length a) 0) as [H0 | Hne].
  - rewrite H0 in Hx, Hy, Hz.
    replace (1 / 1) with 1 by field. rewrite !Rmult_1_r. lra.
  - assert (Hpos : 0 < Vector3.length a) by lra.
    assert (Hinv : 0 < 1 / Vector3.length a).
    { unfold Rdiv. rewrite Rmult_1_l. by apply Rinv_0_lt_compat. }
    rewrite !Rabs_mult, (Rabs_pos_eq (1 / _)) by lra.
    assert (Hone : Vector3.length a * (1 / Vector3.length a) = 1) by (field; lra).
    repeat split; nra.
Qed.

Lemma separationForce_nil params position :
  separationForce params position [] = Vector3.mk 0 0 0.
Proof. reflexivity. Qed.

Lemma addSeparation_cases params position nearbyEntities acceleration :
  (Vector3.length (separationForce params position nearbyEntities) = 0 /\
   addSeparation params position nearbyEntities acceleration = acceleration) \/
  (0 < Vector3.length (separationForce params position nearbyEntities) /\
   addSeparation params position nearbyEntities acceleration =
   Vector3.add acceleration
     (Vector3.multiplyScalar
        (Vector3.normalize (separationForce params position nearbyEntities))
        (FlockingParams.separationStrength params))).
Proof.
  unfold addSeparation.
  pose proof (length_nonneg (separationForce params position nearbyEntities)).
  destruct (Rgt_dec _ 0) as [Hgt | Hle]; [right | left]; split; auto; lra.
Qed.

Lemma separationForce_none params position nearbyEntities :
  Forall (fun nearby =>
            NearbyEntity.distance nearby <= 0 \/
            FlockingParams.separationDistance params <= NearbyEntity.distance nearby)
         nearbyEntities ->
  separationForce params position nearbyEntities = Vector3.mk 0 0 0.
Proof.
  unfold separationForce. generalize (Vector3.mk 0 0 0).
  induction nearbyEntities as [| nearby l IH]; intros start Hall; [reflexivity |].
  apply Forall_cons in Hall as [Hn Hl].
  cbn [foldl].
  destruct (Rlt_dec _ _) as [Hlt | Hge].
  - destruct (Rgt_dec _ _) as [Hgt | Hle]; [lra | by apply IH].
  - by apply IH.
Qed.

(** Neighbours that are not strictly between 0 and the separation distance
    do not enter the separation force, whoever else is there. *)
Lemma separationForce_filter params position nearbyEntities :
  separationForce params position nearbyEntities =
  separationForce params position
    (filter (fun nearby =>
               0 < NearbyEntity.distance nearby <
               FlockingParams.separationDistance params) nearbyEntities).
Proof.
  unfold separationForce. generalize (Vector3.mk 0 0 0).
  induction nearbyEntities as [| nearby l IH]; intros start; [reflexivity |].
  cbn [foldl].
  destruct (decide (0 < NearbyEntity.distance nearby <
                    FlockingParams.separationDistance params)) as [Hin | Hout].
  - rewrite filter_cons_True by exact Hin. cbn [foldl]. apply IH.
  - rewrite filter_cons_False by exact Hout.
    destruct (Rlt_dec _ _) as [Hlt | Hge]; [| apply IH].
    destruct (Rgt_dec _ _) as [Hgt | Hle]; [| apply IH].
    exfalso. apply Hout. lra.
Qed.





End FlockingFacts.

(** X11. Separation block of the flocking function.  Whatever the
    neighbours, the block either leaves the acceleration alone or adds a
    push whose length is exactly the separation strength (in absolute
    value): crowding does not make the push stronger.  Neighbours at
    distance 0 or at the separation distance or beyond are ignored: the
    block does what it does when they are removed from the list, and it
    leaves the acceleration alone when no other neighbour is left.  A
    single neighbour strictly inside the separation distance, elsewhere
    than the agent, pushes the agent straight away from it. *)
Theorem separation_push (params : FlockingParams.t) (position : Vector3)
    (nearbyEntities : list NearbyEntity.t) (acceleration : Vector3) :
  let result :=
    MovementFunctionExample.addSeparation params position nearbyEntities
                                          acceleration in
  (result = acceleration \/
   exists push, result = Vector3.add acceleration push /\
                Vector3.length push =
                Rabs (FlockingParams.separationStrength params)) /\
  result =
    MovementFunctionExample.addSeparation params position
      (filter (fun nearby =>
                 0 < NearbyEntity.distance nearby <
                 FlockingParams.separationDistance params) nearbyEntities)
      acceleration /\
  (Forall (fun nearby =>
             NearbyEntity.distance nearby <= 0 \/
             FlockingParams.separationDistance params <=
             NearbyEntity.distance nearby) nearbyEntities ->
   result = acceleration) /\
  (forall nearby,
     nearbyEntities = [nearby] ->
     0 < NearbyEntity.distance nearby < FlockingParams.separationDistance params ->
     position <> NearbyEntity.position nearby ->
     result =
     Vector3.add acceleration
       (Vector3.multiplyScalar
          (Vector3.normalize (Vector3.sub position (NearbyEntity.position nearby)))
          (FlockingParams.separationStrength params))).
Proof.
  cbn zeta. split; [| split; [| split]].
  - destruct (addSeparation_cases params position nearbyEntities acceleration)
      as [[_ Heq] | [Hpos Heq]]; [by left | right].
    eexists. split; [exact Heq |].
    rewrite length_multiplyScalar, length_normalize by lra. ring.
  - unfold MovementFunctionExample.addSeparation.
    by rewrite <- separationForce_filter.
  - intros Hall.
    destruct (addSeparation_cases params position nearbyEntities acceleration)
      as [[_ Heq] | [Hpos Heq]]; [exact Heq |].
    rewrite (separationForce_none _ _ _ Hall), length_zero in Hpos. lra.
  - intros nearby -> [Hd0 Hd] Hne.
    set (away := Vector3.sub position (NearbyEntity.position nearby)).
    assert (Haway : Vector3.length away <> 0).
    { intros H0. apply Hne.
      destruct (component_le_length away) as (Hx & Hy & Hz).
      rewrite H0 in Hx, Hy, Hz.
      subst away. destruct position as [px py pz].
      destruct (NearbyEntity.position nearby) as [qx qy qz].
      cbn [Vector3.sub Vector3.x Vector3.y Vector3.z] in Hx, Hy, Hz.
      f_equal.
      - pose proof (Rabs_pos (px - qx)). assert (Rabs (px - qx) = 0) as E by lra.
        destruct (Req_dec (px - qx) 0) as [?|Hn]; [lra | by apply Rabs_no_R0 in Hn].
      - pose proof (Rabs_pos (py - qy)). assert (Rabs (py - qy) = 0) as E by lra.
        destruct (Req_dec (py - qy) 0) as [?|Hn]; [lra | by apply Rabs_no_R0 in Hn].
      - pose proof (Rabs_pos (pz - qz)). assert (Rabs (pz - qz) = 0) as E by lra.
        destruct (Req_dec (pz - qz) 0) as [?|Hn]; [lra | by apply Rabs_no_R0 in Hn]. }
    set (d := NearbyEntity.distance nearby) in *.
    set (u := Vector3.normalize away).
    assert (Hu : Vector3.length u = 1) by (by apply length_normalize).
    assert (Hinv : 0 < 1 / d).
    { unfold Rdiv. rewrite Rmult_1_l. by apply Rinv_0_lt_compat. }
    assert (Hforce :
      MovementFunctionExample.separationForce params position [nearby] =
      Vector3.add (Vector3.mk 0 0 0) (Vector3.divideScalar u d)).
    { unfold MovementFunctionExample.separationForce. cbn [foldl].
      fold d. destruct (Rlt_dec d _) as [_ | ?]; [| lra].
      destruct (Rgt_dec d 0) as [_ | ?]; [| lra]. reflexivity. }
    assert (Hscaled :
      Vector3.add (Vector3.mk 0 0 0) (Vector3.divideScalar u d) =
      Vector3.multiplyScalar u (1 / d)).
    { unfold Vector3.add, Vector3.divideScalar, Vector3.multiplyScalar.
      cbn [Vector3.x Vector3.y Vector3.z]. f_equal; ring. }
    assert (Hlen :
      Vector3.length (MovementFunctionExample.separationForce params position [nearby])
      = 1 / d).
    { rewrite Hforce, Hscaled, length_multiplyScalar, Hu, Rabs_pos_eq; lra. }
    unfold MovementFunctionExample.addSeparation.
    destruct (Rgt_dec _ 0) as [_ | Hn]; [| rewrite Hlen in Hn; lra].
    f_equal.
    rewrite rescale_normalize by (rewrite Hlen; lra).
    rewrite Hlen, Hforce, Hscaled.
    unfold Vector3.multiplyScalar. cbn [Vector3.x Vector3.y Vector3.z].
    f_equal; field; lra.
Qed.

Lemma separation_push_witness :
  MovementFunctionExample.addSeparation MovementFunctionExample.flockingParams
    (Vector3.mk 0 0 0)
    [NearbyEntity.mk (Vector3.mk 1 0 0) (Vector3.mk 0 0 0) 1]
    (Vector3.mk 0 0 0) =
  Vector3.add (Vector3.mk 0 0 0)
    (Vector3.multiplyScalar
       (Vector3.normalize (Vector3.sub (Vector3.mk 0 0 0) (Vector3.mk 1 0 0)))
       15).
Proof.
  apply (proj2 (proj2 (proj2 (separation_push MovementFunctionExample.flockingParams
                         (Vector3.mk 0 0 0)
                         [NearbyEntity.mk (Vector3.mk 1 0 0) (Vector3.mk 0 0 0) 1]
                         (Vector3.mk 0 0 0))))
               (NearbyEntity.mk (Vector3.mk 1 0 0) (Vector3.mk 0 0 0) 1)).
  - reflexivity.
  - simpl. lra.
  - simpl. intros H. inversion H. lra.
Defined.




Lemma Rabs_le_between (x a : R) : Rabs x <= a -> - a <= x <= a.
Proof. unfold Rabs. destruct (Rcase_abs x); lra. Qed.

Lemma calculateMovement_alone (params : FlockingParams.t) (random : nat -> R)
    (n : nat) (input : MovementInput.t) :
  MovementInput.nearbyEntities input = [] ->
  MovementOutput.acceleration
    (MovementFunctionExample.calculateMovement params random n input).1 =
  let position := EntityState.position (MovementInput.currentState input) in
  let velocity := EntityState.velocity (MovementInput.currentState input) in
  MovementFunctionExample.addBoundary params position
    (MovementFunctionExample.addForward params velocity
       (MovementFunctionExample.addHeight params position velocity
          (Vector3.mk 0 0 0))).
Proof.
  intros Hnil. unfold MovementFunctionExample.calculateMovement.
  rewrite Hnil.
  destruct (MovementFunctionExample.randomVariablesUpdate random n) as [patch n'].
  cbn [fst MovementOutput.acceleration].
  unfold MovementFunctionExample.addSeparation.
  rewrite separationForce_nil, length_zero.
  destruct (Rgt_dec 0 0) as [? | _]; [lra |].
  reflexivity.
Qed.

Lemma addBoundary_y (params : FlockingParams.t) (position acceleration : Vector3) :
  Vector3.y (MovementFunctionExample.addBoundary params position acceleration) =
  Vector3.y acceleration.
Proof.
  unfold MovementFunctionExample.addBoundary. cbn zeta.
  repeat destruct (Rlt_dec _ _); cbn [Vector3.add Vector3.y]; ring.
Qed.

Lemma addForward_fast (params : FlockingParams.t) (velocity acceleration : Vector3) :
  10 <= Vector3.length velocity ->
  MovementFunctionExample.addForward params velocity acceleration = acceleration.
Proof.
  intros Hfast. unfold MovementFunctionExample.addForward.
  destruct (Rlt_dec _ _); [lra | reflexivity].
Qed.

Lemma addForward_y (params : FlockingParams.t) (velocity acceleration : Vector3) :
  Rabs (Vector3.y (MovementFunctionExample.addForward params velocity acceleration)
        - Vector3.y acceleration) <=
  Rabs (FlockingParams.forwardSpeed params).
Proof.
  unfold MovementFunctionExample.addForward.
  pose proof (Rabs_pos (FlockingParams.forwardSpeed params)) as Hf.
  destruct (Rlt_dec _ _) as [Hslow | _].
  - cbn [Vector3.add Vector3.multiplyScalar Vector3.y].
    match goal with
    | |- Rabs (_ + ?d * ?f - _) <= _ =>
        replace (Vector3.y acceleration + d * f - Vector3.y acceleration)
          with (d * f) by ring;
        assert (Hd : Rabs d <= 1)
    end.
    { destruct (Rgt_dec _ _).
      - apply normalize_component_le.
      - cbn [Vector3.y]. rewrite Rabs_R0. lra. }
    rewrite Rabs_mult.
    match goal with |- Rabs ?d * _ <= _ => pose proof (Rabs_pos d) end.
    nra.
  - replace (_ - _) with 0 by ring. by rewrite Rabs_R0.
Qed.

(** X13. The flocking function for an agent that perceives nobody.  In the
    cruising band (at least 5 above [minHeight], at most [maxHeight], within
    5 of [targetHeight]), at speed 10 or more and no further than 400 from
    the centre along x and z, the acceleration is exactly zero: the bird
    flies on in a straight line.  Less than 5 above [minHeight] the vertical
    acceleration is at least 50 minus the forward speed parameter; above
    [maxHeight] it is at most -10 plus that parameter. *)
Theorem lone_bird (params : FlockingParams.t) (random : nat -> R) (n : nat)
    (input : MovementInput.t) :
  MovementInput.nearbyEntities input = [] ->
  let position := EntityState.position (MovementInput.currentState input) in
  let velocity := EntityState.velocity (MovementInput.currentState input) in
  let acceleration :=
    MovementOutput.acceleration
      (MovementFunctionExample.calculateMovement params random n input).1 in
  (FlockingParams.minHeight params + 5 <= Vector3.y position ->
   Vector3.y position <= FlockingParams.maxHeight params ->
   Rabs (Vector3.y position - FlockingParams.targetHeight params) <= 5 ->
   10 <= Vector3.length velocity ->
   Rabs (Vector3.x position) <= 400 ->
   Rabs (Vector3.z position) <= 400 ->
   acceleration = Vector3.mk 0 0 0) /\
  (Vector3.y position < FlockingParams.minHeight params + 5 ->
   50 - Rabs (FlockingParams.forwardSpeed params) <= Vector3.y acceleration) /\
  (FlockingParams.minHeight params + 5 <= Vector3.y position ->
   FlockingParams.maxHeight params < Vector3.y position ->
   Vector3.y acceleration <= -10 + Rabs (FlockingParams.forwardSpeed params)).
Proof.
  intros Hnil. cbn zeta.
  rewrite (calculateMovement_alone params random n input Hnil). cbn zeta.
  set (position := EntityState.position (MovementInput.currentState input)).
  set (velocity := EntityState.velocity (MovementInput.currentState input)).
  split; [| split].
  - intros Hlow Hhigh Hband Hfast Hx Hz.
    rewrite addForward_fast by done.
    unfold MovementFunctionExample.addHeight. cbn zeta.
    destruct (Rlt_dec _ _) as [? | _]; [lra |].
    destruct (Rgt_dec _ _) as [? | _]; [lra |].
    destruct (Rgt_dec _ _) as [? | _]; [lra |].
    unfold MovementFunctionExample.addBoundary. cbn zeta.
    destruct (Rlt_dec _ _) as [? | _]; [lra |].
    destruct (Rlt_dec _ _) as [? | _]; [lra |].
    reflexivity.
  - intros Hlow.
    rewrite addBoundary_y.
    pose proof (addForward_y params velocity
                  (MovementFunctionExample.addHeight params position velocity
                     (Vector3.mk 0 0 0))) as Hf.
    apply Rabs_le_between in Hf.
    assert (Hh : 50 <= Vector3.y (MovementFunctionExample.addHeight params position
                                    velocity (Vector3.mk 0 0 0))).
    { unfold MovementFunctionExample.addHeight. cbn zeta.
      destruct (Rlt_dec _ _) as [_ | ?]; [| lra].
      match goal with
      | |- context [Rmax 0 ?u] => pose proof (Rmax_l 0 u)
      end.
      destruct (Rlt_dec _ _) as [Hdown | _];
        cbn [Vector3.add Vector3.y]; nra. }
    lra.
  - intros Hlow Hhigh.
    rewrite addBoundary_y.
    pose proof (addForward_y params velocity
                  (MovementFunctionExample.addHeight params position velocity
                     (Vector3.mk 0 0 0))) as Hf.
    apply Rabs_le_between in Hf.
    assert (Hh : Vector3.y (MovementFunctionExample.addHeight params position
                              velocity (Vector3.mk 0 0 0)) = -10).
    { unfold MovementFunctionExample.addHeight. cbn zeta.
      destruct (Rlt_dec _ _) as [? | _]; [lra |].
      destruct (Rgt_dec _ _) as [_ | ?]; [| lra].
      cbn [Vector3.add Vector3.y]. ring. }
    lra.
Qed.

Lemma lone_bird_witness :
  MovementOutput.acceleration
    (MovementFunctionExample.calculateMovement MovementFunctionExample.flockingParams
       (fun _ => 0.5) 0
       (MovementInput.mk
          (EntityState.mk (Vector3.mk 0 50 0) (Vector3.mk 12 0 0) ∅)
          [] [] 0.016)).1 = Vector3.mk 0 0 0.
Proof.
  apply (proj1 (lone_bird MovementFunctionExample.flockingParams (fun _ => 0.5) 0
                  (MovementInput.mk
                     (EntityState.mk (Vector3.mk 0 50 0) (Vector3.mk 12 0 0) ∅)
                     [] [] 0.016) eq_refl)).
  - simpl. lra.
  - simpl. lra.
  - simpl. replace (50 - 50) with 0 by ring. rewrite Rabs_R0. lra.
  - simpl. rewrite length_x_axis; lra.
  - simpl. rewrite Rabs_R0. lra.
  - simpl. rewrite Rabs_R0. lra.
Defined.

(** X14. The optional variable update of the flocking function.  With
    [Math.random()] in [0, 1), a call either draws once (a value of at
    least 0.01) and returns no update, or draws three times (the first
    value below 0.01) and returns an update of exactly the two variables
    [randomTurn], in [-1, 1), and [randomSpeed], in [0, 1). *)
Theorem flocking_variable_update (params : FlockingParams.t) (random : nat -> R)
    (n : nat) (input : MovementInput.t) :
  (forall k, 0 <= random k < 1) ->
  let result := MovementFunctionExample.calculateMovement params random n input in
  match MovementOutput.shouldUpdateRandomVariables result.1 with
  | None => 0.01 <= random n /\ result.2 = (n + 1)%nat
  | Some patch =>
      random n < 0.01 /\ result.2 = (n + 3)%nat /\
      dom patch = ({[ "randomTurn"%string; "randomSpeed"%string ]} : gset string) /\
      exists randomTurn randomSpeed,
        patch !! "randomTurn"%string = Some randomTurn /\
        patch !! "randomSpeed"%string = Some randomSpeed /\
        -1 <= randomTurn < 1 /\ 0 <= randomSpeed < 1
  end.
Proof.
  intros Hrandom. cbn zeta.
  unfold MovementFunctionExample.calculateMovement,
         MovementFunctionExample.randomVariablesUpdate.
  destruct (Rlt_dec (random n) 0.01) as [Hlt | Hge];
    cbn [fst snd MovementOutput.shouldUpdateRandomVariables].
  - split; [exact Hlt | split; [reflexivity | split]].
    + rewrite dom_insert_L, dom_singleton_L. reflexivity.
    + exists ((random (n + 1)%nat - 0.5) * 2), (random (n + 2)%nat).
      pose proof (Hrandom (n + 1)%nat). pose proof (Hrandom (n + 2)%nat).
      split; [by rewrite lookup_insert |].
      split; [rewrite lookup_insert_ne by done; by rewrite lookup_singleton |].
      lra.
  - split; [lra | reflexivity].
Qed.

Lemma flocking_variable_update_witness :
  MovementOutput.shouldUpdateRandomVariables
    (MovementFunctionExample.calculateMovement MovementFunctionExample.flockingParams
       (fun _ => 0.5) 0
       (MovementInput.mk
          (EntityState.mk (Vector3.mk 0 50 0) (Vector3.mk 12 0 0) ∅)
          [] [] 0.016)).1 = None.
Proof.
  pose proof (flocking_variable_update MovementFunctionExample.flockingParams
                (fun _ => 0.5) 0
                (MovementInput.mk
                   (EntityState.mk (Vector3.mk 0 50 0) (Vector3.mk 12 0 0) ∅)
                   [] [] 0.016)) as H.
  cbn zeta in H.
  destruct (MovementOutput.shouldUpdateRandomVariables _) as [patch |].
  - destruct H as [Hlt _]; [intros _; lra | lra].
  - reflexivity.
Defined.

(** X15. Boundary block of the flocking function.  The block never changes
    the vertical acceleration.  Along x (and likewise along z) it leaves
    the acceleration alone while the agent is no further than 400 from the
    centre; beyond, it adds a term towards the centre whose size is the
    overshoot over 400, divided by 100, times [boundaryTurnStrength]: the
    term reaches the full strength at the terrain edge (500) and keeps
    growing outside. *)
Theorem boundary_turns_inward (params : FlockingParams.t)
    (position acceleration : Vector3) :
  let result := MovementFunctionExample.addBoundary params position acceleration in
  let push (c : R) :=
    (Rabs c - 400) / 100 * FlockingParams.boundaryTurnStrength params in
  Vector3.y result = Vector3.y acceleration /\
  (Rabs (Vector3.x position) <= 400 -> Vector3.x result = Vector3.x acceleration) /\
  (400 < Vector3.x position ->
   Vector3.x result = Vector3.x acceleration - push (Vector3.x position)) /\
  (Vector3.x position < -400 ->
   Vector3.x result = Vector3.x acceleration + push (Vector3.x position)) /\
  (Rabs (Vector3.z position) <= 400 -> Vector3.z result = Vector3.z acceleration) /\
  (400 < Vector3.z position ->
   Vector3.z result = Vector3.z acceleration - push (Vector3.z position)) /\
  (Vector3.z position < -400 ->
   Vector3.z result = Vector3.z acceleration + push (Vector3.z position)).
Proof.
  cbn zeta beta. split; [apply addBoundary_y |].
  unfold MovementFunctionExample.addBoundary. cbn zeta.
  destruct (Rcase_abs (Vector3.x position)) as [Hx | Hx];
    [rewrite !(Rabs_left _ Hx) | rewrite !(Rabs_right _ Hx)];
    (destruct (Rcase_abs (Vector3.z position)) as [Hz | Hz];
     [rewrite !(Rabs_left _ Hz) | rewrite !(Rabs_right _ Hz)]);
    repeat destruct (Rlt_dec _ _); repeat destruct (Rgt_dec _ _);
    cbn [Vector3.add Vector3.x Vector3.y Vector3.z];
    repeat split; intros H; try lra; field.
Qed.

Lemma boundary_turns_inward_witness :
  Vector3.x (MovementFunctionExample.addBoundary MovementFunctionExample.flockingParams
               (Vector3.mk 450 50 0) (Vector3.mk 0 0 0)) = 0 - (Rabs 450 - 400) / 100 * 20.
Proof.
  apply (proj1 (proj2 (proj2 (boundary_turns_inward
                                MovementFunctionExample.flockingParams
                                (Vector3.mk 450 50 0) (Vector3.mk 0 0 0))))).
  simpl. lra.
Defined.

(** ** The camera controller *)

Lemma length_setFromSphericalCoords (radius phi theta : R) :
  0 <= radius ->
  Vector3.length (Vector3.setFromSphericalCoords radius phi theta) = radius.
Proof.
  intros Hr. unfold Vector3.length, Vector3.lengthSq, Vector3.setFromSphericalCoords.
  cbn [Vector3.x Vector3.y Vector3.z].
  pose proof (sin2_cos2 phi) as Hphi. pose proof (sin2_cos2 theta) as Htheta.
  unfold Rsqr in Hphi, Htheta.
  replace (_ + _ + _) with
    (radius * radius *
     (sin phi * sin phi * (sin theta * sin theta + cos theta * cos theta) +
      cos phi * cos phi)) by ring.
  rewrite Htheta, Rmult_1_r, Hphi, Rmult_1_r.
  by apply sqrt_square.
Qed.

Lemma distanceTo_add_l (offset target : Vector3) :
  Vector3.distanceTo (Vector3.add offset target) target = Vector3.length offset.
Proof.
  unfold Vector3.distanceTo, Vector3.distanceToSquared, Vector3.length,
         Vector3.lengthSq, Vector3.add.
  cbn [Vector3.x Vector3.y Vector3.z]. f_equal. ring.
Qed.

Lemma PI_gt_3 : 3 < PI.
Proof. pose proof PI2_3_2. lra. Qed.

Lemma clamp_between (lo hi x : R) :
  lo <= hi -> lo <= Rmax lo (Rmin hi x) <= hi.
Proof.
  intros Hle. unfold Rmax, Rmin.
  destruct (Rle_dec hi x); destruct (Rle_dec lo _); lra.
Qed.

Lemma cameraInRange_new (camera : Vector3) :
  cameraInRange (CameraController.new camera).
Proof.
  pose proof PI_gt_3.
  unfold cameraInRange, CameraController.new, CameraController.updateCameraPosition,
         CameraController.minDistance, CameraController.maxDistance.
  cbn [CameraController.spherical CameraController.target
       CameraController.cameraPosition Spherical.radius Spherical.phi].
  repeat split; lra.
Qed.

Lemma cameraInRange_handle (c : CameraController.t) (e : CameraController.Event) :
  cameraInRange c -> cameraInRange (CameraController.handle c e).
Proof.
  pose proof PI_gt_3.
  intros (Hr & Hphi & Hpos).
  destruct e as [event | direction event | event | event | target];
    cbn [CameraController.handle].
  - unfold cameraInRange, CameraController.onMouseDown.
    cbn [CameraController.spherical CameraController.target
         CameraController.cameraPosition]. done.
  - unfold CameraController.onMouseMove. cbn zeta.
    destruct (CameraController.isRightMouseDown c);
      [| destruct (CameraController.isMiddleMouseDown c)].
    + unfold cameraInRange, CameraController.rotate,
             CameraController.updateCameraPosition.
      cbn [CameraController.spherical CameraController.target
           CameraController.cameraPosition Spherical.radius Spherical.phi].
      split; [exact Hr | split; [apply clamp_between; lra | reflexivity]].
    + unfold cameraInRange, CameraController.pan,
             CameraController.updateCameraPosition.
      cbn [CameraController.spherical CameraController.target
           CameraController.cameraPosition Spherical.radius Spherical.phi].
      split; [exact Hr | split; [exact Hphi | reflexivity]].
    + unfold cameraInRange.
      cbn [CameraController.spherical CameraController.target
           CameraController.cameraPosition]. done.
  - unfold cameraInRange, CameraController.onMouseUp.
    cbn [CameraController.spherical CameraController.target
         CameraController.cameraPosition]. done.
  - unfold cameraInRange, CameraController.onWheel, CameraController.zoom,
           CameraController.updateCameraPosition.
    cbn [CameraController.spherical CameraController.target
         CameraController.cameraPosition Spherical.radius Spherical.phi].
    split; [| split; [exact Hphi | reflexivity]].
    apply clamp_between.
    unfold CameraController.minDistance, CameraController.maxDistance. lra.
  - unfold cameraInRange, CameraController.setTarget,
           CameraController.updateCameraPosition.
    cbn [CameraController.spherical CameraController.target
         CameraController.cameraPosition Spherical.radius Spherical.phi].
    split; [exact Hr | split; [exact Hphi | reflexivity]].
Qed.

Lemma cameraInRange_run (events : list CameraController.Event)
    (c : CameraController.t) :
  cameraInRange c -> cameraInRange (CameraController.run events c).
Proof.
  unfold CameraController.run. revert c.
  induction events as [| e events IH]; intros c Hc; [exact Hc |].
  cbn [foldl]. apply IH. by apply cameraInRange_handle.
Qed.

(** X16. The camera under any input.  After the constructor and any
    sequence of mouse and wheel events and [setTarget] calls, the zoom
    radius is between 50 and 1500, the polar angle between 0.1 and
    pi - 0.1, the camera is where the spherical coordinates put it around
    the target, and its distance to the target is the radius.  The
    constructor moves the camera to (0, 250, 250 * sqrt 3), wherever it
    was. *)
Theorem camera_stays_in_range (camera : Vector3)
    (events : list CameraController.Event) :
  let c := CameraController.run events (CameraController.new camera) in
  cameraInRange c /\
  Vector3.distanceTo (CameraController.cameraPosition c)
                     (CameraController.target c) =
  Spherical.radius (CameraController.spherical c) /\
  CameraController.cameraPosition (CameraController.new camera) =
  Vector3.mk 0 250 (250 * sqrt 3).
Proof.
  cbn zeta.
  pose proof (cameraInRange_run events _ (cameraInRange_new camera)) as Hc.
  split; [exact Hc | split].
  - destruct Hc as (Hr & _ & ->).
    rewrite distanceTo_add_l. unfold CameraController.setFromSpherical.
    apply length_setFromSphericalCoords.
    unfold CameraController.minDistance in Hr. lra.
  - unfold CameraController.new, CameraController.updateCameraPosition,
           CameraController.setFromSpherical, Vector3.setFromSphericalCoords,
           Vector3.add.
    cbn [CameraController.spherical CameraController.target
         CameraController.cameraPosition Spherical.radius Spherical.phi
         Spherical.theta Vector3.x Vector3.y Vector3.z].
    rewrite sin_0, cos_0, cos_PI3, sin_PI3.
    f_equal; field.
Qed.

Lemma idle_handle (c : CameraController.t) (e : CameraController.Event) :
  idleEvent e ->
  CameraController.isRightMouseDown c = false ->
  CameraController.isMiddleMouseDown c = false ->
  let c' := CameraController.handle c e in
  CameraController.isRightMouseDown c' = false /\
  CameraController.isMiddleMouseDown c' = false /\
  CameraController.spherical c' = CameraController.spherical c /\
  CameraController.target c' = CameraController.target c /\
  CameraController.cameraPosition c' = CameraController.cameraPosition c.
Proof.
  intros Hidle Hright Hmiddle. cbn zeta.
  destruct e as [event | direction event | event | event | target];
    cbn [CameraController.handle idleEvent] in *; try done.
  - destruct Hidle as [H1 H2].
    apply Z.eqb_neq in H1, H2.
    unfold CameraController.onMouseDown. rewrite H1, H2.
    cbn [CameraController.isRightMouseDown CameraController.isMiddleMouseDown
         CameraController.spherical CameraController.target
         CameraController.cameraPosition]. done.
  - unfold CameraController.onMouseMove. rewrite Hright, Hmiddle.
    cbn [CameraController.isRightMouseDown CameraController.isMiddleMouseDown
         CameraController.spherical CameraController.target
         CameraController.cameraPosition]. done.
  - unfold CameraController.onMouseUp.
    cbn [CameraController.isRightMouseDown CameraController.isMiddleMouseDown
         CameraController.spherical CameraController.target
         CameraController.cameraPosition].
    rewrite Hright, Hmiddle.
    destruct (MouseEvent.button event =? 2)%Z;
      destruct (MouseEvent.button event =? 1)%Z; done.
Qed.

(** X17. The mouse alone does not move the camera.  In a state with
    neither the right nor the middle button held, any sequence of mouse
    moves, button releases and presses of other buttons leaves the
    spherical coordinates, the target and the camera position as they
    were, and the two buttons still count as released. *)
Theorem idle_events_keep_camera (events : list CameraController.Event)
    (c : CameraController.t) :
  Forall idleEvent events ->
  CameraController.isRightMouseDown c = false ->
  CameraController.isMiddleMouseDown c = false ->
  let c' := CameraController.run events c in
  CameraController.isRightMouseDown c' = false /\
  CameraController.isMiddleMouseDown c' = false /\
  CameraController.spherical c' = CameraController.spherical c /\
  CameraController.target c' = CameraController.target c /\
  CameraController.cameraPosition c' = CameraController.cameraPosition c.
Proof.
  unfold CameraController.run. revert c.
  induction events as [| e events IH]; intros c Hall Hright Hmiddle; cbn zeta.
  - done.
  - apply Forall_cons in Hall as [He Hall]. cbn [foldl].
    destruct (idle_handle c e He Hright Hmiddle) as (Hr & Hm & Hs & Ht & Hp).
    destruct (IH _ Hall Hr Hm) as (Hr' & Hm' & Hs' & Ht' & Hp').
    cbn zeta in *. rewrite Hs', Ht', Hp'. done.
Qed.

Lemma idle_events_keep_camera_witness :
  CameraController.cameraPosition
    (CameraController.run
       [CameraController.MouseDown (MouseEvent.mk 0 10 10);
        CameraController.MouseMove (Vector3.mk 0 0 (-1)) (MouseEvent.mk 0 40 25);
        CameraController.MouseUp (MouseEvent.mk 0 40 25)]
       (CameraController.new (Vector3.mk 0 300 500))) =
  CameraController.cameraPosition (CameraController.new (Vector3.mk 0 300 500)).
Proof.
  apply (idle_events_keep_camera
           [CameraController.MouseDown (MouseEvent.mk 0 10 10);
            CameraController.MouseMove (Vector3.mk 0 0 (-1)) (MouseEvent.mk 0 40 25);
            CameraController.MouseUp (MouseEvent.mk 0 40 25)]
           (CameraController.new (Vector3.mk 0 300 500))).
  - repeat constructor; simpl; lia.
  - reflexivity.
  - reflexivity.
Defined.

Lemma length_horizontal_cross (direction : Vector3) :
  Vector3.x direction <> 0 \/ Vector3.z direction <> 0 ->
  Vector3.length (Vector3.crossVectors direction CameraController.cameraUp) <> 0.
Proof.
  intros Hd H0.
  destruct (component_le_length
              (Vector3.crossVectors direction CameraController.cameraUp))
    as (Hx & _ & Hz).
  rewrite H0 in Hx, Hz.
  unfold Vector3.crossVectors, CameraController.cameraUp in Hx, Hz.
  cbn [Vector3.x Vector3.y Vector3.z] in Hx, Hz.
  revert Hx Hz. unfold Rabs. repeat destruct (Rcase_abs _); intros; lra.
Qed.

(** X18. Panning.  A pan keeps the spherical coordinates.  It raises the
    target by the vertical mouse movement times [panSpeed * radius / 1000],
    whatever the camera looks at, and moves it horizontally at right angles
    to the viewing direction, by the horizontal mouse movement times the
    same factor when the viewing direction is not vertical.  A camera that
    was in place moves by exactly what the target moves. *)
Theorem pan_moves_target (direction : Vector3) (deltaX deltaY : R)
    (c : CameraController.t) :
  let c' := CameraController.pan direction deltaX deltaY c in
  let panFactor := 0.5 * Spherical.radius (CameraController.spherical c) * 0.001 in
  let moved :=
    Vector3.sub (CameraController.target c') (CameraController.target c) in
  CameraController.spherical c' = CameraController.spherical c /\
  Vector3.y moved = deltaY * panFactor /\
  Vector3.x moved * Vector3.x direction + Vector3.z moved * Vector3.z direction = 0 /\
  (Vector3.x direction <> 0 \/ Vector3.z direction <> 0 ->
   Vector3.x moved * Vector3.x moved + Vector3.z moved * Vector3.z moved =
   (deltaX * panFactor) * (deltaX * panFactor)) /\
  (CameraController.cameraPosition c =
   Vector3.add (CameraController.setFromSpherical (CameraController.spherical c))
               (CameraController.target c) ->
   Vector3.sub (CameraController.cameraPosition c')
               (CameraController.cameraPosition c) = moved).
Proof.
  cbn zeta.
  unfold CameraController.pan, CameraController.updateCameraPosition,
         CameraController.panSpeed.
  cbn [CameraController.spherical CameraController.target
       CameraController.cameraPosition].
  set (right := Vector3.normalize
                  (Vector3.crossVectors direction CameraController.cameraUp)).
  set (panFactor := 0.5 * Spherical.radius (CameraController.spherical c) * 0.001).
  assert (Hright :
    right =
    Vector3.multiplyScalar
      (Vector3.crossVectors direction CameraController.cameraUp)
      (1 / (if Req_dec_T (Vector3.length
                            (Vector3.crossVectors direction CameraController.cameraUp)) 0
            then 1
            else Vector3.length
                   (Vector3.crossVectors direction CameraController.cameraUp))))
    by reflexivity.
  set (k := 1 / _) in Hright.
  assert (Hrx : Vector3.x right = - Vector3.z direction * k).
  { rewrite Hright. unfold Vector3.multiplyScalar, Vector3.crossVectors,
      CameraController.cameraUp. cbn [Vector3.x Vector3.y Vector3.z]. ring. }
  assert (Hry : Vector3.y right = 0).
  { rewrite Hright. unfold Vector3.multiplyScalar, Vector3.crossVectors,
      CameraController.cameraUp. cbn [Vector3.x Vector3.y Vector3.z]. ring. }
  assert (Hrz : Vector3.z right = Vector3.x direction * k).
  { rewrite Hright. unfold Vector3.multiplyScalar, Vector3.crossVectors,
      CameraController.cameraUp. cbn [Vector3.x Vector3.y Vector3.z]. ring. }
  split; [reflexivity |].
  unfold Vector3.sub, Vector3.add, Vector3.multiplyScalar.
  cbn [Vector3.x Vector3.y Vector3.z].
  split; [rewrite Hry; ring |].
  split; [rewrite Hrx, Hrz; ring |].
  split.
  - intros Hd.
    pose proof (length_normalize _ (length_horizontal_cross direction Hd)) as Hone.
    fold right in Hone.
    assert (Hsq : Vector3.x right * Vector3.x right +
                  Vector3.z right * Vector3.z right = 1).
    { unfold Vector3.length in Hone.
      assert (Hl : Vector3.lengthSq right = 1).
      { pose proof (lengthSq_nonneg right) as Hge.
        rewrite <- (sqrt_sqrt _ Hge), Hone. ring. }
      unfold Vector3.lengthSq in Hl. rewrite Hry in Hl. lra. }
    replace (_ + _) with
      ((Vector3.x right * Vector3.x right + Vector3.z right * Vector3.z right) *
       ((deltaX * panFactor) * (deltaX * panFactor))) by ring.
    rewrite Hsq. ring.
  - intros ->. unfold Vector3.add. cbn [Vector3.x Vector3.y Vector3.z].
    f_equal; ring.
Qed.

Lemma pan_moves_target_witness :
  let c := CameraController.new (Vector3.mk 0 300 500) in
  let c' := CameraController.pan (Vector3.mk 0 0 (-1)) 10 0 c in
  let moved :=
    Vector3.sub (CameraController.target c') (CameraController.target c) in
  Vector3.x moved * Vector3.x moved + Vector3.z moved * Vector3.z moved =
  (10 * (0.5 * 500 * 0.001)) * (10 * (0.5 * 500 * 0.001)).
Proof.
  cbn zeta.
  apply (proj1 (proj2 (proj2 (proj2
           (pan_moves_target (Vector3.mk 0 0 (-1)) 10 0
              (CameraController.new (Vector3.mk 0 300 500))))))).
  right. simpl. lra.
Defined.

Lemma removeEventListener_fresh (type : string) (callback n : nat)
    (listeners : list (string * nat)) :
  createdBefore n listeners -> (n <= callback)%nat ->
  CameraController.removeEventListener type callback listeners = listeners.
Proof.
  intros Hall Hle. unfold CameraController.removeEventListener.
  induction Hall as [| l ls Hl Hls IH]; [reflexivity |].
  rewrite filter_cons_True, IH; [reflexivity |].
  intros ->. cbn [snd] in Hl. lia.
Qed.

Lemma addEventListener_fresh (type : string) (callback n : nat)
    (listeners : list (string * nat)) :
  createdBefore n listeners -> (n <= callback)%nat ->
  CameraController.addEventListener type callback listeners =
  listeners ++ [(type, callback)] /\
  createdBefore (S callback) (listeners ++ [(type, callback)]).
Proof.
  intros Hall Hle. unfold CameraController.addEventListener.
  split.
  - destruct (decide _) as [Hin | _]; [| reflexivity].
    unfold createdBefore in Hall. rewrite Forall_forall in Hall.
    specialize (Hall _ Hin). cbn [snd] in Hall. lia.
  - apply Forall_app. split.
    + eapply Forall_impl; [exact Hall |]. intros l Hl. cbn beta in *. lia.
    + constructor; [cbn [snd]; lia | constructor].
Qed.

(** X19. [dispose] detaches nothing.  The constructor registers five
    listeners, each with a function object of its own.  [dispose] asks the
    element to remove four callbacks that it creates on the spot with
    [bind]; none of them is a registered one, so whenever it runs, every
    listener registered before stays registered. *)
Theorem dispose_removes_nothing (listeners : list (string * nat)) (n : nat) :
  createdBefore n listeners ->
  let registered := (CameraController.setupEventListeners listeners n).1 in
  let created := (CameraController.setupEventListeners listeners n).2 in
  registered =
  listeners ++ [("mousedown"%string, n); ("mousemove"%string, S n);
                ("mouseup"%string, S (S n)); ("wheel"%string, S (S (S n)));
                ("contextmenu"%string, S (S (S (S n))))] /\
  created = (n + 5)%nat /\
  forall later, (created <= later)%nat ->
    (CameraController.dispose registered later).1 = registered.
Proof.
  intros Hall. cbn zeta.
  unfold CameraController.setupEventListeners, CameraController.bind.
  destruct (addEventListener_fresh "mousedown" n n listeners Hall (le_n _))
    as [-> H1].
  destruct (addEventListener_fresh "mousemove" (S n) (S n) _ H1 (le_n _))
    as [-> H2].
  destruct (addEventListener_fresh "mouseup" (S (S n)) (S (S n)) _ H2 (le_n _))
    as [-> H3].
  destruct (addEventListener_fresh "wheel" (S (S (S n))) (S (S (S n))) _ H3 (le_n _))
    as [-> H4].
  destruct (addEventListener_fresh "contextmenu" (S (S (S (S n))))
              (S (S (S (S n)))) _ H4 (le_n _)) as [-> H5].
  cbn [fst snd]. rewrite <- !app_assoc. cbn [app].
  split; [reflexivity | split; [lia |]].
  intros later Hlater.
  rewrite <- !app_assoc in H5. cbn [app] in H5.
  set (registered :=
         listeners ++ [("mousedown"%string, n); ("mousemove"%string, S n);
                       ("mouseup"%string, S (S n)); ("wheel"%string, S (S (S n)));
                       ("contextmenu"%string, S (S (S (S n))))]) in *.
  assert (Hreg : forall k, (later <= k)%nat -> createdBefore k registered).
  { intros k Hk. eapply Forall_impl; [exact H5 |]. intros l Hl. cbn beta in *. lia. }
  unfold CameraController.dispose, CameraController.bind. cbn [fst].
  rewrite (removeEventListener_fresh _ later later) by (auto using le_n).
  rewrite (removeEventListener_fresh _ (S later) (S later)) by auto.
  rewrite (removeEventListener_fresh _ (S (S later)) (S (S later))) by auto.
  rewrite (removeEventListener_fresh _ (S (S (S later))) (S (S (S later)))) by auto.
  reflexivity.
Qed.

Lemma dispose_removes_nothing_witness :
  (CameraController.dispose (CameraController.setupEventListeners [] 0).1 5).1 =
  (CameraController.setupEventListeners [] 0).1.
Proof.
  apply (proj2 (proj2 (dispose_removes_nothing [] 0 (Forall_nil_2 _))) 5%nat).
  simpl. lia.
Defined.

(** ** The terrain generator *)

Section Terrain.

Variable terrainSize : R.
Variable random : nat -> R.
Hypothesis random_range : forall k, 0 <= random k < 1.

Lemma centred_le (k : nat) (w : R) :
  0 <= w -> Rabs ((random k - 0.5) * w) <= w / 2.
Proof.
  intros Hw. pose proof (random_range k) as Hr.
  unfold Rabs. destruct (Rcase_abs _); nra.
Qed.

Lemma fieldsLoop_spec (count n : nat) (features : list TerrainFeature.t) :
  150 <= terrainSize ->
  exists created,
    TerrainGenerator.fieldsLoop terrainSize random count n features =
      (features ++ created, (n + 4 * count)%nat) /\
    length created = count /\
    Forall (fun feature => TerrainFeature.type feature = field /\
                           onGround terrainSize feature) created.
Proof.
  intros Hsize. revert n features.
  induction count as [| count IH]; intros n features;
    cbn [TerrainGenerator.fieldsLoop].
  - exists []. by rewrite app_nil_r, Nat.add_0_r.
  - cbn zeta.
    match goal with
    | |- context [TerrainGenerator.fieldsLoop _ _ _ _ (features ++ [?f])] =>
        destruct (IH (n + 4)%nat (features ++ [f])) as (created & -> & Hlen & Hall);
        exists (f :: created)
    end.
    split; [f_equal; [by rewrite <- app_assoc | lia] |].
    split; [simpl; by rewrite Hlen |].
    constructor; [| exact Hall].
    split; [reflexivity |].
    unfold onGround. cbn [TerrainFeature.mesh Vector3.x Vector3.z].
    pose proof (random_range n) as Hr.
    pose proof (centred_le (n + 1) (terrainSize - (50 + random n * 100))).
    pose proof (centred_le (n + 2) (terrainSize - (50 + random n * 100))).
    split; lra.
Qed.

Lemma lakesLoop_spec (count n : nat) (features : list TerrainFeature.t) :
  100 <= terrainSize ->
  exists created,
    TerrainGenerator.lakesLoop terrainSize random count n features =
      (features ++ created, (n + 3 * count)%nat) /\
    length created = count /\
    Forall (fun feature => TerrainFeature.type feature = lake /\
                           onGround terrainSize feature) created.
Proof.
  intros Hsize. revert n features.
  induction count as [| count IH]; intros n features;
    cbn [TerrainGenerator.lakesLoop].
  - exists []. by rewrite app_nil_r, Nat.add_0_r.
  - cbn zeta.
    match goal with
    | |- context [TerrainGenerator.lakesLoop _ _ _ _ (features ++ [?f])] =>
        destruct (IH (n + 3)%nat (features ++ [f])) as (created & -> & Hlen & Hall);
        exists (f :: created)
    end.
    split; [f_equal; [by rewrite <- app_assoc | lia] |].
    split; [simpl; by rewrite Hlen |].
    constructor; [| exact Hall].
    split; [reflexivity |].
    unfold onGround. cbn [TerrainFeature.mesh Vector3.x Vector3.z].
    pose proof (random_range n) as Hr.
    pose proof (centred_le (n + 1) (terrainSize - (20 + random n * 30) * 2)).
    pose proof (centred_le (n + 2) (terrainSize - (20 + random n * 30) * 2)).
    split; lra.
Qed.

(** The tree loop writes the slots [i], [i + 1], ... of both meshes and
    leaves the others. *)
Lemma treesLoop_spec (count i n : nat) (trunks foliage : list (option Vector3)) :
  0 <= terrainSize ->
  (i + count <= length trunks)%nat -> length foliage = length trunks ->
  exists trunks' foliage',
    TerrainGenerator.treesLoop terrainSize random count i n trunks foliage =
      (trunks', foliage', (n + 2 * count)%nat) /\
    length trunks' = length trunks /\ length foliage' = length trunks /\
    (forall k, (k < i)%nat ->
       trunks' !! k = trunks !! k /\ foliage' !! k = foliage !! k) /\
    (forall k, (i <= k < i + count)%nat ->
       exists x z,
         trunks' !! k = Some (Some (Vector3.mk x 2 z)) /\
         foliage' !! k = Some (Some (Vector3.mk x 5 z)) /\
         Rabs x <= terrainSize * 0.45 /\ Rabs z <= terrainSize * 0.45).
Proof.
  intros Hsize. revert i n trunks foliage.
  induction count as [| count IH]; intros i n trunks foliage Hlen Hsame;
    cbn [TerrainGenerator.treesLoop].
  - exists trunks, foliage. rewrite Nat.add_0_r.
    repeat split; try done. intros k Hk. lia.
  - cbn zeta.
    set (x := (random n - 0.5) * terrainSize * 0.9).
    set (z := (random (n + 1)%nat - 0.5) * terrainSize * 0.9).
    destruct (IH (S i) (n + 2)%nat
                 (<[i := Some (Vector3.mk x 2 z)]> trunks)
                 (<[i := Some (Vector3.mk x 5 z)]> foliage))
      as (trunks' & foliage' & -> & Hlt & Hlf & Hbelow & Hwritten).
    { rewrite length_insert. lia. }
    { by rewrite !length_insert. }
    exists trunks', foliage'.
    rewrite length_insert in Hlt, Hlf.
    split; [f_equal; lia |].
    split; [exact Hlt | split; [exact Hlf | split]].
    + intros k Hk. destruct (Hbelow k ltac:(lia)) as [-> ->].
      rewrite !list_lookup_insert_ne by lia. done.
    + intros k Hk. destruct (decide (k = i)) as [-> | Hne].
      * destruct (Hbelow i ltac:(lia)) as [-> ->].
        rewrite !list_lookup_insert_eq by lia.
        exists x, z. split; [done | split; [done |]].
        pose proof (random_range n). pose proof (random_range (n + 1)).
        subst x z. unfold Rabs. repeat destruct (Rcase_abs _); nra.
      * apply Hwritten. lia.
Qed.

End Terrain.

(** The inner hedgerow loop writes the slots [index], [index + 1], ... in
    turn and leaves the slots below [index]. *)
Lemma segmentsLoop_spec (segmentsPerHedgerow : nat) (startX startZ angle length_ : R)
    (count j index : nat) (positions : list (option Vector3)) :
  (index + count <= length positions)%nat ->
  exists positions',
    TerrainGenerator.segmentsLoop segmentsPerHedgerow startX startZ angle length_
                                  count j index positions =
      (positions', (index + count)%nat) /\
    length positions' = length positions /\
    (forall k, (k < index)%nat -> positions' !! k = positions !! k) /\
    (forall d, (d < count)%nat ->
       positions' !! (index + d)%nat =
       Some (Some (Vector3.mk
                     (startX + cos angle * length_ *
                               (INR (j + d) / INR segmentsPerHedgerow))
                     1.5
                     (startZ + sin angle * length_ *
                               (INR (j + d) / INR segmentsPerHedgerow))))).
Proof.
  revert j index positions.
  induction count as [| count IH]; intros j index positions Hlen;
    cbn [TerrainGenerator.segmentsLoop].
  - exists positions. rewrite Nat.add_0_r.
    repeat split; try done. intros d Hd. lia.
  - cbn zeta.
    match goal with
    | |- context [<[index := ?v]> positions] =>
        destruct (IH (S j) (S index) (<[index := v]> positions))
          as (positions' & -> & Hl & Hbelow & Hwritten)
    end.
    { rewrite length_insert. lia. }
    exists positions'. rewrite length_insert in Hl.
    split; [f_equal; lia | split; [exact Hl | split]].
    + intros k Hk. rewrite Hbelow by lia.
      by rewrite list_lookup_insert_ne by lia.
    + intros [| d] Hd.
      * rewrite !Nat.add_0_r, Hbelow by lia.
        by rewrite list_lookup_insert_eq by lia.
      * replace (index + S d)%nat with (S index + d)%nat by lia.
        replace (j + S d)%nat with (S j + d)%nat by lia.
        apply Hwritten. lia.
Qed.

Lemma hedgerowsLoop_spec (terrainSize : R) (random : nat -> R)
    (segmentsPerHedgerow count n index : nat) (positions : list (option Vector3)) :
  (index + count * segmentsPerHedgerow <= length positions)%nat ->
  exists positions',
    TerrainGenerator.hedgerowsLoop terrainSize random segmentsPerHedgerow count n
                                   index positions =
      (positions', (index + count * segmentsPerHedgerow)%nat, (n + 4 * count)%nat) /\
    length positions' = length positions /\
    (forall k, (k < index)%nat -> positions' !! k = positions !! k) /\
    (forall i j, (i < count)%nat -> (j < segmentsPerHedgerow)%nat ->
       positions' !! (index + i * segmentsPerHedgerow + j)%nat =
       Some (Some (Vector3.mk
                     ((random (n + 4 * i)%nat - 0.5) * terrainSize * 0.8 +
                      cos (random (n + 4 * i + 2)%nat * PI * 2) *
                      (50 + random (n + 4 * i + 3)%nat * 100) *
                      (INR j / INR segmentsPerHedgerow))
                     1.5
                     ((random (n + 4 * i + 1)%nat - 0.5) * terrainSize * 0.8 +
                      sin (random (n + 4 * i + 2)%nat * PI * 2) *
                      (50 + random (n + 4 * i + 3)%nat * 100) *
                      (INR j / INR segmentsPerHedgerow))))).
Proof.
  revert n index positions.
  induction count as [| count IH]; intros n index positions Hlen;
    cbn [TerrainGenerator.hedgerowsLoop].
  - exists positions. rewrite Nat.add_0_r, Nat.mul_0_r, Nat.add_0_r.
    repeat split; try done. intros i j Hi. lia.
  - cbn zeta.
    set (startX := (random n - 0.5) * terrainSize * 0.8).
    set (startZ := (random (n + 1)%nat - 0.5) * terrainSize * 0.8).
    set (angle := random (n + 2)%nat * PI * 2).
    set (length_ := 50 + random (n + 3)%nat * 100).
    destruct (segmentsLoop_spec segmentsPerHedgerow startX startZ angle length_
                segmentsPerHedgerow 0 index positions)
      as (row & -> & Hrl & Hrbelow & Hrow); [lia |].
    destruct (IH (n + 4)%nat (index + segmentsPerHedgerow)%nat row)
      as (positions' & -> & Hl & Hbelow & Hwritten); [lia |].
    exists positions'.
    split; [f_equal; [f_equal |]; lia |].
    split; [lia | split].
    + intros k Hk. rewrite Hbelow by lia. by apply Hrbelow.
    + intros [| i] j Hi Hj.
      * rewrite Nat.mul_0_r, !Nat.add_0_r.
        replace (index + 0 * segmentsPerHedgerow + j)%nat with (index + j)%nat by lia.
        rewrite Hbelow by lia. rewrite (Hrow j Hj). reflexivity.
      * replace (index + S i * segmentsPerHedgerow + j)%nat
          with (index + segmentsPerHedgerow + i * segmentsPerHedgerow + j)%nat by lia.
        rewrite (Hwritten i j) by lia.
        replace (n + 4 + 4 * i)%nat with (n + 4 * S i)%nat by lia.
        reflexivity.
Qed.

(** X20. The generated terrain.  With [Math.random()] in [0, 1) and a
    terrain at least 150 wide, [generate] on a new generator leaves 23
    features in this order: 15 fields, 5 lakes, one hedgerow mesh of 200
    instances and two tree meshes of 200 instances each.  Every field lies
    on the ground square with its whole square and every lake with its
    whole disc.  All 200 trees are placed: trunk [k] and foliage [k] stand
    at the same spot, at heights 2 and 5, no further than 0.45 times the
    terrain size from the centre along x and z. *)
Theorem terrain_layout (terrainSize : R) (random : nat -> R) (n : nat) :
  (forall k, 0 <= random k < 1) ->
  150 <= terrainSize ->
  let generated :=
    (TerrainGenerator.generate (TerrainGenerator.new terrainSize) random n).1 in
  exists fields lakes hedges trunks foliage,
    TerrainGenerator.features generated =
      fields ++ lakes ++
      [TerrainFeature.mk hedgerow (Vector3.mk 0 0 0) (TerrainMesh.Instanced hedges);
       TerrainFeature.mk tree (Vector3.mk 0 0 0) (TerrainMesh.Instanced trunks);
       TerrainFeature.mk tree (Vector3.mk 0 0 0) (TerrainMesh.Instanced foliage)] /\
    length fields = 15%nat /\
    Forall (fun feature => TerrainFeature.type feature = field /\
                           onGround terrainSize feature) fields /\
    length lakes = 5%nat /\
    Forall (fun feature => TerrainFeature.type feature = lake /\
                           onGround terrainSize feature) lakes /\
    length hedges = 200%nat /\ length trunks = 200%nat /\
    length foliage = 200%nat /\
    forall k, (k < 200)%nat ->
      exists x z,
        trunks !! k = Some (Some (Vector3.mk x 2 z)) /\
        foliage !! k = Some (Some (Vector3.mk x 5 z)) /\
        Rabs x <= terrainSize * 0.45 /\ Rabs z <= terrainSize * 0.45.
Proof.
  intros Hrandom Hsize. cbn zeta.
  unfold TerrainGenerator.generate, TerrainGenerator.generateFields,
         TerrainGenerator.generateLakes, TerrainGenerator.generateHedgerows,
         TerrainGenerator.generateTrees, TerrainGenerator.new.
  cbn [TerrainGenerator.terrainSize TerrainGenerator.features].
  destruct (fieldsLoop_spec terrainSize random Hrandom 15 n [] Hsize)
    as (fields & -> & Hfl & Hfields).
  cbn [TerrainGenerator.terrainSize TerrainGenerator.features app].
  destruct (lakesLoop_spec terrainSize random Hrandom 5 (n + 4 * 15) fields
              ltac:(lra)) as (lakes & -> & Hll & Hlakes).
  cbn [TerrainGenerator.terrainSize TerrainGenerator.features].
  destruct (hedgerowsLoop_spec terrainSize random 20 10 (n + 4 * 15 + 3 * 5) 0
              (replicate (10 * 20) None))
    as (hedges & -> & Hhl & _ & _); [rewrite length_replicate; lia |].
  cbn [TerrainGenerator.terrainSize TerrainGenerator.features].
  destruct (treesLoop_spec terrainSize random Hrandom 200 0
              (n + 4 * 15 + 3 * 5 + 4 * 10)
              (replicate 200 None) (replicate 200 None))
    as (trunks & foliage & -> & Htl & Hfol & _ & Htrees);
    [lra | rewrite length_replicate; lia | reflexivity |].
  rewrite length_replicate in Hhl, Htl, Hfol.
  cbn [fst snd TerrainGenerator.features].
  exists fields, lakes, hedges, trunks, foliage.
  split; [by rewrite <- !app_assoc |].
  repeat (split; [done |]).
  intros k Hk. apply Htrees. lia.
Qed.

Lemma terrain_layout_witness :
  exists fields lakes hedges trunks foliage,
    TerrainGenerator.features
      (TerrainGenerator.generate (TerrainGenerator.new 1000) halfRandom 0).1 =
      fields ++ lakes ++
      [TerrainFeature.mk hedgerow (Vector3.mk 0 0 0) (TerrainMesh.Instanced hedges);
       TerrainFeature.mk tree (Vector3.mk 0 0 0) (TerrainMesh.Instanced trunks);
       TerrainFeature.mk tree (Vector3.mk 0 0 0) (TerrainMesh.Instanced foliage)] /\
    length fields = 15%nat /\ length lakes = 5%nat /\ length trunks = 200%nat.
Proof.
  destruct (terrain_layout 1000 halfRandom 0)
    as (fields & lakes & hedges & trunks & foliage & Heq & Hf & _ & Hl & _ & _ & Ht & _).
  - intros k. unfold halfRandom. lra.
  - lra.
  - exists fields, lakes, hedges, trunks, foliage.
    exact (conj Heq (conj Hf (conj Hl Ht))).
Defined.

Lemma bounded_product (c l j : R) :
  -1 <= c <= 1 -> 0 <= l < 7.5 -> 0 <= j <= 19 -> Rabs (c * l * j) < 142.5.
Proof.
  intros Hc Hl Hj.
  assert (Hm : 0 <= l * j < 142.5) by nra.
  rewrite Rmult_assoc. set (m := l * j) in *.
  unfold Rabs. destruct (Rcase_abs _); nra.
Qed.

(** X21. The hedgerows.  With [Math.random()] in [0, 1) and a terrain size
    that is not negative, [generateHedgerows] appends one mesh whose 200
    instances are all written: instances [20 * i], ..., [20 * i + 19] form
    row [i], a straight line of 20 equally spaced segments at height 1.5.
    A row starts no further than 0.4 times the terrain size from the
    centre along x and z, its spacing is at least 2.5 and less than 7.5,
    and so each of its segments is less than 0.4 times the terrain size
    plus 142.5 from the centre along x and z: on a terrain 1000 wide a
    segment may lie up to 42.5 outside the ground square. *)
Theorem hedgerow_rows (g : TerrainGenerator.t) (random : nat -> R) (n : nat) :
  (forall k, 0 <= random k < 1) ->
  0 <= TerrainGenerator.terrainSize g ->
  exists positions,
    (TerrainGenerator.generateHedgerows g random n).1 =
      TerrainGenerator.mk (TerrainGenerator.terrainSize g)
        (TerrainGenerator.features g ++
         [TerrainFeature.mk hedgerow (Vector3.mk 0 0 0)
                            (TerrainMesh.Instanced positions)]) /\
    length positions = 200%nat /\
    forall i, (i < 10)%nat ->
      exists startX startZ stepX stepZ,
        Rabs startX <= 0.4 * TerrainGenerator.terrainSize g /\
        Rabs startZ <= 0.4 * TerrainGenerator.terrainSize g /\
        2.5 * 2.5 <= stepX * stepX + stepZ * stepZ < 7.5 * 7.5 /\
        forall j, (j < 20)%nat ->
          positions !! (20 * i + j)%nat =
            Some (Some (Vector3.mk (startX + stepX * INR j) 1.5
                                   (startZ + stepZ * INR j))) /\
          Rabs (startX + stepX * INR j) <
            0.4 * TerrainGenerator.terrainSize g + 142.5 /\
          Rabs (startZ + stepZ * INR j) <
            0.4 * TerrainGenerator.terrainSize g + 142.5.
Proof.
  intros Hrandom Hsize.
  set (T := TerrainGenerator.terrainSize g) in *.
  unfold TerrainGenerator.generateHedgerows. cbn zeta. fold T.
  destruct (hedgerowsLoop_spec T random 20 10 n 0 (replicate (10 * 20) None))
    as (positions & -> & Hlen & _ & Hrows); [rewrite length_replicate; lia |].
  rewrite length_replicate in Hlen.
  exists positions. split; [reflexivity | split; [exact Hlen |]].
  intros i Hi.
  set (angle := random (n + 4 * i + 2)%nat * PI * 2).
  set (length_ := 50 + random (n + 4 * i + 3)%nat * 100).
  exists ((random (n + 4 * i)%nat - 0.5) * T * 0.8),
         ((random (n + 4 * i + 1)%nat - 0.5) * T * 0.8),
         (cos angle * length_ / 20), (sin angle * length_ / 20).
  pose proof (Hrandom (n + 4 * i)%nat) as H0.
  pose proof (Hrandom (n + 4 * i + 1)%nat) as H1.
  pose proof (Hrandom (n + 4 * i + 3)%nat) as H3.
  assert (Hlength : 50 <= length_ < 150) by (subst length_; lra).
  assert (Hstep : cos angle * length_ / 20 * (cos angle * length_ / 20) +
                  sin angle * length_ / 20 * (sin angle * length_ / 20) =
                  length_ / 20 * (length_ / 20)).
  { pose proof (sin2_cos2 angle) as Hsc. unfold Rsqr in Hsc.
    replace (_ + _) with
      ((sin angle * sin angle + cos angle * cos angle) *
       (length_ / 20 * (length_ / 20))) by field.
    rewrite Hsc. ring. }
  assert (HstartX : Rabs ((random (n + 4 * i)%nat - 0.5) * T * 0.8) <= 0.4 * T).
  { unfold Rabs. destruct (Rcase_abs _); nra. }
  assert (HstartZ : Rabs ((random (n + 4 * i + 1)%nat - 0.5) * T * 0.8) <= 0.4 * T).
  { unfold Rabs. destruct (Rcase_abs _); nra. }
  split; [exact HstartX | split; [exact HstartZ | split]].
  - rewrite Hstep. nra.
  - intros j Hj.
    assert (Hjr : 0 <= INR j <= 19).
    { split; [apply pos_INR |].
      replace 19 with (INR 19) by (simpl; lra). apply le_INR. lia. }
    assert (HcosB : Rabs (cos angle * length_ / 20 * INR j) < 142.5).
    { replace (cos angle * length_ / 20 * INR j)
        with (cos angle * (length_ / 20) * INR j) by field.
      apply bounded_product; [apply COS_bound | lra | exact Hjr]. }
    assert (HsinB : Rabs (sin angle * length_ / 20 * INR j) < 142.5).
    { replace (sin angle * length_ / 20 * INR j)
        with (sin angle * (length_ / 20) * INR j) by field.
      apply bounded_product; [apply SIN_bound | lra | exact Hjr]. }
    split; [| split].
    + specialize (Hrows i j Hi Hj).
      replace (0 + i * 20 + j)%nat with (20 * i + j)%nat in Hrows by lia.
      rewrite Hrows. fold angle length_. do 2 f_equal.
      replace (INR 20) with 20 by (simpl; lra).
      f_equal; field.
    + eapply Rle_lt_trans; [apply Rabs_triang |]. lra.
    + eapply Rle_lt_trans; [apply Rabs_triang |]. lra.
Qed.

Lemma hedgerow_rows_witness :
  exists positions,
    (TerrainGenerator.generateHedgerows (TerrainGenerator.new 1000) halfRandom 0).1 =
      TerrainGenerator.mk 1000
        [TerrainFeature.mk hedgerow (Vector3.mk 0 0 0)
                           (TerrainMesh.Instanced positions)] /\
    length positions = 200%nat.
Proof.
  destruct (hedgerow_rows (TerrainGenerator.new 1000) halfRandom 0)
    as (positions & Heq & Hlen & _).
  - intros k. unfold halfRandom. lra.
  - simpl. lra.
  - exists positions. split; [exact Heq | exact Hlen].
Defined.

(** ** The simulation *)

Lemma frames_entityCount (deltaTimes : list R) (s : Simulation.t) :
  EntityManager.getEntityCount
    (Simulation.entityManager (Simulation.frames deltaTimes s)) =
  EntityManager.getEntityCount (Simulation.entityManager s) /\
  Simulation.statsEntityCount (Simulation.frames deltaTimes s) =
  Simulation.statsEntityCount s /\
  Simulation.terrainGenerator (Simulation.frames deltaTimes s) =
  Simulation.terrainGenerator s /\
  Simulation.cameraController (Simulation.frames deltaTimes s) =
  Simulation.cameraController s.
Proof.
  unfold Simulation.frames. revert s.
  induction deltaTimes as [| deltaTime deltaTimes IH]; intros s; [done |].
  cbn [foldl]. destruct (IH (Simulation.animate deltaTime s)) as (-> & -> & -> & ->).
  unfold Simulation.animate, EntityManager.getEntityCount.
  cbn [Simulation.entityManager Simulation.statsEntityCount
       Simulation.terrainGenerator Simulation.cameraController].
  by rewrite update_length.
Qed.

(** X23. The population of a run.  A new simulation holds the configured
    number of entities.  From then on, after any number of frames with any
    clock deltas, the number of entities is still the configured
    [entityCount], and [stats.entityCount], which is only written at start,
    still agrees with it; the frames change neither the terrain nor the
    camera controller. *)
Theorem simulation_population (config : SimulationConfig.t)
    (movementFunction : EntityManager.MovementFunction) (random : nat -> R)
    (n : nat) (deltaTimes : list R) :
  let started := (Simulation.new config movementFunction random n).1 in
  let s := Simulation.frames deltaTimes started in
  EntityManager.getEntityCount (Simulation.entityManager started) =
    SimulationConfig.entityCount config /\
  EntityManager.getEntityCount (Simulation.entityManager s) =
    SimulationConfig.entityCount config /\
  Simulation.statsEntityCount s = SimulationConfig.entityCount config /\
  Simulation.terrainGenerator s = Simulation.terrainGenerator started /\
  Simulation.cameraController s = Simulation.cameraController started.
Proof.
  cbn zeta.
  destruct (frames_entityCount deltaTimes
              (Simulation.new config movementFunction random n).1)
    as (-> & -> & -> & ->).
  unfold Simulation.new, Simulation.initialize.
  cbn [Simulation.terrainGenerator Simulation.entityManager
       Simulation.cameraController].
  destruct (TerrainGenerator.generate _ random n) as [terrain n0].
  unfold EntityManager.createEntities, EntityManager.new.
  cbn [EntityManager.terrainSize EntityManager.entities
       EntityManager.movementFunction EntityManager.perceptionRadius
       EntityManager.instancedMesh EntityManager.maxEntityPerception].
  destruct (createLoop_appends (SimulationConfig.terrainSize config) random
              (SimulationConfig.entityCount config) n0 [])
    as (created & -> & Hlen).
  cbn [fst snd Simulation.entityManager Simulation.statsEntityCount
       Simulation.terrainGenerator Simulation.cameraController app].
  unfold EntityManager.getEntityCount.
  rewrite createInstancedMesh_entities.
  cbn [EntityManager.entities].
  repeat split; done.
Qed.

(** ** New entities under the flocking function *)

Lemma spawn_speed (e : Entity.t) :
  withinSpawnVelocity e -> Vector3.length (Entity.velocity e) <= 7.5.
Proof.
  intros (Hx & Hy & Hz). unfold Vector3.length, Vector3.lengthSq.
  replace 7.5 with (sqrt (7.5 * 7.5)) by (apply sqrt_square; lra).
  apply sqrt_le_1_alt. nra.
Qed.

(** X24. New entities meet the flocking function in its calm zone.  On a
    terrain no wider than 1000, with [Math.random()] in [0, 1) and the
    default parameters, every entity that [createEntities] puts into a new
    manager is where the boundary block adds nothing, is slower than 10, so
    that the forward block adds a push of length exactly 5, and is neither
    so low nor so high that the height block does more than correct towards
    the target height: that block adds nothing or a vertical term between
    -25 and 15. *)
Theorem spawn_is_calm (movementFunction : EntityManager.MovementFunction)
    (perceptionRadius : R) (maxEntityPerception : nat) (terrainSize : R)
    (count : nat) (random : nat -> R) (n : nat) :
  0 <= terrainSize <= 1000 ->
  (forall k, 0 <= random k < 1) ->
  let m :=
    (EntityManager.createEntities
       (EntityManager.new movementFunction perceptionRadius maxEntityPerception
                          terrainSize)
       count random n).1 in
  let params := MovementFunctionExample.flockingParams in
  length (EntityManager.entities m) = count /\
  Forall (fun e =>
            forall acceleration : Vector3,
              MovementFunctionExample.addBoundary params (Entity.position e)
                                                  acceleration = acceleration /\
              Vector3.length (Entity.velocity e) <= 7.5 /\
              (exists push,
                 MovementFunctionExample.addForward params (Entity.velocity e)
                                                    acceleration =
                 Vector3.add acceleration push /\
                 Vector3.length push = 5) /\
              (MovementFunctionExample.addHeight params (Entity.position e)
                 (Entity.velocity e) acceleration = acceleration \/
               exists c, -25 <= c <= 15 /\
                 MovementFunctionExample.addHeight params (Entity.position e)
                   (Entity.velocity e) acceleration =
                 Vector3.add acceleration (Vector3.mk 0 c 0)))
         (EntityManager.entities m).
Proof.
  intros [Hnonneg Hwide] Hrandom. cbn zeta.
  unfold EntityManager.createEntities, EntityManager.new.
  cbn [EntityManager.terrainSize EntityManager.entities].
  destruct (createLoop_spec terrainSize random Hnonneg Hrandom count n [])
    as (created & -> & Hlen & Hall).
  cbn [fst app]. rewrite createInstancedMesh_entities.
  cbn [EntityManager.entities].
  split; [exact Hlen |].
  eapply Forall_impl; [exact Hall |].
  intros e [(Hx & Hy & Hz) Hv] acceleration.
  pose proof (spawn_speed e Hv) as Hspeed.
  split; [| split; [exact Hspeed | split]].
  - unfold MovementFunctionExample.addBoundary. cbn zeta.
    destruct (Rlt_dec _ _) as [Hnear | _].
    { revert Hnear. unfold Rabs. destruct (Rcase_abs _); intros; lra. }
    destruct (Rlt_dec _ _) as [Hnear | _]; [| reflexivity].
    revert Hnear. unfold Rabs. destruct (Rcase_abs _); intros; lra.
  - unfold MovementFunctionExample.addForward.
    destruct (Rlt_dec _ _) as [_ | ?]; [| lra].
    eexists. split; [reflexivity |].
    rewrite length_multiplyScalar.
    cbn [MovementFunctionExample.flockingParams FlockingParams.forwardSpeed].
    rewrite (Rabs_pos_eq 5) by lra.
    destruct (Rgt_dec _ _) as [Hmoving | _].
    + rewrite length_normalize by lra. ring.
    + rewrite length_x_axis by lra. ring.
  - unfold MovementFunctionExample.addHeight. cbn zeta.
    cbn [MovementFunctionExample.flockingParams FlockingParams.minHeight
         FlockingParams.maxHeight FlockingParams.targetHeight].
    destruct (Rlt_dec _ _) as [? | _]; [lra |].
    destruct (Rgt_dec _ _) as [? | _]; [lra |].
    destruct (Rgt_dec _ _) as [_ | _]; [right | by left].
    eexists. split; [| reflexivity]. lra.
Qed.

Lemma spawn_is_calm_witness :
  length
    (EntityManager.entities
       (EntityManager.createEntities
          (EntityManager.new MovementFunction.calculateMovement 100 30 1000)
          2 halfRandom 0).1) = 2%nat.
Proof.
  apply (spawn_is_calm MovementFunction.calculateMovement 100 30 1000 2
                       halfRandom 0).
  - lra.
  - intros k. unfold halfRandom. lra.
Defined.
